(** * TODO-Notes: the notes server and its client

    A shallow embedding of the HTTP handlers of the notes server (sign-up,
    profile, password, notes list/create/update/delete), of the client's
    calls to them, and of the handlers of the login/register form, the
    note editor, the account settings and the main page, with the
    properties of the notes CRUD contract and of the client proved about
    them. *)

From Stdlib Require Import ZArith Ascii String.
From stdpp Require Import base option list gmap strings pretty sorting.

Open Scope string_scope.
Open Scope list_scope.
Set Warnings "-register-all".

(** ** JavaScript values *)

Module JS.

(** A value that went through JSON: what [c.req.json()] yields, what the
    key-value store holds and what [c.json] sends. Numbers are the integer
    literals; a string is a sequence of code units, each an [ascii]. *)
Inductive json : Type :=
  | JNull
  | JBool (b : bool)
  | JNum (n : Z)
  | JStr (s : string)
  | JArr (xs : list json)
  | JObj (fields : gmap string json).

(** A value as a handler sees it: [None] is [undefined]. *)
Abbreviation value := (option json).

(** An object under construction in a handler: a property can hold
    [undefined]. *)
Abbreviation jsobj := (gmap string (option json)).

(** ToBoolean. *)
Definition truthy (v : json) : bool :=
  match v with
  | JNull => false
  | JBool b => b
  | JNum n => negb (n =? 0)%Z
  | JStr s => negb (String.eqb s "")
  | JArr _ => true
  | JObj _ => true
  end.

Definition truthy_v (v : value) : bool :=
  match v with
  | None => false
  | Some j => truthy j
  end.

(** [a || d] with a defined right operand. *)
Definition or_else (a : value) (d : json) : json :=
  match a with
  | Some j => if truthy j then j else d
  | None => d
  end.

(** [typeof v === 'object'] *)
Definition typeof_object (v : json) : bool :=
  match v with
  | JNull | JArr _ | JObj _ => true
  | _ => false
  end.

(** [v.k] for a property name [k] that is neither an index nor [length]:
    only an object has such a property of its own. *)
Definition prop (v : json) (k : string) : value :=
  match v with
  | JObj o => o !! k
  | _ => None
  end.

(** The own enumerable properties that [{...v}] copies: the fields of an
    object, the elements of an array and the code units of a string under
    their indices, nothing for the other values. *)
Definition indexed {A} (f : A → json) (l : list A) : gmap string json :=
  list_to_map (imap (λ i x, (pretty i, f x)) l).

Definition spread (v : json) : jsobj :=
  Some <$>
    match v with
    | JObj o => o
    | JArr xs => indexed id xs
    | JStr s => indexed (λ a, JStr (String a "")) (String.list_ascii_of_string s)
    | _ => ∅
    end.

(** JSON serialisation of an object: a property holding [undefined] is
    left out. *)
Definition to_json (o : jsobj) : json := JObj (omap (λ v : value, v) o).

(** [s.split(c)] for a one-character separator. *)
Fixpoint split_on (c : ascii) (s : string) : list string :=
  match s with
  | EmptyString => [""]
  | String a r =>
      if Ascii.eqb a c then "" :: split_on c r
      else match split_on c r with
           | h :: t => String a h :: t
           | [] => [String a ""]
           end
  end.

(** White space of [String.prototype.trim] among the code units below 256. *)
Definition is_space (a : ascii) : bool :=
  let n := nat_of_ascii a in
  bool_decide (n ∈ [9; 10; 11; 12; 13; 32; 160]%nat).

Fixpoint trim_start (s : string) : string :=
  match s with
  | EmptyString => ""
  | String a r => if is_space a then trim_start r else s
  end.

(** [s.trim()] *)
Definition trim (s : string) : string :=
  String.rev (trim_start (String.rev (trim_start s))).

End JS.

Export JS.

(** ** The key-value store *)

Module KV.

(** One access to the store, as the handlers issue them. *)
Inductive kv_op : Type :=
  | Get (key : string)
  | Set_ (key : string) (v : json)
  | Del (key : string)
  | GetByPrefix (pre : string).

(** The world a handler runs in: the contents of the store and the log of
    the accesses made so far, oldest first. *)
Record World : Type := mkWorld {
  store : gmap string json;
  trace : list kv_op
}.

(** A handler step either yields a value or throws. *)
Inductive outcome (A : Type) : Type :=
  | Done (a : A)
  | Thrown.
Arguments Done {A} a.
Arguments Thrown {A}.

Definition M (A : Type) : Type := World → outcome A * World.

Definition ret {A} (a : A) : M A := λ w, (Done a, w).

Definition bind {A B} (m : M A) (k : A → M B) : M B :=
  λ w, match m w with
       | (Done a, w') => k a w'
       | (Thrown, w') => (Thrown, w')
       end.

Definition throw {A} : M A := λ w, (Thrown, w).

(** [try { body } catch { handler }] *)
Definition try_catch {A} (body handler : M A) : M A :=
  λ w, match body w with
       | (Done a, w') => (Done a, w')
       | (Thrown, w') => handler w'
       end.

Definition logged (op : kv_op) (w : World) : list kv_op := trace w ++ [op].

(** The entries whose key starts with [pre]. *)
Definition under (pre : string) (m : gmap string json) : gmap string json :=
  filter (λ kv, String.prefix pre kv.1 = true) m.

(** Modelled from the spec: the module [kv_store.tsx] that the server
    imports as [kv] is not among the sources. The spec calls it a durable
    mapping from string key to JSON value, supporting get, set, delete,
    and prefix-scan; [get] of a key that is not there yields [undefined],
    and the prefix scan yields the values only. *)
Definition get (key : string) : M value :=
  λ w, (Done (store w !! key), mkWorld (store w) (logged (Get key) w)).

(** Modelled from the spec: [kv.set] of the same module, which puts or
    replaces the JSON value at the key. *)
Definition set (key : string) (v : json) : M unit :=
  λ w, (Done tt, mkWorld (<[key := v]> (store w)) (logged (Set_ key v) w)).

(** Modelled from the spec: [kv.del] of the same module, which removes the
    key; removing a key that is not there changes nothing. *)
Definition del (key : string) : M unit :=
  λ w, (Done tt, mkWorld (delete key (store w)) (logged (Del key) w)).

(** Modelled from the spec: [kv.getByPrefix] of the same module, the prefix
    scan, which yields the values of the entries whose key starts with the
    prefix. *)
Definition getByPrefix (pre : string) : M (list json) :=
  λ w, (Done (map_to_list (under pre (store w))).*2,
        mkWorld (store w) (logged (GetByPrefix pre) w)).

(** The keys an access touches: the one key of a get, set or delete, and
    every key under the prefix for a scan. *)
Definition touches (op : kv_op) (key : string) : Prop :=
  match op with
  | Get k | Set_ k _ | Del k => key = k
  | GetByPrefix pre => String.prefix pre key = true
  end.

End KV.

Import KV.

#[global] Instance M_ret : MRet M := @ret.
#[global] Instance M_bind : MBind M := λ A B k m, bind m k.

(** ** The server *)

Module Server.

(** What [supabase.auth.getUser] resolves to. *)
Record User : Type := mkUser { id : string }.

Record AuthResult : Type := mkAuth {
  user : option User;
  error : option string
}.

(** The parts of the Hono context [c] that the handlers read:
    [c.req.header('Authorization')], [c.req.param('id')] and the promise
    [c.req.json()], which rejects ([None]) on a body that is not JSON. *)
Record Request : Type := mkRequest {
  header_Authorization : option string;
  param_id : string;
  req_json : option json
}.

(** [c.json(body, status)] *)
Record Response : Type := mkResponse {
  status : Z;
  body : json
}.

(** What the runtime hands to a request: [crypto.randomUUID()] and
    [new Date().toISOString()]. *)
Record Runtime : Type := mkRuntime {
  randomUUID : string;
  now_ISO : string
}.

Definition json_error (msg : string) (code : Z) : Response :=
  mkResponse code (JObj {["error" := JStr msg]}).

Definition json_ok (key : string) (v : json) : Response :=
  mkResponse 200 (JObj {[key := v]}).

(** [c.req.header('Authorization')?.split(' ')[1]] *)
Definition accessToken (c : Request) : option string :=
  h ← header_Authorization c; split_on " " h !! 1%nat.

(** Destructuring the body: [c.req.json()] may reject, and destructuring
    [null] throws. *)
Definition destructure (c : Request) : M json :=
  match req_json c with
  | None | Some JNull => throw
  | Some b => ret b
  end.

Definition profile_key (uid : string) : string := "user:" +:+ uid +:+ ":profile".
Definition note_prefix (uid : string) : string := "user:" +:+ uid +:+ ":note:".
Definition note_key (uid noteId : string) : string := note_prefix uid +:+ noteId.

(** The filter of the list handler:
    [note && typeof note === 'object' && note.id && note.title] *)
Definition valid_note (note : json) : bool :=
  truthy note && typeof_object note
  && truthy_v (prop note "id") && truthy_v (prop note "title").

(** [v.length] *)
Definition length_of (v : json) : value :=
  match v with
  | JStr s => Some (JNum (Z.of_nat (String.length s)))
  | JArr xs => Some (JNum (Z.of_nat (length xs)))
  | JObj o => o !! "length"
  | _ => None
  end.

Section Handlers.

(** The auth provider: resolving a token, and changing a password, which
    yields the message of the error if there is one. *)
Variable getUser : string → AuthResult.
Variable updateUserById : string → json → option string.

(** ToNumber of a string, an array or an object; [None] is NaN. *)
Variable to_number : json → option Z.

(** [v < n] for a number [n] *)
Definition lt_number (v : value) (n : Z) : bool :=
  match v with
  | None => false
  | Some JNull => (0 <? n)%Z
  | Some (JBool b) => ((if b then 1 else 0) <? n)%Z
  | Some (JNum m) => (m <? n)%Z
  | Some j => match to_number j with Some m => (m <? n)%Z | None => false end
  end.

Definition internal_error : M Response :=
  mret (json_error "Internal server error" 500).

(** [app.get("/make-server-d4e26c79/profile", ...)] *)
Definition get_profile (c : Request) : M Response :=
  try_catch
    (match accessToken c with
     | None | Some "" => mret (json_error "Unauthorized: No token provided" 401)
     | Some token =>
         match error (getUser token), user (getUser token) with
         | None, Some user =>
             profile ← KV.get (profile_key (id user));
             match profile with
             | Some profile =>
                 if negb (truthy profile) then mret (json_error "Profile not found" 404)
                 else mret (json_ok "profile" profile)
             | None => mret (json_error "Profile not found" 404)
             end
         | _, _ => mret (json_error "Unauthorized" 401)
         end
     end)
    internal_error.

(** [app.post("/make-server-d4e26c79/profile/password", ...)] *)
Definition post_profile_password (c : Request) : M Response :=
  try_catch
    (match accessToken c with
     | None | Some "" => mret (json_error "Unauthorized: No token provided" 401)
     | Some token =>
         match error (getUser token), user (getUser token) with
         | None, Some user =>
             b ← destructure c;
             match prop b "newPassword" with
             | Some newPassword =>
                 if negb (truthy newPassword) || lt_number (length_of newPassword) 6
                 then mret (json_error "Password must be at least 6 characters" 400)
                 else match updateUserById (id user) (JObj {["password" := newPassword]}) with
                      | Some message => mret (json_error message 400)
                      | None => mret (json_ok "message" (JStr "Password updated successfully"))
                      end
             | None => mret (json_error "Password must be at least 6 characters" 400)
             end
         | _, _ => mret (json_error "Unauthorized" 401)
         end
     end)
    internal_error.

(** [app.get("/make-server-d4e26c79/notes", ...)] *)
Definition get_notes (c : Request) : M Response :=
  try_catch
    (match accessToken c with
     | None | Some "" => mret (json_error "Unauthorized: No token provided" 401)
     | Some token =>
         match error (getUser token), user (getUser token) with
         | None, Some user =>
             notesData ← KV.getByPrefix (note_prefix (id user));
             let notes := filter (λ note, valid_note note = true) notesData in
             mret (json_ok "notes" (JArr notes))
         | _, _ => mret (json_error "Unauthorized" 401)
         end
     end)
    internal_error.

(** The object literal that the create handler stores. *)
Definition new_note (rt : Runtime) (user : User) (title text tags : value)
    (deadline : json) : jsobj :=
  <["createdAt" := Some (JStr (now_ISO rt))]>
  (<["deadline" := Some deadline]>
  (<["tags" := Some (or_else tags (JArr []))]>
  (<["text" := Some (or_else text (JStr ""))]>
  (<["title" := Some (or_else title (JStr ""))]>
  (<["userId" := Some (JStr (id user))]>
  (<["id" := Some (JStr (randomUUID rt))]> ∅)))))).

(** [app.post("/make-server-d4e26c79/notes", ...)] *)
Definition post_notes (rt : Runtime) (c : Request) : M Response :=
  try_catch
    (match accessToken c with
     | None | Some "" => mret (json_error "Unauthorized: No token provided" 401)
     | Some token =>
         match error (getUser token), user (getUser token) with
         | None, Some user =>
             b ← destructure c;
             let title := prop b "title" in
             let text := prop b "text" in
             let tags := prop b "tags" in
             let deadline := prop b "deadline" in
             if negb (truthy_v title) then mret (json_error "Title is required" 400)
             else match deadline with
             | Some deadline =>
                 if negb (truthy deadline) then mret (json_error "Deadline is required" 400)
                 else
                   let noteId := randomUUID rt in
                   let note := new_note rt user title text tags deadline in
                   KV.set (note_key (id user) noteId) (to_json note);;
                   savedNote ← KV.get (note_key (id user) noteId);
                   mret (json_ok "note" (to_json note))
             | None => mret (json_error "Deadline is required" 400)
             end
         | _, _ => mret (json_error "Unauthorized" 401)
         end
     end)
    internal_error.

(** The object literal that the update handler stores:
    [{ ...existingNote, title, text, tags: tags || [], deadline: deadline || null }] *)
Definition updatedNote (existingNote : json) (title text tags deadline : value) : jsobj :=
  <["deadline" := Some (or_else deadline JNull)]>
  (<["tags" := Some (or_else tags (JArr []))]>
  (<["text" := text]>
  (<["title" := title]> (spread existingNote)))).

(** [app.put("/make-server-d4e26c79/notes/:id", ...)] *)
Definition put_notes (c : Request) : M Response :=
  try_catch
    (match accessToken c with
     | None | Some "" => mret (json_error "Unauthorized: No token provided" 401)
     | Some token =>
         match error (getUser token), user (getUser token) with
         | None, Some user =>
             let noteId := param_id c in
             b ← destructure c;
             let title := prop b "title" in
             let text := prop b "text" in
             let tags := prop b "tags" in
             let deadline := prop b "deadline" in
             existingNote ← KV.get (note_key (id user) noteId);
             match existingNote with
             | Some existingNote =>
                 if negb (truthy existingNote) then mret (json_error "Note not found" 404)
                 else
                   let updated := updatedNote existingNote title text tags deadline in
                   KV.set (note_key (id user) noteId) (to_json updated);;
                   mret (json_ok "note" (to_json updated))
             | None => mret (json_error "Note not found" 404)
             end
         | _, _ => mret (json_error "Unauthorized" 401)
         end
     end)
    internal_error.

(** [app.delete("/make-server-d4e26c79/notes/:id", ...)] *)
Definition delete_notes (c : Request) : M Response :=
  try_catch
    (match accessToken c with
     | None | Some "" => mret (json_error "Unauthorized: No token provided" 401)
     | Some token =>
         match error (getUser token), user (getUser token) with
         | None, Some user =>
             let noteId := param_id c in
             existingNote ← KV.get (note_key (id user) noteId);
             if negb (truthy_v existingNote) then mret (json_error "Note not found" 404)
             else
               KV.del (note_key (id user) noteId);;
               mret (json_ok "message" (JStr "Note deleted successfully"))
         | _, _ => mret (json_error "Unauthorized" 401)
         end
     end)
    internal_error.

End Handlers.

End Server.

(** ** The login/register form *)

Module Client.

(** The state of the [LoginRegister] component that [handleSubmit] reads. *)
Record FormState : Type := mkForm {
  isLogin : bool;
  username : string;
  email : string;
  password : string;
  confirmPassword : string
}.

(** What [supabase.auth.signInWithPassword] resolves to. *)
Record Session : Type := mkSession { access_token : string }.

Record AuthUser : Type := mkAuthUser {
  user_id : string;
  user_metadata_username : option string
}.

Record SignInResult : Type := mkSignIn {
  data_session : option Session;
  data_user : option AuthUser;
  loginError : option string
}.

(** A thrown value: an [Error] with its message, or something else. *)
Inductive thrown : Type :=
  | IsError (message : string)
  | NotError.

(** What [handleSubmit] does, in order. [SignUp] is the POST to [/signup]
    and [SignInWithPassword] the call to the auth provider: the two
    requests that the form can send. *)
Inductive event : Type :=
  | PreventDefault
  | SetError (msg : string)
  | SetLoading (b : bool)
  | SetIsLogin (b : bool)
  | SignInWithPassword (email password : string)
  | SignUp (email password username : string)
  | OnLogin (username accessToken userId : string)
  | ConsoleError.

Definition is_request (e : event) : bool :=
  match e with
  | SignInWithPassword _ _ | SignUp _ _ _ => true
  | _ => false
  end.

Definition is_empty (s : string) : bool := String.eqb s "".

Section Form.

(** The answers of the auth provider and of the [/signup] endpoint; [signUp]
    yields what [fetchAPI] throws, if it throws. *)
Variable signInWithPassword : string → string → SignInResult.
Variable signUp : string → string → string → option thrown.

Definition login_flow (f : FormState) : list event :=
  if is_empty (trim (email f)) || is_empty (trim (password f)) then
    [SetError "Please fill in all fields"; SetLoading false]
  else
    let r := signInWithPassword (email f) (password f) in
    SignInWithPassword (email f) (password f) ::
    match loginError r with
    | Some message => [ConsoleError; SetError message; SetLoading false]
    | None =>
        match data_session r, data_user r with
        | Some session, Some user =>
            let username :=
              match user_metadata_username user with
              | Some u => if is_empty u then default "" (head (split_on "@" (email f))) else u
              | None => default "" (head (split_on "@" (email f)))
              end in
            [OnLogin username (access_token session) (user_id user)]
        | _, _ => [SetError "Login failed"; SetLoading false]
        end
    end.

Definition register_flow (f : FormState) : list event :=
  if is_empty (trim (email f)) || is_empty (trim (password f))
     || is_empty (trim (username f)) then
    [SetError "Please fill in all fields"; SetLoading false]
  else if negb (String.eqb (password f) (confirmPassword f)) then
    [SetError "Passwords do not match"; SetLoading false]
  else if (String.length (password f) <? 6)%nat then
    [SetError "Password must be at least 6 characters"; SetLoading false]
  else
    SignUp (email f) (password f) (username f) ::
    match signUp (email f) (password f) (username f) with
    | Some err =>
        [ConsoleError;
         SetError (match err with IsError message => message | NotError => "An error occurred" end);
         SetLoading false]
    | None =>
        let r := signInWithPassword (email f) (password f) in
        SignInWithPassword (email f) (password f) ::
        match loginError r with
        | Some _ =>
            [ConsoleError; SetError "Registration successful! Please log in.";
             SetIsLogin true; SetLoading false]
        | None =>
            match data_session r, data_user r with
            | Some session, Some user =>
                [OnLogin (username f) (access_token session) (user_id user)]
            | _, _ =>
                [SetError "Registration successful! Please log in.";
                 SetIsLogin true; SetLoading false]
            end
        end
    end.

(** [LoginRegister.handleSubmit] *)
Definition handleSubmit (f : FormState) : list event :=
  PreventDefault :: SetError "" :: SetLoading true ::
  (if isLogin f then login_flow f else register_flow f).

End Form.

End Client.

(** ** The vocabulary of the contract *)

Module Contract.

Import Server.

(** No [":"] in a string: the shape of the ids that the auth provider
    issues (UUIDs). *)
Fixpoint colon_free (s : string) : bool :=
  match s with
  | EmptyString => true
  | String a r => negb (Ascii.eqb a ":") && colon_free r
  end.

(** The effect of one access on the contents of the store. *)
Definition apply_op (m : gmap string json) (op : kv_op) : gmap string json :=
  match op with
  | Set_ k v => <[k := v]> m
  | Del k => delete k m
  | Get _ | GetByPrefix _ => m
  end.

(** [w'] is [w] after the accesses [ops], and nothing else. *)
Definition accessed (w : World) (ops : list kv_op) (w' : World) : Prop :=
  trace w' = trace w ++ ops ∧ store w' = foldl apply_op (store w) ops.

(** Every key that [op] touches lies under [pre]. *)
Definition within (pre : string) (op : kv_op) : Prop :=
  ∀ key, touches op key → String.prefix pre key = true.

(** No key that [op] touches lies under [pre]. *)
Definition outside (pre : string) (op : kv_op) : Prop :=
  ∀ key, touches op key → String.prefix pre key = false.

(** A stored value that the list handler keeps: an object whose [id] and
    [title] are there and truthy. *)
Definition well_formed (n : json) : Prop :=
  ∃ o, n = JObj o ∧ truthy_v (o !! "id") = true ∧ truthy_v (o !! "title") = true.



Section Contract.

Variable getUser : string → AuthResult.
Variable updateUserById : string → json → option string.
Variable to_number : json → option Z.

(** The identity that the common prelude of the handlers resolves from the
    [Authorization] header, if any: the token is the second word of the
    header, it must not be empty, and the auth provider must answer with a
    user and no error. *)
Definition authenticate (c : Request) : option User :=
  match accessToken c with
  | None | Some "" => None
  | Some token =>
      match error (getUser token), user (getUser token) with
      | None, Some user => Some user
      | _, _ => None
      end
  end.

(** The four endpoints that work on notes, and the six protected ones. *)
Definition notes_handlers (rt : Runtime) : list (Request → M Response) :=
  [get_notes getUser; post_notes getUser rt; put_notes getUser;
   delete_notes getUser].

Definition protected_handlers (rt : Runtime) : list (Request → M Response) :=
  get_profile getUser :: post_profile_password getUser updateUserById to_number
  :: notes_handlers rt.

(** The world after the list requests [cs], and after the update requests
    [cs], one after the other. *)
Definition lists (cs : list Request) (w : World) : World :=
  foldl (λ w c, (get_notes getUser c w).2) w cs.

Definition updates (cs : list Request) (w : World) : World :=
  foldl (λ w c, (put_notes getUser c w).2) w cs.

End Contract.

End Contract.

(** ** A concrete run: two users, one note each *)

Module Scenario.

Import Server Client Contract.

Definition alice : User := mkUser "6f1c2a9e-alice".
Definition bob : User := mkUser "b07d44c1-bob".

(** An auth provider that knows two tokens. *)
Definition getUser (token : string) : AuthResult :=
  if String.eqb token "token-alice" then mkAuth (Some alice) None
  else if String.eqb token "token-bob" then mkAuth (Some bob) None
  else mkAuth None (Some "invalid JWT").

Definition updateUserById (uid : string) (attributes : json) : option string := None.

Definition to_number (v : json) : option Z := None.

Definition signInWithPassword (email password : string) : SignInResult :=
  mkSignIn (Some (mkSession "token-alice"))
    (Some (mkAuthUser "6f1c2a9e-alice" (Some "alice"))) None.

Definition signUp (email password username : string) : option thrown := None.

Definition rent : json :=
  JObj (<["title" := JStr "Pay rent"]>
       (<["deadline" := JStr "2025-01-01T23:59:59.999Z"]>
       (<["tags" := JArr [JStr "bills"]]>
       (<["id" := JStr "chosen-by-client"]>
       (<["userId" := JStr "b07d44c1-bob"]> ∅))))).

Definition milk : json :=
  JObj (<["title" := JStr "Buy milk"]>
       (<["deadline" := JStr "2025-02-02T23:59:59.999Z"]> ∅)).

(** A body with neither title nor deadline, and one whose title is there
    but whose deadline is not. *)
Definition only_text : json := JObj (<["text" := JStr "call the landlord"]> ∅).

Definition no_deadline : json := JObj (<["title" := JStr "Pay rent"]> ∅).

Definition short_password : json := JObj (<["newPassword" := JStr "abc12"]> ∅).

Definition rt_alice : Runtime :=
  mkRuntime "0b9d6c3e-1111" "2024-12-01T10:00:00.000Z".

Definition rt_bob : Runtime :=
  mkRuntime "5a2e8f70-2222" "2024-12-01T11:00:00.000Z".

Definition as_alice (noteId : string) (body : option json) : Request :=
  mkRequest (Some "Bearer token-alice") noteId body.

Definition as_bob (noteId : string) (body : option json) : Request :=
  mkRequest (Some "Bearer token-bob") noteId body.

(** No header, a header without a token, and a token that the provider
    does not know. *)
Definition anonymous : Request := mkRequest None "0b9d6c3e-1111" (Some rent).

Definition no_token : Request := mkRequest (Some "Bearer") "0b9d6c3e-1111" (Some rent).

Definition stranger : Request :=
  mkRequest (Some "Bearer token-eve") "0b9d6c3e-1111" (Some rent).

Definition w0 : World := mkWorld ∅ [].

(** The world after Alice created her note. *)
Definition w1 : World :=
  (post_notes getUser rt_alice (as_alice "" (Some rent)) w0).2.

(** The object stored for Alice's note in [w1]. *)
Definition alice_note : gmap string json :=
  omap (λ v : value, v)
    (new_note rt_alice alice (prop rent "title") (prop rent "text")
       (prop rent "tags") (JStr "2025-01-01T23:59:59.999Z")).

Definition short_form : FormState :=
  mkForm false "alice" "alice@example.org" "abc12" "abc12".

End Scenario.

(** ** The public endpoints of the server *)

Module Public.

Import Server.

(** The object literal that the signup handler stores as the profile. *)
Definition new_profile (rt : Runtime) (user : User) (username email : json) : jsobj :=
  <["createdAt" := Some (JStr (now_ISO rt))]>
  (<["email" := Some email]>
  (<["username" := Some username]>
  (<["userId" := Some (JStr (id user))]> ∅))).

(** The body of the answer to a successful signup. *)
Definition signup_ok (user : User) (username : json) : Response :=
  mkResponse 200
    (JObj (<["username" := username]>
          (<["userId" := JStr (id user)]>
          (<["message" := JStr "User created successfully"]> ∅)))).

Section Handlers.

(** [supabase.auth.admin.createUser] with the email, the password and the
    username of the metadata; it answers like [getUser], with a user or
    with an error. *)
Variable createUser : json → json → json → AuthResult.

(** [app.get("/make-server-d4e26c79/health", ...)] *)
Definition get_health (c : Request) : M Response :=
  mret (json_ok "status" (JStr "ok")).

(** [app.post("/make-server-d4e26c79/signup", ...)] *)
Definition post_signup (rt : Runtime) (c : Request) : M Response :=
  try_catch
    (b ← destructure c;
     match prop b "email", prop b "password", prop b "username" with
     | Some email, Some password, Some username =>
         if negb (truthy email) || negb (truthy password) || negb (truthy username)
         then mret (json_error "Email, password, and username are required" 400)
         else
           let r := createUser email password username in
           match error r with
           | Some message => mret (json_error message 400)
           | None =>
               match user r with
               | None => mret (json_error "Failed to create user" 500)
               | Some user =>
                   KV.set (profile_key (id user))
                     (to_json (new_profile rt user username email));;
                   mret (signup_ok user username)
               end
           end
     | _, _, _ => mret (json_error "Email, password, and username are required" 400)
     end)
    internal_error.

(** [app.post("/make-server-d4e26c79/login", ...)] *)
Definition post_login (c : Request) : M Response :=
  try_catch
    (b ← destructure c;
     if negb (truthy_v (prop b "email")) || negb (truthy_v (prop b "password"))
     then mret (json_error "Email and password are required" 400)
     else mret (json_ok "message"
                  (JStr "Please use Supabase client for login on the frontend")))
    internal_error.

End Handlers.

End Public.

(** ** The routes of the server *)

Module Router.

Import Server Public.

(** The routes that the server registers with [app.get], [app.post],
    [app.put] and [app.delete]. *)
Inductive endpoint : Type :=
  | Health
  | Signup
  | Login
  | Profile
  | Password
  | ListNotes
  | CreateNote
  | UpdateNote
  | DeleteNote.

Section Router.

Variable getUser : string → AuthResult.
Variable updateUserById : string → json → option string.
Variable to_number : json → option Z.
Variable createUser : json → json → json → AuthResult.

(** The handler registered for a route. *)
Definition dispatch (e : endpoint) (rt : Runtime) : Request → M Response :=
  match e with
  | Health => get_health
  | Signup => post_signup createUser rt
  | Login => post_login
  | Profile => get_profile getUser
  | Password => post_profile_password getUser updateUserById to_number
  | ListNotes => get_notes getUser
  | CreateNote => post_notes getUser rt
  | UpdateNote => put_notes getUser
  | DeleteNote => delete_notes getUser
  end.

(** The world after the requests [calls], served one after the other. *)
Definition serve (calls : list (endpoint * Runtime * Request)) (w : World) : World :=
  foldl (λ w call, (dispatch call.1.1 call.1.2 call.2 w).2) w calls.

(** The provider only issues colon-free ids, at sign-up and when it
    resolves a token. *)
Definition issues_colon_free_ids : Prop :=
  (∀ token u, user (getUser token) = Some u → Contract.colon_free (id u) = true)
  ∧ (∀ email password username u,
       user (createUser email password username) = Some u →
       Contract.colon_free (id u) = true).

End Router.

(** Every note in the store names the key it is stored under: the value at
    the key of the note [noteId] of the user [uid] is an object whose
    [userId] is [uid] and whose [id] is [noteId]. *)
Definition notes_name_their_key (m : gmap string json) : Prop :=
  ∀ uid noteId v,
    Contract.colon_free uid = true →
    m !! note_key uid noteId = Some v →
    ∃ o, v = JObj o ∧ o !! "userId" = Some (JStr uid) ∧ o !! "id" = Some (JStr noteId).

End Router.

(** ** More of the concrete run: sign-up and a longer session *)

Module Session.

Import Server Public Router Scenario.

(** A provider that creates Alice's identity at sign-up. *)
Definition createUser (email password username : json) : AuthResult :=
  mkAuth (Some alice) None.

Definition signup_body : json :=
  JObj (<["email" := JStr "alice@example.org"]>
       (<["password" := JStr "correct horse"]>
       (<["username" := JStr "alice"]> ∅))).

Definition no_username : json :=
  JObj (<["email" := JStr "alice@example.org"]>
       (<["password" := JStr "correct horse"]> ∅)).

Definition long_password : json := JObj (<["newPassword" := JStr "abc123"]> ∅).

Definition retitled : json :=
  JObj (<["title" := JStr "Pay the rent"]>
       (<["deadline" := JStr "2025-01-31T23:59:59.999Z"]> ∅)).

(** Alice signs up, creates a note, updates it twice, Bob creates one. *)
Definition calls : list (endpoint * Runtime * Request) :=
  [(Signup, rt_alice, mkRequest (Some "Bearer anon") "" (Some signup_body));
   (CreateNote, rt_alice, as_alice "" (Some rent));
   (UpdateNote, rt_alice, as_alice "0b9d6c3e-1111" (Some only_text));
   (UpdateNote, rt_alice, as_alice "0b9d6c3e-1111" (Some retitled));
   (CreateNote, rt_bob, as_bob "" (Some milk))].

End Session.

(** ** The client's calls to the server *)

Module Api.

Import Server Client Public.

(** The argument of [createNote] and [updateNote]. *)
Record NoteData : Type := mkNoteData {
  nd_title : string;
  nd_text : string;
  nd_tags : list string;
  nd_deadline : string
}.

(** [JSON.stringify(noteData)] as the handler reads it back. *)
Definition note_json (d : NoteData) : json :=
  JObj (<["deadline" := JStr (nd_deadline d)]>
       (<["tags" := JArr (JStr <$> nd_tags d)]>
       (<["text" := JStr (nd_text d)]>
       (<["title" := JStr (nd_title d)]> ∅)))).

(** [response.ok] *)
Definition ok (r : Response) : bool :=
  (200 <=? status r)%Z && (status r <=? 299)%Z.

(** A token that is there and not empty. *)
Definition truthy_s (s : option string) : bool :=
  match s with
  | Some t => negb (String.eqb t "")
  | None => false
  end.

Fixpoint space_free (s : string) : bool :=
  match s with
  | EmptyString => true
  | String a r => negb (Ascii.eqb a " ") && space_free r
  end.

(** A header value that [fetch] and the transport hand on as it is: one of
    visible ASCII characters only. [fetch] strips white space from both
    ends of a value and refuses a value that holds NUL, CR or LF. *)
Fixpoint header_safe (s : string) : bool :=
  match s with
  | EmptyString => true
  | String a r =>
      let n := nat_of_ascii a in
      (33 <=? n)%nat && (n <=? 126)%nat && header_safe r
  end.

(** A character that a URL path carries as it is: a letter, a digit, [-]
    or [_]. *)
Definition id_char (a : ascii) : bool :=
  let n := nat_of_ascii a in
  ((48 <=? n)%nat && (n <=? 57)%nat) || ((65 <=? n)%nat && (n <=? 90)%nat)
  || ((97 <=? n)%nat && (n <=? 122)%nat) || (n =? 45)%nat || (n =? 95)%nat.

Fixpoint id_chars (s : string) : bool :=
  match s with
  | EmptyString => true
  | String a r => id_char a && id_chars r
  end.

(** A note id that reaches the router as the one path segment after
    [/notes/], as it is: not empty, and of such characters only. An empty
    id and an id with [/], [?] or [#] address another path, which no route
    with an id matches. *)
Definition path_safe (s : string) : bool := negb (String.eqb s "") && id_chars s.

Section Api.

(** [publicAnonKey] of [./supabase/info], which is not among the sources. *)
Variable publicAnonKey : string.

(** The message of [new Error(v)] for a truthy [v] that is not a string,
    and the message of the TypeError of reading a property of [null]. *)
Variable to_string : json → string.
Variable null_message : string.

(** The [Authorization] header that [fetchAPI] sets; the callers pass no
    headers of their own. *)
Definition authorization (useAuth : bool) (accessToken : option string) : option string :=
  if useAuth && truthy_s accessToken then Some ("Bearer " +:+ default "" accessToken)
  else if negb useAuth then Some ("Bearer " +:+ publicAnonKey)
  else None.

(** The request of [fetchAPI] as it reaches a handler: the header, the id
    in the path and the body. The header arrives as it is set when its
    token is [header_safe], and the id arrives as it is spliced into the
    path when it is [path_safe]; the routes without an id do not read
    it. *)
Definition request (useAuth : bool) (accessToken : option string) (noteId : string)
    (body : option json) : Request :=
  mkRequest (authorization useAuth accessToken) noteId body.

(** What [fetchAPI] makes of the response: it returns the data, or throws
    [new Error(data.error || 'API request failed')] when the response is
    not ok. *)
Definition receive (r : Response) : thrown + json :=
  if ok r then inr (body r)
  else
    match body r with
    | JNull => inl (IsError null_message)
    | data =>
        inl (IsError
               match prop data "error" with
               | Some (JStr s) => if String.eqb s "" then "API request failed" else s
               | Some v => if truthy v then to_string v else "API request failed"
               | None => "API request failed"
               end)
    end.

(** [fetchAPI] against a handler of the server. *)
Definition fetchAPI (h : Request → M Response) (useAuth : bool)
    (accessToken : option string) (noteId : string) (body : option json)
    : M (thrown + json) :=
  r ← h (request useAuth accessToken noteId body); mret (receive r).

Variable getUser : string → AuthResult.
Variable updateUserById : string → json → option string.
Variable to_number : json → option Z.
Variable createUser : json → json → json → AuthResult.

Definition signUp (rt : Runtime) (email password username : string) : M (thrown + json) :=
  fetchAPI (post_signup createUser rt) false None ""
    (Some (JObj (<["username" := JStr username]>
                (<["password" := JStr password]>
                (<["email" := JStr email]> ∅))))).

Definition getProfile (accessToken : string) : M (thrown + json) :=
  fetchAPI (get_profile getUser) true (Some accessToken) "" None.

Definition updatePassword (accessToken newPassword : string) : M (thrown + json) :=
  fetchAPI (post_profile_password getUser updateUserById to_number) true
    (Some accessToken) "" (Some (JObj {["newPassword" := JStr newPassword]})).

Definition getNotes (accessToken : string) : M (thrown + json) :=
  fetchAPI (get_notes getUser) true (Some accessToken) "" None.

Definition createNote (rt : Runtime) (accessToken : string) (noteData : NoteData)
    : M (thrown + json) :=
  fetchAPI (post_notes getUser rt) true (Some accessToken) "" (Some (note_json noteData)).

Definition updateNote (accessToken noteId : string) (noteData : NoteData)
    : M (thrown + json) :=
  fetchAPI (put_notes getUser) true (Some accessToken) noteId
    (Some (note_json noteData)).

Definition deleteNote (accessToken noteId : string) : M (thrown + json) :=
  fetchAPI (delete_notes getUser) true (Some accessToken) noteId None.

End Api.

End Api.

(** ** The seven calls of the client *)

Module Calls.

Import Server Client Public Router Api.

(** The functions that [api.tsx] exports, with their arguments. *)
Inductive call : Type :=
  | CallSignUp (email password username : string)
  | CallGetProfile (accessToken : string)
  | CallUpdatePassword (accessToken newPassword : string)
  | CallGetNotes (accessToken : string)
  | CallCreateNote (accessToken : string) (noteData : NoteData)
  | CallUpdateNote (accessToken noteId : string) (noteData : NoteData)
  | CallDeleteNote (accessToken noteId : string).

(** The route that a call addresses with its method and path. *)
Definition route (k : call) : endpoint :=
  match k with
  | CallSignUp _ _ _ => Signup
  | CallGetProfile _ => Profile
  | CallUpdatePassword _ _ => Password
  | CallGetNotes _ => ListNotes
  | CallCreateNote _ _ => CreateNote
  | CallUpdateNote _ _ _ => UpdateNote
  | CallDeleteNote _ _ => DeleteNote
  end.

Section Calls.

Variable publicAnonKey : string.
Variable to_string : json → string.
Variable null_message : string.
Variable getUser : string → AuthResult.
Variable updateUserById : string → json → option string.
Variable to_number : json → option Z.
Variable createUser : json → json → json → AuthResult.

(** The function of [api.tsx] that a call runs. *)
Definition perform (rt : Runtime) (k : call) : M (thrown + json) :=
  match k with
  | CallSignUp email password username =>
      signUp publicAnonKey to_string null_message createUser rt email password username
  | CallGetProfile accessToken =>
      getProfile publicAnonKey to_string null_message getUser accessToken
  | CallUpdatePassword accessToken newPassword =>
      updatePassword publicAnonKey to_string null_message getUser updateUserById
        to_number accessToken newPassword
  | CallGetNotes accessToken =>
      getNotes publicAnonKey to_string null_message getUser accessToken
  | CallCreateNote accessToken noteData =>
      createNote publicAnonKey to_string null_message getUser rt accessToken noteData
  | CallUpdateNote accessToken noteId noteData =>
      updateNote publicAnonKey to_string null_message getUser accessToken noteId noteData
  | CallDeleteNote accessToken noteId =>
      deleteNote publicAnonKey to_string null_message getUser accessToken noteId
  end.

(** The request that the call sends: sign-up with the public key and the
    three fields, the others with the token; the body of the POST and PUT
    calls, none for GET and DELETE; the note id for update and delete. *)
Definition sent (k : call) : Request :=
  match k with
  | CallSignUp email password username =>
      request publicAnonKey false None ""
        (Some (JObj (<["username" := JStr username]>
                    (<["password" := JStr password]>
                    (<["email" := JStr email]> ∅)))))
  | CallGetProfile accessToken => request publicAnonKey true (Some accessToken) "" None
  | CallUpdatePassword accessToken newPassword =>
      request publicAnonKey true (Some accessToken) ""
        (Some (JObj {["newPassword" := JStr newPassword]}))
  | CallGetNotes accessToken => request publicAnonKey true (Some accessToken) "" None
  | CallCreateNote accessToken noteData =>
      request publicAnonKey true (Some accessToken) "" (Some (note_json noteData))
  | CallUpdateNote accessToken noteId noteData =>
      request publicAnonKey true (Some accessToken) noteId (Some (note_json noteData))
  | CallDeleteNote accessToken noteId =>
      request publicAnonKey true (Some accessToken) noteId None
  end.

(** The calls whose request reaches the server as it is sent: the key
    (which is not empty) or the token of the header is [header_safe], and
    the note id of an update or a delete is [path_safe]. *)
Definition safe (k : call) : bool :=
  match k with
  | CallSignUp _ _ _ => negb (String.eqb publicAnonKey "") && header_safe publicAnonKey
  | CallGetProfile accessToken | CallUpdatePassword accessToken _
  | CallGetNotes accessToken | CallCreateNote accessToken _ => header_safe accessToken
  | CallUpdateNote accessToken noteId _ | CallDeleteNote accessToken noteId =>
      header_safe accessToken && path_safe noteId
  end.

End Calls.

End Calls.

(** ** The note editor *)

Module Editor.

Import Client Api.

(** [NoteType] of [Note.tsx]. *)
Record NoteType : Type := mkNote {
  note_id : string;
  note_title : string;
  note_text : string;
  note_tags : list string;
  note_deadline : string;
  note_createdAt : string
}.

(** [toLowerCase] on the code units below 256: the letters A to Z and the
    accented capitals from 192 to 222, the multiplication sign 215 apart,
    move up by 32. *)
Definition lower_char (a : ascii) : ascii :=
  let n := nat_of_ascii a in
  if ((65 <=? n)%nat && (n <=? 90)%nat)
     || ((192 <=? n)%nat && (n <=? 222)%nat && negb (n =? 215)%nat)
  then ascii_of_nat (n + 32) else a.

Fixpoint toLowerCase (s : string) : string :=
  match s with
  | EmptyString => ""
  | String a r => String (lower_char a) (toLowerCase r)
  end.

(** The state of the [NoteEditor] component. *)
Record EditorState : Type := mkEditor {
  title : string;
  text : string;
  tags : list string;
  tagInput : string;
  deadline : string;
  loading : bool;
  error : string
}.

(** The effect that copies the note to edit into the form. *)
Definition load (note : option NoteType) (st : EditorState) : EditorState :=
  match note with
  | Some n =>
      mkEditor (note_title n) (note_text n) (note_tags n) (tagInput st)
        (default "" (head (split_on "T" (note_deadline n))))
        (loading st) (error st)
  | None => st
  end.

(** [handleAddTag]: the new state, and whether [preventDefault] was called. *)
Definition handleAddTag (key : string) (st : EditorState) : EditorState * bool :=
  if String.eqb key "Enter" && negb (is_empty (trim (tagInput st))) then
    let newTag := toLowerCase (trim (tagInput st)) in
    (mkEditor (title st) (text st)
       (if bool_decide (newTag ∈ tags st) then tags st else tags st ++ [newTag])
       "" (deadline st) (loading st) (error st),
     true)
  else (st, false).

(** [removeTag] *)
Definition removeTag (tagToRemove : string) (st : EditorState) : EditorState :=
  mkEditor (title st) (text st) (filter (λ tag, tag ≠ tagToRemove) (tags st))
    (tagInput st) (deadline st) (loading st) (error st).

(** Typing in the tag field: [onChange] sets [tagInput]. *)
Definition setTagInput (value : string) (st : EditorState) : EditorState :=
  mkEditor (title st) (text st) (tags st) value (deadline st) (loading st) (error st).

(** Tags as the editor makes them: no tag twice, none empty, all in lower
    case. *)
Definition tidy (l : list string) : Prop :=
  NoDup l ∧ Forall (λ t, t ≠ "" ∧ toLowerCase t = t) l.

(** What [handleSubmit] and [handleDelete] do, in order. [Rejects] is an
    exception that escapes the handler. *)
Inductive event : Type :=
  | PreventDefault
  | SetError (msg : string)
  | SetLoading (b : bool)
  | Confirm
  | UpdateNote (accessToken noteId : string) (noteData : NoteData)
  | CreateNote (accessToken : string) (noteData : NoteData)
  | DeleteNote (accessToken noteId : string)
  | OnSave
  | ConsoleError
  | Rejects.

Definition is_call (e : event) : bool :=
  match e with
  | UpdateNote _ _ _ | CreateNote _ _ | DeleteNote _ _ => true
  | _ => false
  end.

Section Editor.

(** The props of the component. *)
Variable note : option NoteType.
Variable accessToken : string.

(** [new Date(deadline)], [setHours(23, 59, 59, 999)] and [toISOString()]:
    the end of the day in the local time zone, which [toISOString] refuses
    ([None]) when the date is not valid. *)
Variable endOfDay : string → option string.

(** What the calls to the server throw, if they throw, and the answer to
    the [confirm] dialog. *)
Variable updateNote : string → string → NoteData → option thrown.
Variable createNote : string → NoteData → option thrown.
Variable deleteNote : string → string → option thrown.
Variable confirm : bool.

Definition failed (fallback : string) (err : thrown) : list event :=
  [ConsoleError;
   SetError (match err with IsError message => message | NotError => fallback end);
   SetLoading false].

(** [NoteEditor.handleSubmit] *)
Definition handleSubmit (st : EditorState) : list event :=
  PreventDefault ::
  if is_empty (trim (title st)) then [SetError "Title is required"]
  else if is_empty (deadline st) then [SetError "Deadline is required"]
  else
    SetLoading true :: SetError "" ::
    match endOfDay (deadline st) with
    | None => [Rejects]
    | Some iso =>
        let noteData := mkNoteData (trim (title st)) (trim (text st)) (tags st) iso in
        match note with
        | Some n =>
            UpdateNote accessToken (note_id n) noteData ::
            match updateNote accessToken (note_id n) noteData with
            | None => [OnSave]
            | Some err => failed "Failed to save note" err
            end
        | None =>
            CreateNote accessToken noteData ::
            match createNote accessToken noteData with
            | None => [OnSave]
            | Some err => failed "Failed to save note" err
            end
        end
    end.

(** [NoteEditor.handleDelete] *)
Definition handleDelete (st : EditorState) : list event :=
  match note with
  | None => []
  | Some n =>
      Confirm ::
      if negb confirm then []
      else
        SetLoading true :: SetError "" :: DeleteNote accessToken (note_id n) ::
        match deleteNote accessToken (note_id n) with
        | None => [OnSave]
        | Some err => failed "Failed to delete note" err
        end
  end.

End Editor.

End Editor.

(** ** The account settings *)

Module Settings.

Import Client Api.

(** What [supabase.auth.refreshSession] resolves to:
    [session?.access_token] and whether there is an error. *)
Record RefreshResult : Type := mkRefresh {
  session_access_token : option string;
  refreshError : bool
}.

(** What [handleChangePassword] does, in order. [LogoutLater] and
    [CloseLater] are the two timers that it sets. *)
Inductive event : Type :=
  | PreventDefault
  | SetPasswordError (msg : string)
  | SetPasswordSuccess (msg : string)
  | SetLoading (b : bool)
  | UpdatePassword (accessToken newPassword : string)
  | RefreshSession
  | ConsoleError
  | OnTokenRefresh (newToken : string)
  | SetNewPassword (s : string)
  | SetConfirmPassword (s : string)
  | LogoutLater
  | CloseLater.

Definition is_success (e : event) : bool :=
  match e with
  | SetPasswordSuccess msg => negb (is_empty msg)
  | _ => false
  end.

Section Settings.

(** The prop of the component. *)
Variable accessToken : string.

(** What [updatePassword] throws, if it throws, and what
    [refreshSession] throws or resolves to. *)
Variable updatePassword : string → string → option thrown.
Variable refreshSession : thrown + RefreshResult.

Definition failed (err : thrown) : list event :=
  [ConsoleError;
   SetPasswordError
     (match err with IsError message => message | NotError => "Failed to update password" end)].

(** [AccountSettings.handleChangePassword] *)
Definition handleChangePassword (newPassword confirmPassword : string) : list event :=
  PreventDefault :: SetPasswordError "" :: SetPasswordSuccess "" :: SetLoading true ::
  if is_empty (trim newPassword) || is_empty (trim confirmPassword) then
    [SetPasswordError "Please fill in both password fields"; SetLoading false]
  else if negb (String.eqb newPassword confirmPassword) then
    [SetPasswordError "Passwords do not match"; SetLoading false]
  else if (String.length newPassword <? 6)%nat then
    [SetPasswordError "Password must be at least 6 characters"; SetLoading false]
  else
    (UpdatePassword accessToken newPassword ::
     match updatePassword accessToken newPassword with
     | Some err => failed err
     | None =>
         RefreshSession ::
         match refreshSession with
         | inl err => failed err
         | inr r =>
             if refreshError r then
               [ConsoleError;
                SetPasswordSuccess "Password updated! Please log in again.";
                LogoutLater]
             else
               (if truthy_s (session_access_token r)
                then [OnTokenRefresh (default "" (session_access_token r))]
                else [])
               ++ [SetPasswordSuccess "Password updated successfully!";
                   SetNewPassword ""; SetConfirmPassword ""; CloseLater]
         end
     end)
    ++ [SetLoading false].

End Settings.

End Settings.

(** ** The main page *)

Module MainPage.

Import Client Api Editor.

(** The filter of [fetchNotes]:
    [note && typeof note === 'object' && note.id && note.title && note.deadline] *)
Definition valid_note (note : json) : bool :=
  truthy note && typeof_object note
  && truthy_v (prop note "id") && truthy_v (prop note "title")
  && truthy_v (prop note "deadline").

(** [(fetchedNotes || []).filter(...)] for the [notes] of the answer
    [data]. Destructuring [null] throws, and so does the call of [filter]
    on a truthy value that is not an array ([None]). *)
Definition validNotes (data : json) : option (list json) :=
  match data with
  | JNull => None
  | _ =>
      match prop data "notes" with
      | Some (JArr fetchedNotes) => Some (filter (λ note, valid_note note = true) fetchedNotes)
      | Some v => if truthy v then None else Some []
      | None => Some []
      end
  end.

(** What [fetchNotes] does, in order. *)
Inductive event : Type :=
  | SetLoading (b : bool)
  | GetNotes (accessToken : string)
  | SetNotes (notes : list json)
  | OnNotesUpdate (notes : list json)
  | SetError (msg : string)
  | ConsoleError.

(** [MainPage.fetchNotes], for what [getNotes] throws or resolves to. *)
Definition fetchNotes (getNotes : string → thrown + json) (accessToken : string)
    : list event :=
  SetLoading true :: GetNotes accessToken ::
  match getNotes accessToken with
  | inl _ => [ConsoleError; SetError "Failed to load notes"]
  | inr data =>
      match validNotes data with
      | Some notes => [SetNotes notes; OnNotesUpdate notes; SetError ""]
      | None => [ConsoleError; SetError "Failed to load notes"]
      end
  end
  ++ [SetLoading false].

(** [s.includes(sub)] *)
Fixpoint includes (s sub : string) : bool :=
  String.prefix sub s
  || match s with
     | EmptyString => false
     | String _ r => includes r sub
     end.

(** [Array.prototype.sort] with a comparator, whose result may be [NaN]
    ([None]), which counts as zero. The sort is stable, so for a consistent
    comparator its result is the one of the stable insertion sort. *)
Section Sort.

Context {A : Type}.
Variable compare : A → A → option Z.

Definition before (a b : A) : bool :=
  match compare a b with
  | Some z => (z <=? 0)%Z
  | None => true
  end.

Fixpoint insert (x : A) (l : list A) : list A :=
  match l with
  | [] => [x]
  | y :: r => if before x y then x :: l else y :: insert x r
  end.

Definition sort (l : list A) : list A := foldr insert [] l.

(** The comparator is the difference of the keys [key] on the elements of
    the list, which makes it consistent on them. *)
Definition keyed (key : A → Z) (l : list A) : Prop :=
  ∀ a b, a ∈ l → b ∈ l → compare a b = Some (key a - key b)%Z.

End Sort.

(** The choices of the sort menu. *)
Inductive order : Type :=
  | ByName
  | ByTime
  | ByTags.

Section Lists.

(** [new Date(s).getTime()], which is [NaN] ([None]) for a string that is
    no date; the clock as [new Date()] reads it for the note at each index
    of the list; and [a.localeCompare(b)]. *)
Variable getTime : string → option Z.
Variable now : nat → Z.
Variable localeCompare : string → string → Z.

(** [note && note.deadline && new Date(note.deadline) >= new Date()], for
    the notes of the component's state, which have the type [NoteType]. *)
Definition is_future (clock : Z) (note : NoteType) : bool :=
  negb (is_empty (note_deadline note))
  && match getTime (note_deadline note) with
     | Some t => (clock <=? t)%Z
     | None => false
     end.

(** The time of the deadline of a note whose deadline is a date. *)
Definition deadline_time (note : NoteType) : Z :=
  default 0%Z (getTime (note_deadline note)).

(** The filter of [upcomingNote] on the notes from index [i] on. *)
Fixpoint future_from (i : nat) (notes : list NoteType) : list NoteType :=
  match notes with
  | [] => []
  | note :: rest =>
      if is_future (now i) note then note :: future_from (S i) rest
      else future_from (S i) rest
  end.

(** [new Date(a.deadline).getTime() - new Date(b.deadline).getTime()] *)
Definition by_time (a b : NoteType) : option Z :=
  match getTime (note_deadline a), getTime (note_deadline b) with
  | Some x, Some y => Some (x - y)%Z
  | _, _ => None
  end.

(** The memo [upcomingNote] *)
Definition upcomingNote (notes : list NoteType) : option NoteType :=
  match notes with
  | [] => None
  | _ =>
      let futureNotes := future_from 0 notes in
      match futureNotes with
      | [] => None
      | _ => head (sort by_time futureNotes)
      end
  end.

(** The search filter of [filteredAndSortedNotes]; the tags of a
    [NoteType] are an array, which is truthy. *)
Definition matches (searchQuery : string) (note : NoteType) : bool :=
  if is_empty (note_title note) then false
  else
    let searchLower := toLowerCase searchQuery in
    includes (toLowerCase (note_title note)) searchLower
    || (negb (is_empty (note_text note))
        && includes (toLowerCase (note_text note)) searchLower)
    || existsb (λ tag, includes (toLowerCase tag) searchLower) (note_tags note).

(** The comparator of [filteredAndSortedNotes] *)
Definition compare (sortBy : order) (a b : NoteType) : option Z :=
  match sortBy with
  | ByName => Some (localeCompare (note_title a) (note_title b))
  | ByTime => by_time a b
  | ByTags =>
      Some (localeCompare (toLowerCase (String.concat "" (note_tags a)))
              (toLowerCase (String.concat "" (note_tags b))))
  end.

(** The memo [filteredAndSortedNotes] *)
Definition filteredAndSortedNotes (notes : list NoteType) (searchQuery : string)
    (sortBy : order) : list NoteType :=
  match notes with
  | [] => []
  | _ =>
      let filtered := filter (λ note, matches searchQuery note = true) notes in
      let filtered :=
        match upcomingNote notes with
        | Some upcoming => filter (λ note, note_id note ≠ note_id upcoming) filtered
        | None => filtered
        end in
      sort (compare sortBy) filtered
  end.

End Lists.

End MainPage.

(** ** A note on the main page *)

Module NoteView.

Import Editor.

(** The milliseconds of a day, [1000 * 60 * 60 * 24]. *)
Definition day : Z := 1000 * 60 * 60 * 24.

(** [Math.ceil(a / b)] for integers [a] and [b > 0]. The source computes
    on doubles: a difference of two times is exact when it is at most
    [2 ^ 53] in absolute value, and then its quotient by the milliseconds
    of a day is below [2 ^ 27], where the rounded quotient has the ceiling
    of the exact one. Beyond that bound the double result can be one
    less. *)
Definition ceil_div (a b : Z) : Z := (- ((- a) / b))%Z.

Section Note.

(** [new Date(s).getTime()], [NaN] ([None]) for a string that is no
    date. *)
Variable getTime : string → option Z.

(** [formatDate] at the time [now] that [new Date()] reads. With [NaN] days
    no comparison holds and the last line prints [NaN]. *)
Definition formatDate (now : Z) (dateString : string) : string :=
  match getTime dateString with
  | None => "NaN days ago"
  | Some date =>
      let diff := (date - now)%Z in
      let days := ceil_div diff day in
      if (days =? 0)%Z then "Today"
      else if (days =? 1)%Z then "Tomorrow"
      else if (0 <? days)%Z then "In " +:+ pretty days +:+ " days"
      else pretty (Z.abs days) +:+ " days ago"
  end.

(** [isOverdue], [new Date(note.deadline) < new Date()] *)
Definition isOverdue (now : Z) (note : NoteType) : bool :=
  match getTime (note_deadline note) with
  | Some date => (date <? now)%Z
  | None => false
  end.

End Note.

End NoteView.

(** ** A concrete run of the client *)

Module Desk.

Import Server Client Api Editor Settings MainPage Scenario.

Definition publicAnonKey : string := "anon-key".

Definition to_string (v : json) : string := "[object Object]".

Definition null_message : string := "Cannot read properties of null (reading 'error')".

(** The end of the day in a zone without offset; an empty string is no
    date. *)
Definition endOfDay (d : string) : option string :=
  if is_empty d then None else Some (d +:+ "T23:59:59.999Z").

(** A server that accepts what the editor and the settings send. *)
Definition updateNote (accessToken noteId : string) (noteData : NoteData)
    : option thrown := None.

Definition createNote (accessToken : string) (noteData : NoteData) : option thrown := None.

Definition updatePassword (accessToken newPassword : string) : option thrown := None.

Definition refreshSession : thrown + RefreshResult :=
  inr (mkRefresh (Some "token-alice") false).

(** The editor with a title, a text, one tag, a tag being typed and a
    deadline, and what it sends when it is saved. *)
Definition draft : EditorState :=
  mkEditor " Pay rent " "call the landlord" ["bills"] " Home " "2025-01-31" false "".

Definition draft_data : NoteData :=
  mkNoteData "Pay rent" "call the landlord" ["bills"] "2025-01-31T23:59:59.999Z".

Definition new_form : FormState :=
  mkForm false "alice" "alice@example.org" "correct horse" "correct horse".

(** The times of two dates, in milliseconds since 1970. *)
Definition getTime (s : string) : option Z :=
  if String.eqb s "2025-01-01T23:59:59.999Z" then Some 1735775999999%Z
  else if String.eqb s "2025-02-02T23:59:59.999Z" then Some 1738540799999%Z
  else None.

(** Ten in the morning of the first of January 2025, and a clock that
    advances by a millisecond from one note to the next. *)
Definition morning : Z := 1735725600000.

Definition now (i : nat) : Z := (morning + Z.of_nat i)%Z.

Definition localeCompare (a b : string) : Z :=
  match String.compare a b with
  | Lt => -1
  | Eq => 0
  | Gt => 1
  end.

Definition rent_note : NoteType :=
  mkNote "0b9d6c3e-1111" "Pay rent" "" ["bills"] "2025-01-01T23:59:59.999Z"
    "2024-12-01T10:00:00.000Z".

Definition milk_note : NoteType :=
  mkNote "5a2e8f70-2222" "Buy milk" "" [] "2025-02-02T23:59:59.999Z"
    "2024-12-01T11:00:00.000Z".

(** What [getNotes] resolves to when the server answers in the world
    [w1]. *)
Definition listing (accessToken : string) : thrown + json :=
  match (Api.getNotes publicAnonKey to_string null_message getUser accessToken w1).1 with
  | Done answer => answer
  | Thrown => inl NotError
  end.

End Desk.

(** * Properties *)

(** ** Keys and namespaces *)

Module Keys.

Import Server Contract.

Lemma append_cons (a : ascii) (r s : string) :
  String a r +:+ s = String a (r +:+ s).
Proof. reflexivity. Qed.

Lemma append_nil (s : string) : "" +:+ s = s.
Proof. reflexivity. Qed.

Lemma prefix_app (p s : string) : String.prefix p (p +:+ s) = true.
Proof.
  induction p as [|a p IH]; rewrite ?append_cons, ?append_nil; simpl.
  - by destruct s.
  - destruct (ascii_dec a a); [done | congruence].
Qed.

Lemma prefix_app_inv (p key : string) :
  String.prefix p key = true → ∃ s, key = p +:+ s.
Proof.
  revert key. induction p as [|a p IH]; intros key H; simpl in *.
  - by exists key.
  - destruct key as [|b key]; [done |]. simpl in H.
    destruct (ascii_dec a b) as [-> | ?]; [| done].
    destruct (IH _ H) as [s ->]. by exists s.
Qed.

Lemma prefix_app_app (p a b : string) :
  String.prefix (p +:+ a) (p +:+ b) = String.prefix a b.
Proof.
  induction p as [|c p IH]; rewrite ?append_cons, ?append_nil; simpl; [done |].
  destruct (ascii_dec c c); [done | congruence].
Qed.

Lemma append_assoc (a b c : string) : (a +:+ b) +:+ c = a +:+ (b +:+ c).
Proof.
  induction a as [|x a IH]; rewrite ?append_cons, ?append_nil; [done | by rewrite IH].
Qed.

(** Two colon-free ids, each followed by a colon: if one side is a prefix
    of the other, the ids are the same. *)
Lemma prefix_cons (a b : ascii) (p s : string) :
  String.prefix (String a p) (String b s)
  = if ascii_dec a b then String.prefix p s else false.
Proof. reflexivity. Qed.

Lemma colon_free_cons (a : ascii) (r : string) :
  colon_free (String a r) = true → a ≠ ":"%char ∧ colon_free r = true.
Proof.
  simpl. intros [Ha Hr]%andb_prop. split; [| done].
  intros ->. by rewrite Ascii.eqb_refl in Ha.
Qed.

Lemma colon_free_prefix (u v r s : string) :
  colon_free u = true → colon_free v = true →
  String.prefix (v +:+ ":" +:+ r) (u +:+ ":" +:+ s) = true → v = u.
Proof.
  revert u. induction v as [|a v IH]; intros [|b u] Hu Hv H;
    rewrite ?append_cons, ?append_nil, ?prefix_cons in H.
  - done.
  - apply colon_free_cons in Hu as [Hb _].
    destruct (ascii_dec ":" b) as [<- | ?]; done.
  - apply colon_free_cons in Hv as [Ha _].
    destruct (ascii_dec a ":") as [-> | ?]; done.
  - apply colon_free_cons in Hu as [_ Hu]. apply colon_free_cons in Hv as [_ Hv].
    destruct (ascii_dec a b) as [-> | ?]; [| done].
    f_equal. by apply IH.
Qed.

(** A key of one user's namespace is outside every other user's. *)
Lemma namespaces_disjoint (u v key : string) :
  colon_free u = true → colon_free v = true → v ≠ u →
  String.prefix (note_prefix u) key = true →
  String.prefix (note_prefix v) key = false.
Proof.
  intros Hu Hv Hne Hk.
  destruct (prefix_app_inv _ _ Hk) as [s ->].
  destruct (String.prefix (note_prefix v) (note_prefix u +:+ s)) eqn:E; [| done].
  exfalso. apply Hne. unfold note_prefix in E.
  rewrite !append_assoc in E. rewrite prefix_app_app in E.
  apply (colon_free_prefix u v "note:" ("note:" +:+ s)); auto.
Qed.

Lemma note_key_prefix (u n : string) :
  String.prefix (note_prefix u) (note_key u n) = true.
Proof. apply prefix_app. Qed.

Lemma note_key_inj (u n m : string) : note_key u n = note_key u m → n = m.
Proof. unfold note_key. apply (inj (String.app _)). Qed.

End Keys.

(** ** The handlers *)

Module Props.

Import Server Contract Keys.

Section Handlers.

#[local] Set Default Proof Using "Type".

Variable getUser : string → AuthResult.
Variable updateUserById : string → json → option string.
Variable to_number : json → option Z.

Ltac run :=
  unfold get_profile, post_profile_password, get_notes, post_notes, put_notes,
    delete_notes, internal_error, destructure, try_catch, throw,
    KV.get, KV.set, KV.del, KV.getByPrefix, logged,
    mbind, M_bind, bind, mret, M_ret, ret; simpl.

(** Runs the prelude of a handler for a request that resolves to a user. *)
Ltac authed Hau :=
  unfold authenticate in Hau; run;
  destruct (accessToken _) as [[|? ?]|]; try discriminate Hau;
  destruct (error (getUser _)); try discriminate Hau;
  destruct (user (getUser _)); try discriminate Hau;
  injection Hau as ->; simpl.

(** Destructures a body that is there and is not [null]. *)
Ltac with_body Hb Hnull :=
  rewrite Hb; match type of Hnull with ?b ≠ _ => destruct b; [done | ..] end; simpl.

Ltac not_in_list :=
  rewrite !not_elem_of_cons; repeat split; (done || apply not_elem_of_nil).

(** *** The prelude *)

Example accessToken_bearer :
  accessToken (mkRequest (Some "Bearer abc.def") "" None) = Some "abc.def".
Proof. reflexivity. Qed.

Example accessToken_one_word :
  accessToken (mkRequest (Some "Bearer") "" None) = None.
Proof. reflexivity. Qed.

Example accessToken_two_spaces :
  accessToken (mkRequest (Some "Bearer  abc") "" None) = Some "".
Proof. reflexivity. Qed.

Example trim_both_ends : trim "  Pay rent " = "Pay rent".
Proof. reflexivity. Qed.

Example spread_array :
  spread (JArr [JNull; JBool true])
  = <["0" := Some JNull]> (<["1" := Some (JBool true)]> ∅).
Proof. by vm_compute. Qed.

(** A request resolves to a user exactly when its header has a second
    word that is not empty and that the provider maps to that user without
    an error. *)
Lemma authenticate_Some (c : Request) (u : User) :
  authenticate getUser c = Some u ↔
  ∃ token, accessToken c = Some token ∧ token ≠ ""
           ∧ error (getUser token) = None ∧ user (getUser token) = Some u.
Proof.
  unfold authenticate. split.
  - destruct (accessToken c) as [[|a t]|]; try done.
    destruct (error (getUser (String a t))) eqn:He; try done.
    destruct (user (getUser (String a t))) eqn:Hu; try done.
    intros [= ->]. by exists (String a t).
  - intros (token & -> & Hne & -> & ->). by destruct token.
Qed.

(** Whatever the request and the world, a protected handler answers: an
    exception does not escape it. *)
Lemma handlers_respond (rt : Runtime) (c : Request) (w : World)
    (h : Request → M Response) :
  h ∈ protected_handlers getUser updateUserById to_number rt →
  ∃ r w', h c w = (Done r, w').
Proof.
  intros Hh. unfold protected_handlers, notes_handlers in Hh.
  repeat (apply elem_of_cons in Hh as [-> | Hh]); [.. | by apply elem_of_nil in Hh];
    run; repeat case_match; simplify_eq; eauto.
Qed.

(** *** Reading the properties of a stored object *)

Lemma prop_to_json (o : jsobj) (k : string) :
  prop (to_json o) k = mjoin (o !! k).
Proof. unfold to_json, prop. rewrite lookup_omap. by destruct (o !! k). Qed.

Lemma spread_obj (o : gmap string json) (k : string) :
  mjoin (spread (JObj o) !! k) = o !! k.
Proof. unfold spread. rewrite lookup_fmap. by destruct (o !! k). Qed.

Lemma or_else_truthy (a : value) (d : json) :
  truthy_v a = true → Some (or_else a d) = a.
Proof. destruct a as [j|]; simpl; [| done]. by intros ->. Qed.

Lemma or_else_falsy (a : value) (d : json) :
  truthy_v a = false → or_else a d = d.
Proof. destruct a as [j|]; simpl; [| done]. by intros ->. Qed.

Lemma updatedNote_kept (o : gmap string json) (title text tags deadline : value)
    (k : string) :
  k ∉ ["title"; "text"; "tags"; "deadline"] →
  prop (to_json (updatedNote (JObj o) title text tags deadline)) k = o !! k.
Proof.
  intros Hk. rewrite prop_to_json. unfold updatedNote.
  rewrite !lookup_insert_ne by (intros <-; apply Hk; repeat constructor).
  apply spread_obj.
Qed.

Lemma updatedNote_title e title text tags deadline :
  prop (to_json (updatedNote e title text tags deadline)) "title" = title.
Proof.
  rewrite prop_to_json. unfold updatedNote.
  rewrite !lookup_insert_ne by done. by rewrite lookup_insert_eq.
Qed.

Lemma updatedNote_text e title text tags deadline :
  prop (to_json (updatedNote e title text tags deadline)) "text" = text.
Proof.
  rewrite prop_to_json. unfold updatedNote.
  rewrite !lookup_insert_ne by done. by rewrite lookup_insert_eq.
Qed.

Lemma updatedNote_tags e title text tags deadline :
  prop (to_json (updatedNote e title text tags deadline)) "tags"
  = Some (or_else tags (JArr [])).
Proof.
  rewrite prop_to_json. unfold updatedNote.
  rewrite !lookup_insert_ne by done. by rewrite lookup_insert_eq.
Qed.

Lemma updatedNote_deadline e title text tags deadline :
  prop (to_json (updatedNote e title text tags deadline)) "deadline"
  = Some (or_else deadline JNull).
Proof. rewrite prop_to_json. unfold updatedNote. by rewrite lookup_insert_eq. Qed.


Lemma valid_note_spec (n : json) : valid_note n = true ↔ well_formed n.
Proof.
  unfold valid_note, well_formed. split.
  - destruct n; simpl; rewrite ?andb_false_r; try done.
    intros [? ?]%andb_prop. eauto.
  - intros (o & -> & Hi & Ht). simpl. by rewrite Hi, Ht.
Qed.

Lemma valid_note_title (n : json) :
  valid_note n = true → truthy_v (prop n "title") = true.
Proof. unfold valid_note. by intros [_ ?]%andb_prop. Qed.

Lemma new_note_valid rt u title text tags deadline :
  randomUUID rt ≠ "" → truthy_v title = true →
  valid_note (to_json (new_note rt u title text tags deadline)) = true.
Proof.
  intros Hid Ht. apply valid_note_spec. eexists. split; [reflexivity |].
  unfold new_note. rewrite !lookup_omap.
  rewrite !lookup_insert_ne by done. rewrite !lookup_insert_eq.
  rewrite !lookup_insert_ne by done. rewrite !lookup_insert_eq. simpl.
  split.
  - by apply negb_true_iff, String.eqb_neq.
  - destruct title as [t|]; [| done]. simpl in *. by rewrite Ht.
Qed.

(** *** Scanning a prefix *)

Lemma filter_snd {A B} (P : B → Prop) `{∀ x, Decision (P x)} (l : list (A * B)) :
  (filter (λ kv, P kv.2) l).*2 = filter P l.*2.
Proof.
  induction l as [|[k v] l IH]; [done |].
  rewrite fmap_cons, !filter_cons. simpl.
  destruct (decide (P v)); rewrite ?fmap_cons; simpl; by rewrite IH.
Qed.

Lemma elem_of_scan (pre : string) (m : gmap string json) (n : json) :
  n ∈ (map_to_list (under pre m)).*2 ↔
  ∃ k, m !! k = Some n ∧ String.prefix pre k = true.
Proof.
  rewrite list_elem_of_fmap. split.
  - intros [[k v] [-> [Hk Hp]%elem_of_map_to_list%map_lookup_filter_Some]]. eauto.
  - intros (k & Hk & Hp). exists (k, n). split; [done |].
    by apply elem_of_map_to_list, map_lookup_filter_Some.
Qed.


Lemma scan_single (pre key : string) (v : json) (m : gmap string json) :
  String.prefix pre key = true → under pre m = ∅ →
  (map_to_list (under pre (<[key := v]> m))).*2 = [v].
Proof.
  intros Hp He. unfold under in *. rewrite map_filter_insert_True by done.
  rewrite He. by rewrite insert_empty, map_to_list_singleton.
Qed.

Lemma under_insert_outside (pre key : string) (v : json) (m : gmap string json) :
  String.prefix pre key = false → under pre (<[key := v]> m) = under pre m.
Proof.
  intros Hp. apply map_filter_insert_not. intros y. simpl. by rewrite Hp.
Qed.

(** *** Accesses and what they leave alone *)

Lemma within_get u n : within (note_prefix u) (Get (note_key u n)).
Proof. intros key ->. apply note_key_prefix. Qed.

Lemma within_set u n v : within (note_prefix u) (Set_ (note_key u n) v).
Proof. intros key ->. apply note_key_prefix. Qed.

Lemma within_del u n : within (note_prefix u) (Del (note_key u n)).
Proof. intros key ->. apply note_key_prefix. Qed.

Lemma within_scan u : within (note_prefix u) (GetByPrefix (note_prefix u)).
Proof. by intros key. Qed.

Lemma within_outside (a b : string) (op : kv_op) :
  colon_free a = true → colon_free b = true → b ≠ a →
  within (note_prefix a) op → outside (note_prefix b) op.
Proof. intros Ha Hb Hne Hin key Hk. apply (namespaces_disjoint a b); auto. Qed.

(** Accesses outside a prefix leave the entries under it as they were. *)
Lemma outside_frame (pre : string) (ops : list kv_op) (m : gmap string json) :
  Forall (outside pre) ops → under pre (foldl apply_op m ops) = under pre m.
Proof.
  intros Hops. revert m. induction Hops as [|op ops Hop _ IH]; intros m; [done |].
  simpl. rewrite IH. unfold under. destruct op as [k | k v | k | p]; simpl; try done.
  - apply map_filter_insert_not. intros y. simpl. by rewrite (Hop k eq_refl).
  - apply map_filter_delete_not. intros y _. simpl. by rewrite (Hop k eq_refl).
Qed.

(** Whatever the request, a notes handler run for the user [u] only makes
    accesses under [u]'s prefix, and the store changes by them alone. *)
Lemma handler_accesses (rt : Runtime) (c : Request) (w : World) (u : User)
    (h : Request → M Response) :
  authenticate getUser c = Some u →
  h ∈ notes_handlers getUser rt →
  ∃ ops, accessed w ops (h c w).2 ∧ Forall (within (note_prefix (id u))) ops.
Proof.
  intros Hau Hh. unfold notes_handlers in Hh. unfold authenticate in Hau.
  repeat (apply elem_of_cons in Hh as [-> | Hh]); [.. | by apply elem_of_nil in Hh];
    run; repeat case_match; simplify_eq; simpl; unfold accessed; simpl;
    first
      [ exists []; split; [split; [by rewrite app_nil_r | done] | by constructor]
      | eexists [_]; split; [split; reflexivity |];
        repeat constructor; auto using within_get, within_set, within_del, within_scan
      | eexists [_; _];
        split; [split; [rewrite <- app_assoc; reflexivity | reflexivity] |];
        repeat constructor; auto using within_get, within_set, within_del, within_scan ].
Qed.

Lemma get_notes_store (c : Request) (w : World) :
  store (get_notes getUser c w).2 = store w.
Proof.
  run. destruct (accessToken c) as [[|a t]|]; simpl; try done.
  by destruct (error (getUser (String a t))), (user (getUser (String a t))).
Qed.

Lemma lists_store (cs : list Request) (w : World) :
  store (lists getUser cs w) = store w.
Proof.
  revert w. induction cs as [|c cs IH]; intros w; [done |].
  unfold lists in *. simpl. by rewrite IH, get_notes_store.
Qed.

(** *** The handlers, case by case, for a request that resolves to [u] *)

Lemma get_notes_ok c w u :
  authenticate getUser c = Some u →
  get_notes getUser c w
  = (Done (json_ok "notes"
             (JArr (filter (λ note, valid_note note = true)
                      (map_to_list (under (note_prefix (id u)) (store w))).*2))),
     mkWorld (store w) (trace w ++ [GetByPrefix (note_prefix (id u))])).
Proof. intros Hau. by authed Hau. Qed.

Lemma post_notes_ok rt c w u b d :
  authenticate getUser c = Some u → req_json c = Some b → b ≠ JNull →
  truthy_v (prop b "title") = true → prop b "deadline" = Some d → truthy d = true →
  let key := note_key (id u) (randomUUID rt) in
  let note := to_json (new_note rt u (prop b "title") (prop b "text") (prop b "tags") d) in
  post_notes getUser rt c w
  = (Done (json_ok "note" note),
     mkWorld (<[key := note]> (store w)) (trace w ++ [Set_ key note; Get key])).
Proof.
  intros Hau Hb Hnull Ht Hd Hdt. authed Hau.
  with_body Hb Hnull; simpl in *; try done.
  rewrite Ht, Hd, Hdt. simpl. by rewrite <- app_assoc.
Qed.

Lemma post_notes_invalid rt c w u b :
  authenticate getUser c = Some u → req_json c = Some b → b ≠ JNull →
  truthy_v (prop b "title") = false ∨ truthy_v (prop b "deadline") = false →
  ∃ msg, post_notes getUser rt c w = (Done (json_error msg 400), w).
Proof.
  intros Hau Hb Hnull Hbad. authed Hau.
  assert (∀ b', b = b' → truthy_v (prop b' "title") = false
                         ∨ truthy_v (prop b' "deadline") = false) as Hbad'
    by (by intros ? <-).
  with_body Hb Hnull; try (by eexists);
    destruct (Hbad' _ eq_refl) as [Ht | Hd]; simpl in Ht || simpl in Hd.
  - rewrite Ht. by eexists.
  - destruct (truthy_v (_ !! "title")); simpl; [| by eexists].
    destruct (_ !! "deadline") as [d|]; simpl in *; [| by eexists].
    rewrite Hd. by eexists.
Qed.

Lemma put_notes_missing c w u b :
  authenticate getUser c = Some u → req_json c = Some b → b ≠ JNull →
  let key := note_key (id u) (param_id c) in
  store w !! key = None →
  put_notes getUser c w
  = (Done (json_error "Note not found" 404), mkWorld (store w) (trace w ++ [Get key])).
Proof.
  intros Hau Hb Hnull key Hk. subst key. authed Hau.
  with_body Hb Hnull; by rewrite Hk.
Qed.

Lemma put_notes_ok c w u b e :
  authenticate getUser c = Some u → req_json c = Some b → b ≠ JNull →
  let key := note_key (id u) (param_id c) in
  store w !! key = Some e → truthy e = true →
  let note := to_json (updatedNote e (prop b "title") (prop b "text")
                         (prop b "tags") (prop b "deadline")) in
  put_notes getUser c w
  = (Done (json_ok "note" note),
     mkWorld (<[key := note]> (store w)) (trace w ++ [Get key; Set_ key note])).
Proof.
  intros Hau Hb Hnull key Hk He. subst key. authed Hau.
  with_body Hb Hnull; rewrite Hk, He; simpl; by rewrite <- app_assoc.
Qed.

Lemma delete_notes_missing c w u :
  authenticate getUser c = Some u →
  let key := note_key (id u) (param_id c) in
  store w !! key = None →
  delete_notes getUser c w
  = (Done (json_error "Note not found" 404), mkWorld (store w) (trace w ++ [Get key])).
Proof. intros Hau key Hk. subst key. authed Hau. by rewrite Hk. Qed.

Lemma delete_notes_ok c w u e :
  authenticate getUser c = Some u →
  let key := note_key (id u) (param_id c) in
  store w !! key = Some e → truthy e = true →
  delete_notes getUser c w
  = (Done (json_ok "message" (JStr "Note deleted successfully")),
     mkWorld (delete key (store w)) (trace w ++ [Get key; Del key])).
Proof.
  intros Hau key Hk He. subst key. authed Hau. rewrite Hk. simpl. rewrite He. simpl.
  by rewrite <- app_assoc.
Qed.

Lemma post_profile_password_short c w u b newPassword :
  authenticate getUser c = Some u → req_json c = Some b →
  prop b "newPassword" = Some (JStr newPassword) →
  (String.length newPassword < 6)%nat →
  post_profile_password getUser updateUserById to_number c w
  = (Done (json_error "Password must be at least 6 characters" 400), w).
Proof.
  intros Hau Hb Hp Hlen. authed Hau. rewrite Hb.
  destruct b; try done. simpl in *. rewrite Hp. simpl.
  assert ((Z.of_nat (String.length newPassword) <? 6)%Z = true) as ->
    by (apply Z.ltb_lt; lia).
  by rewrite orb_true_r.
Qed.

(** The stored values stay objects: what a handler writes is an object. *)
Lemma handlers_keep_objects (rt : Runtime) (c : Request) (w : World)
    (h : Request → M Response) :
  h ∈ protected_handlers getUser updateUserById to_number rt →
  map_Forall (λ _ v, ∃ o, v = JObj o) (store w) →
  map_Forall (λ _ v, ∃ o, v = JObj o) (store (h c w).2).
Proof.
  intros Hh Hw. unfold protected_handlers, notes_handlers in Hh.
  repeat (apply elem_of_cons in Hh as [-> | Hh]); [.. | by apply elem_of_nil in Hh];
    run; repeat case_match; simplify_eq; simpl; try done;
    first [ apply map_Forall_insert_2; [by eexists | done]
          | by apply map_Forall_delete ].
Qed.

(** *** The contract of the protected endpoints *)

(** C2. On each of the six protected endpoints (profile get, password
    change, notes list, create, update, delete), a request whose bearer
    token is missing, empty or does not resolve to a user is answered with
    status 401, and the world is left as it was: nothing is added to the
    log of store accesses and the contents of the store are the same, so
    no read or write came before the answer. *)
Theorem unauthenticated_before_storage (rt : Runtime) (c : Request) (w : World)
    (h : Request → M Response) :
  authenticate getUser c = None →
  h ∈ protected_handlers getUser updateUserById to_number rt →
  ∃ msg, h c w = (Done (json_error msg 401), w).
Proof.
  intros Hau Hh. unfold protected_handlers, notes_handlers in Hh.
  unfold authenticate in Hau.
  repeat (apply elem_of_cons in Hh as [-> | Hh]); [.. | by apply elem_of_nil in Hh];
    run; repeat case_match; simplify_eq; eauto.
Qed.

(** Any number of updates of one note by its owner leave [id], [userId]
    and [createdAt] as they were. *)
Lemma updates_preserve_identity (u : User) (noteId : string) (cs : list Request)
    (w : World) (o : gmap string json) :
  Forall (λ c, authenticate getUser c = Some u ∧ param_id c = noteId
               ∧ ∃ b, req_json c = Some b ∧ b ≠ JNull) cs →
  store w !! note_key (id u) noteId = Some (JObj o) →
  ∃ o', store (updates getUser cs w) !! note_key (id u) noteId = Some (JObj o')
        ∧ o' !! "id" = o !! "id"
        ∧ o' !! "userId" = o !! "userId"
        ∧ o' !! "createdAt" = o !! "createdAt".
Proof.
  intros Hcs. revert w o.
  induction Hcs as [|c cs (Hau & <- & b & Hb & Hnull) _ IH]; intros w o Hk.
  - by exists o.
  - unfold updates in *. simpl.
    rewrite (put_notes_ok c w u b (JObj o)) by done. simpl.
    match goal with
    | |- context [foldl _ ?w1 cs] =>
        destruct (IH w1 (omap (λ v : value, v)
                           (updatedNote (JObj o) (prop b "title") (prop b "text")
                              (prop b "tags") (prop b "deadline"))))
          as (o' & Hk' & Hi & Hu & Hc)
    end.
    { simpl. unfold to_json. apply lookup_insert_eq. }
    exists o'. split; [exact Hk' |].
    rewrite Hi, Hu, Hc.
    pose proof (updatedNote_kept o (prop b "title") (prop b "text") (prop b "tags")
                  (prop b "deadline")) as Hkept.
    unfold to_json, prop in Hkept.
    by rewrite !Hkept by not_in_list.
Qed.

(** C3. For a request that resolves to the user [u] and carries a body:
    when the store has nothing at the key of the note id under [u]'s
    namespace, update answers 404 "Note not found" and the store is
    unchanged; when a note (an object) is stored there, update answers 200
    with the updated note, which is also what it stores at that key; the
    updated note has the [id], [userId] and [createdAt] of the existing
    record (and every other property that is not one of the four below),
    the [title] and [text] of the request, and the [tags] and [deadline] of
    the request when they are supplied (truthy); and the three identity
    fields stay what they were across any sequence of such updates. *)
Theorem update_note_contract (c : Request) (w : World) (u : User) (b : json) :
  authenticate getUser c = Some u → req_json c = Some b → b ≠ JNull →
  let key := note_key (id u) (param_id c) in
  (store w !! key = None →
   ∃ w', put_notes getUser c w = (Done (json_error "Note not found" 404), w')
         ∧ store w' = store w)
  ∧ (∀ o, store w !! key = Some (JObj o) →
     (∃ note w',
       put_notes getUser c w = (Done (json_ok "note" note), w')
       ∧ store w' = <[key := note]> (store w)
       ∧ prop note "id" = o !! "id"
       ∧ prop note "userId" = o !! "userId"
       ∧ prop note "createdAt" = o !! "createdAt"
       ∧ prop note "title" = prop b "title"
       ∧ prop note "text" = prop b "text"
       ∧ (truthy_v (prop b "tags") = true → prop note "tags" = prop b "tags")
       ∧ (truthy_v (prop b "deadline") = true →
          prop note "deadline" = prop b "deadline")
       ∧ (∀ k, k ∉ ["title"; "text"; "tags"; "deadline"] → prop note k = o !! k))
     ∧ (∀ cs,
          Forall (λ c', authenticate getUser c' = Some u
                        ∧ param_id c' = param_id c
                        ∧ ∃ b', req_json c' = Some b' ∧ b' ≠ JNull) cs →
          ∃ o', store (updates getUser cs w) !! key = Some (JObj o')
                ∧ o' !! "id" = o !! "id"
                ∧ o' !! "userId" = o !! "userId"
                ∧ o' !! "createdAt" = o !! "createdAt")).
Proof.
  intros Hau Hb Hnull key. split.
  - intros Hk. eexists. by rewrite (put_notes_missing c w u b).
  - intros o Hk. split; [| intros cs Hcs; by apply updates_preserve_identity].
    eexists _, _. rewrite (put_notes_ok c w u b (JObj o)) by done.
    split; [reflexivity |]. split; [reflexivity |].
    rewrite !updatedNote_kept by not_in_list.
    rewrite updatedNote_title, updatedNote_text, updatedNote_tags, updatedNote_deadline.
    repeat split; auto using or_else_truthy, updatedNote_kept.
Qed.

(** C4. For a request that resolves to the user [u] and carries a body:
    when the title or the deadline is absent (not there, or falsy: the
    handler's tests are [!title] and [!deadline]), create answers 400 and
    leaves the world as it was; when both are present, it answers 200 with
    a note whose [id] is the id drawn from [crypto.randomUUID], whose
    [createdAt] is the current time and whose [userId] is [u]'s, with the
    title and deadline of the request, and this note is what the store then
    holds at the key of that id under [u]'s namespace. *)
Theorem create_note_contract (rt : Runtime) (c : Request) (w : World) (u : User)
    (b : json) :
  authenticate getUser c = Some u → req_json c = Some b → b ≠ JNull →
  let key := note_key (id u) (randomUUID rt) in
  (truthy_v (prop b "title") = false ∨ truthy_v (prop b "deadline") = false →
   ∃ msg, post_notes getUser rt c w = (Done (json_error msg 400), w))
  ∧ (truthy_v (prop b "title") = true → truthy_v (prop b "deadline") = true →
     ∃ note w',
       post_notes getUser rt c w = (Done (json_ok "note" note), w')
       ∧ store w' = <[key := note]> (store w)
       ∧ store w' !! key = Some note
       ∧ String.prefix (note_prefix (id u)) key = true
       ∧ prop note "id" = Some (JStr (randomUUID rt))
       ∧ prop note "createdAt" = Some (JStr (now_ISO rt))
       ∧ prop note "userId" = Some (JStr (id u))
       ∧ prop note "title" = prop b "title"
       ∧ prop note "deadline" = prop b "deadline"
       ∧ prop note "text" = Some (or_else (prop b "text") (JStr ""))
       ∧ prop note "tags" = Some (or_else (prop b "tags") (JArr []))).
Proof.
  intros Hau Hb Hnull key. split.
  - intros Hbad. by eapply post_notes_invalid.
  - intros Ht Hd. destruct (prop b "deadline") as [d|] eqn:Ed; [| done].
    eexists _, _. rewrite (post_notes_ok rt c w u b d) by done.
    split; [reflexivity |]. split; [reflexivity |].
    split; [simpl; apply lookup_insert_eq |].
    split; [apply note_key_prefix |].
    rewrite !prop_to_json. unfold new_note.
    repeat split;
      rewrite ?lookup_insert_ne by done; rewrite lookup_insert_eq; simpl;
      auto using or_else_truthy.
Qed.



(** C6. For a request that resolves to the user [u]: when the store has
    nothing at the key of the note id under [u]'s namespace, delete answers
    404 "Note not found" and the store is unchanged; when a note is stored
    there, delete answers 200, the key is gone from the store, and the same
    request made again is answered 404, not 200. *)
Theorem delete_note_contract (c : Request) (w : World) (u : User) :
  authenticate getUser c = Some u →
  let key := note_key (id u) (param_id c) in
  (store w !! key = None →
   ∃ w', delete_notes getUser c w = (Done (json_error "Note not found" 404), w')
         ∧ store w' = store w)
  ∧ (∀ o, store w !! key = Some (JObj o) →
     ∃ w1 w2,
       delete_notes getUser c w
       = (Done (json_ok "message" (JStr "Note deleted successfully")), w1)
       ∧ store w1 = delete key (store w)
       ∧ delete_notes getUser c w1 = (Done (json_error "Note not found" 404), w2)
       ∧ store w2 = store w1).
Proof.
  intros Hau key. split.
  - intros Hk. eexists. by rewrite (delete_notes_missing c w u).
  - intros o Hk. eexists _, _.
    rewrite (delete_notes_ok c w u (JObj o)) by done.
    split; [reflexivity |]. split; [reflexivity |].
    rewrite (delete_notes_missing c _ u); [done | done |]. apply lookup_delete_eq.
Qed.

(** C7. An update of an existing note whose request has no deadline, or a
    falsy one, answers with a note whose deadline is [null], and that note
    is what the store then holds, whatever deadline was stored before. *)
Theorem update_nulls_missing_deadline (c : Request) (w : World) (u : User)
    (b : json) (o : gmap string json) :
  authenticate getUser c = Some u → req_json c = Some b → b ≠ JNull →
  let key := note_key (id u) (param_id c) in
  store w !! key = Some (JObj o) →
  truthy_v (prop b "deadline") = false →
  ∃ note w',
    put_notes getUser c w = (Done (json_ok "note" note), w')
    ∧ store w' !! key = Some note
    ∧ prop note "deadline" = Some JNull.
Proof.
  intros Hau Hb Hnull key Hk Hd. eexists _, _.
  rewrite (put_notes_ok c w u b (JObj o)) by done.
  split; [reflexivity |]. split; [simpl; apply lookup_insert_eq |].
  by rewrite updatedNote_deadline, or_else_falsy.
Qed.

(** C8. For a request that resolves to the user [u], list answers 200 with
    the values of exactly those entries of the store whose key lies under
    [u]'s prefix and whose value is an object with an id and a title (both
    there and truthy), each entry once; the other entries under the prefix
    are left out without an error, and the store is unchanged. *)
Theorem list_notes_contract (c : Request) (w : World) (u : User) :
  authenticate getUser c = Some u →
  ∃ entries w',
    get_notes getUser c w = (Done (json_ok "notes" (JArr entries.*2)), w')
    ∧ store w' = store w
    ∧ NoDup entries.*1
    ∧ ∀ k n, (k, n) ∈ entries ↔
        store w !! k = Some n
        ∧ String.prefix (note_prefix (id u)) k = true
        ∧ well_formed n.
Proof.
  intros Hau.
  exists (filter (λ kv, valid_note kv.2 = true)
            (map_to_list (under (note_prefix (id u)) (store w)))).
  eexists. rewrite (get_notes_ok c w u Hau).
  pose proof (filter_snd (λ n, valid_note n = true)
    (map_to_list (under (note_prefix (id u)) (store w)))) as E.
  simpl in E. rewrite E. clear E.
  split; [reflexivity |]. split; [reflexivity |]. split.
  - apply NoDup_fmap_fst.
    + intros k x y [_ Hx]%list_elem_of_filter [_ Hy]%list_elem_of_filter.
      apply elem_of_map_to_list in Hx, Hy. rewrite Hx in Hy. by injection Hy.
    + apply NoDup_filter, NoDup_map_to_list.
  - intros k n. rewrite list_elem_of_filter, elem_of_map_to_list. simpl.
    unfold under. rewrite map_lookup_filter_Some, valid_note_spec. simpl.
    clear. tauto.
Qed.

(** C10. An update of an existing note stores and returns the [title] and
    [text] of the request whatever they are; so when the request has no
    title, the stored note has none either ([undefined]), and from then on
    every list request, after any number of further list requests, answers
    with a list that does not contain the note, while the store still holds
    it at its key. *)
Theorem update_without_title_hides_note (c : Request) (w : World) (u : User)
    (b : json) (o : gmap string json) :
  authenticate getUser c = Some u → req_json c = Some b → b ≠ JNull →
  let key := note_key (id u) (param_id c) in
  store w !! key = Some (JObj o) →
  ∃ note w1,
    put_notes getUser c w = (Done (json_ok "note" note), w1)
    ∧ store w1 !! key = Some note
    ∧ prop note "title" = prop b "title"
    ∧ prop note "text" = prop b "text"
    ∧ (prop b "title" = None →
       ∀ (cs : list Request) (c' : Request) (u' : User),
         authenticate getUser c' = Some u' →
         ∃ notes w2,
           get_notes getUser c' (lists getUser cs w1)
           = (Done (json_ok "notes" (JArr notes)), w2)
           ∧ (note ∉ notes)
           ∧ store w2 !! key = Some note).
Proof.
  intros Hau Hb Hnull key Hk. eexists _, _.
  rewrite (put_notes_ok c w u b (JObj o)) by done.
  split; [reflexivity |]. split; [simpl; apply lookup_insert_eq |].
  rewrite updatedNote_title, updatedNote_text. do 2 (split; [done |]).
  intros Hnone cs c' u' Hau'. eexists _, _.
  rewrite (get_notes_ok c' _ u' Hau'). split; [reflexivity |]. split.
  - intros [Hv _]%list_elem_of_filter. apply valid_note_title in Hv.
    by rewrite updatedNote_title, Hnone in Hv.
  - simpl. rewrite lists_store. simpl. apply lookup_insert_eq.
Qed.

(** C1. A notes handler (list, create, update, delete) run for a request
    that resolves to the user [u] makes its store accesses under the prefix
    [user:<id of u>:note:] only, whatever the body, the note id and the rest
    of the request say, and changes the store by these accesses alone. So,
    for any other user [v] (the ids being colon-free, as the provider's are),
    none of the keys touched lies under [v]'s prefix and the entries under
    [v]'s prefix are the same before and after. And when [u] and [v], each
    starting without notes, create one note each, the list of [u] is [u]'s
    note alone and the list of [v] is [v]'s note alone. *)
Theorem notes_namespace_isolation (rt : Runtime) (c : Request) (w : World)
    (u : User) :
  authenticate getUser c = Some u →
  (∀ h, h ∈ notes_handlers getUser rt →
     ∃ ops, accessed w ops (h c w).2 ∧ Forall (within (note_prefix (id u))) ops)
  ∧ (∀ v : User,
       colon_free (id u) = true → colon_free (id v) = true → id v ≠ id u →
       (∀ h, h ∈ notes_handlers getUser rt →
          ∃ ops, accessed w ops (h c w).2
                 ∧ Forall (outside (note_prefix (id v))) ops
                 ∧ under (note_prefix (id v)) (store (h c w).2)
                   = under (note_prefix (id v)) (store w))
       ∧ (∀ (rt' : Runtime) (c' : Request) (b b' : json),
            authenticate getUser c' = Some v →
            req_json c = Some b → b ≠ JNull →
            truthy_v (prop b "title") = true →
            truthy_v (prop b "deadline") = true →
            req_json c' = Some b' → b' ≠ JNull →
            truthy_v (prop b' "title") = true →
            truthy_v (prop b' "deadline") = true →
            randomUUID rt ≠ "" → randomUUID rt' ≠ "" →
            under (note_prefix (id u)) (store w) = ∅ →
            under (note_prefix (id v)) (store w) = ∅ →
            ∃ note note' w1 w2 w3 w4,
              post_notes getUser rt c w = (Done (json_ok "note" note), w1)
              ∧ post_notes getUser rt' c' w1 = (Done (json_ok "note" note'), w2)
              ∧ get_notes getUser c w2 = (Done (json_ok "notes" (JArr [note])), w3)
              ∧ get_notes getUser c' w2
                = (Done (json_ok "notes" (JArr [note'])), w4))).
Proof.
  intros Hau. split; [intros h Hh; by apply (handler_accesses rt) |].
  intros v Hu Hv Hne. split.
  - intros h Hh. destruct (handler_accesses rt c w u h Hau Hh) as (ops & Hacc & Hin).
    assert (Forall (outside (note_prefix (id v))) ops) as Hout.
    { eapply Forall_impl; [exact Hin |]. intros op. by apply within_outside. }
    exists ops. split; [done |]. split; [done |].
    destruct Hacc as [_ ->]. by apply outside_frame.
  - intros rt' c' b b' Hau' Hb Hnull Ht Hd Hb' Hnull' Ht' Hd' Hid Hid' He He'.
    destruct (prop b "deadline") as [d|] eqn:Ed; [| done].
    destruct (prop b' "deadline") as [d'|] eqn:Ed'; [| done].
    eexists _, _, _, _, _, _.
    rewrite (post_notes_ok rt c w u b d) by done.
    rewrite (post_notes_ok rt' c' _ v b' d') by done.
    rewrite (get_notes_ok c _ u Hau), (get_notes_ok c' _ v Hau').
    split; [reflexivity |]. split; [reflexivity |]. simpl. split.
    + rewrite under_insert_outside
        by (apply (namespaces_disjoint (id v) (id u)); auto using note_key_prefix).
      rewrite scan_single by auto using note_key_prefix.
      by rewrite filter_cons_True by (by apply new_note_valid).
    + rewrite scan_single; [| by auto using note_key_prefix |].
      * by rewrite filter_cons_True by (by apply new_note_valid).
      * rewrite under_insert_outside; [done |].
        apply (namespaces_disjoint (id u) (id v)); auto using note_key_prefix.
Qed.

End Handlers.

(** *** The register form *)

Section Form.

Import Client.

Variable signInWithPassword : string → string → SignInResult.
Variable signUp : string → string → string → option thrown.

(** With a password of fewer than six code units the register flow ends in
    one of its three early returns. *)
Lemma register_flow_short (f : FormState) :
  (String.length (password f) < 6)%nat →
  ∃ msg, register_flow signInWithPassword signUp f = [SetError msg; SetLoading false].
Proof.
  intros Hlen. unfold register_flow.
  destruct (_ || _); [by eexists |].
  destruct (negb _); [by eexists |].
  apply Nat.ltb_lt in Hlen. rewrite Hlen. by eexists.
Qed.

End Form.

(** C9. On the server, a password change whose [newPassword] is a string
    of fewer than six characters (code units) is answered 400 "Password
    must be at least 6 characters" and nothing else happens; in the form,
    a submit in register mode with such a password sets an error message
    and stops, and none of the steps it takes is a request (neither the
    POST to [/signup] nor the sign-in at the auth provider). *)
Theorem short_password_rejected :
  (∀ getUser updateUserById to_number (c : Request) (w : World) (u : User)
     (b : json) (newPassword : string),
     authenticate getUser c = Some u → req_json c = Some b →
     prop b "newPassword" = Some (JStr newPassword) →
     (String.length newPassword < 6)%nat →
     post_profile_password getUser updateUserById to_number c w
     = (Done (json_error "Password must be at least 6 characters" 400), w))
  ∧ (∀ signInWithPassword signUp (f : Client.FormState),
       Client.isLogin f = false → (String.length (Client.password f) < 6)%nat →
       Forall (λ e, Client.is_request e = false)
         (Client.handleSubmit signInWithPassword signUp f)
       ∧ ∃ msg, Client.handleSubmit signInWithPassword signUp f
                = [Client.PreventDefault; Client.SetError ""; Client.SetLoading true;
                   Client.SetError msg; Client.SetLoading false]).
Proof.
  split.
  - intros. by eapply post_profile_password_short.
  - intros signIn signUp f Hreg Hlen.
    destruct (register_flow_short signIn signUp f Hlen) as [msg Hflow].
    unfold Client.handleSubmit. rewrite Hreg, Hflow. split; [| by eexists].
    by repeat constructor.
Qed.

End Props.

(** ** The concrete run, checked *)

Module Run.

Import Server Contract Props Scenario.

Lemma unauthenticated_before_storage_witness :
  authenticate getUser anonymous = None
  ∧ authenticate getUser no_token = None
  ∧ authenticate getUser stranger = None
  ∧ (∃ msg, put_notes getUser anonymous w1 = (Done (json_error msg 401), w1))
  ∧ (∃ msg, delete_notes getUser no_token w1 = (Done (json_error msg 401), w1))
  ∧ (∃ msg, get_profile getUser stranger w1 = (Done (json_error msg 401), w1)).
Proof.
  split; [reflexivity |]. split; [reflexivity |]. split; [reflexivity |].
  repeat split.
  - apply (unauthenticated_before_storage getUser updateUserById to_number rt_alice);
      [reflexivity | repeat constructor].
  - apply (unauthenticated_before_storage getUser updateUserById to_number rt_alice);
      [reflexivity | repeat constructor].
  - apply (unauthenticated_before_storage getUser updateUserById to_number rt_alice);
      [reflexivity | repeat constructor].
Defined.

Lemma update_note_contract_witness :
  authenticate getUser (as_alice "0b9d6c3e-1111" (Some only_text)) = Some alice
  ∧ store w1 !! note_key (id alice) "0b9d6c3e-1111" = Some (JObj alice_note)
  ∧ ∃ note w',
      put_notes getUser (as_alice "0b9d6c3e-1111" (Some only_text)) w1
      = (Done (json_ok "note" note), w')
      ∧ prop note "id" = Some (JStr "0b9d6c3e-1111")
      ∧ prop note "userId" = Some (JStr "6f1c2a9e-alice")
      ∧ prop note "createdAt" = Some (JStr "2024-12-01T10:00:00.000Z").
Proof.
  assert (store w1 !! note_key (id alice) "0b9d6c3e-1111" = Some (JObj alice_note))
    as Hk by (vm_compute; reflexivity).
  split; [reflexivity |]. split; [exact Hk |].
  destruct (update_note_contract getUser (as_alice "0b9d6c3e-1111" (Some only_text))
              w1 alice only_text eq_refl eq_refl) as [_ Hex]; [done |].
  destruct (Hex alice_note Hk) as [(note & w' & Hrun & _ & Hi & Hu & Hc & _) _].
  exists note, w'. by rewrite Hi, Hu, Hc.
Defined.

Lemma create_note_contract_witness :
  authenticate getUser (as_alice "" (Some rent)) = Some alice
  ∧ truthy_v (prop rent "title") = true
  ∧ truthy_v (prop rent "deadline") = true
  ∧ truthy_v (prop no_deadline "deadline") = false
  ∧ (∃ msg, post_notes getUser rt_alice (as_alice "" (Some no_deadline)) w0
            = (Done (json_error msg 400), w0))
  ∧ ∃ note w',
      post_notes getUser rt_alice (as_alice "" (Some rent)) w0
      = (Done (json_ok "note" note), w')
      ∧ store w' !! note_key (id alice) "0b9d6c3e-1111" = Some note
      ∧ prop note "id" = Some (JStr "0b9d6c3e-1111").
Proof.
  split; [reflexivity |]. split; [reflexivity |]. split; [reflexivity |].
  split; [reflexivity |]. split.
  - apply (create_note_contract getUser rt_alice (as_alice "" (Some no_deadline))
             w0 alice no_deadline eq_refl eq_refl); [done | by right].
  - destruct (create_note_contract getUser rt_alice (as_alice "" (Some rent))
                w0 alice rent eq_refl eq_refl) as [_ Hex]; [done |].
    destruct (Hex eq_refl eq_refl) as (note & w' & Hrun & _ & Hk & _ & Hi & _).
    by exists note, w'.
Defined.



Lemma delete_note_contract_witness :
  authenticate getUser (as_alice "0b9d6c3e-1111" None) = Some alice
  ∧ store w1 !! note_key (id alice) "0b9d6c3e-1111" = Some (JObj alice_note)
  ∧ ∃ w2 w3,
      delete_notes getUser (as_alice "0b9d6c3e-1111" None) w1
      = (Done (json_ok "message" (JStr "Note deleted successfully")), w2)
      ∧ delete_notes getUser (as_alice "0b9d6c3e-1111" None) w2
        = (Done (json_error "Note not found" 404), w3).
Proof.
  assert (store w1 !! note_key (id alice) "0b9d6c3e-1111" = Some (JObj alice_note))
    as Hk by (vm_compute; reflexivity).
  split; [reflexivity |]. split; [exact Hk |].
  destruct (delete_note_contract getUser (as_alice "0b9d6c3e-1111" None) w1 alice
              eq_refl) as [_ Hex].
  destruct (Hex alice_note Hk) as (w2 & w3 & Hfirst & _ & Hsecond & _).
  by exists w2, w3.
Defined.

Lemma update_nulls_missing_deadline_witness :
  authenticate getUser (as_alice "0b9d6c3e-1111" (Some only_text)) = Some alice
  ∧ store w1 !! note_key (id alice) "0b9d6c3e-1111" = Some (JObj alice_note)
  ∧ alice_note !! "deadline" = Some (JStr "2025-01-01T23:59:59.999Z")
  ∧ truthy_v (prop only_text "deadline") = false
  ∧ ∃ note w',
      put_notes getUser (as_alice "0b9d6c3e-1111" (Some only_text)) w1
      = (Done (json_ok "note" note), w')
      ∧ prop note "deadline" = Some JNull.
Proof.
  assert (store w1 !! note_key (id alice) "0b9d6c3e-1111" = Some (JObj alice_note))
    as Hk by (vm_compute; reflexivity).
  split; [reflexivity |]. split; [exact Hk |]. split; [reflexivity |].
  split; [reflexivity |].
  destruct (update_nulls_missing_deadline getUser
              (as_alice "0b9d6c3e-1111" (Some only_text)) w1 alice only_text
              alice_note eq_refl eq_refl)
    as (note & w' & Hrun & _ & Hd); [done | exact Hk | reflexivity |].
  by exists note, w'.
Defined.

Lemma list_notes_contract_witness :
  authenticate getUser (as_alice "" None) = Some alice
  ∧ ∃ entries w',
      get_notes getUser (as_alice "" None) w1
      = (Done (json_ok "notes" (JArr entries.*2)), w')
      ∧ (note_key (id alice) "0b9d6c3e-1111", JObj alice_note) ∈ entries.
Proof.
  split; [reflexivity |].
  destruct (list_notes_contract getUser (as_alice "" None) w1 alice eq_refl)
    as (entries & w' & Hrun & _ & _ & Hin).
  exists entries, w'. split; [exact Hrun |]. apply Hin.
  split; [vm_compute; reflexivity |]. split; [vm_compute; reflexivity |].
  exists alice_note. split; [reflexivity |]. split; vm_compute; reflexivity.
Defined.

Lemma update_without_title_hides_note_witness :
  authenticate getUser (as_alice "0b9d6c3e-1111" (Some only_text)) = Some alice
  ∧ store w1 !! note_key (id alice) "0b9d6c3e-1111" = Some (JObj alice_note)
  ∧ prop only_text "title" = None
  ∧ ∃ note w2 notes w3,
      put_notes getUser (as_alice "0b9d6c3e-1111" (Some only_text)) w1
      = (Done (json_ok "note" note), w2)
      ∧ get_notes getUser (as_alice "" None)
          (lists getUser [as_bob "" None; as_alice "" None] w2)
        = (Done (json_ok "notes" (JArr notes)), w3)
      ∧ (note ∉ notes)
      ∧ store w3 !! note_key (id alice) "0b9d6c3e-1111" = Some note.
Proof.
  assert (store w1 !! note_key (id alice) "0b9d6c3e-1111" = Some (JObj alice_note))
    as Hk by (vm_compute; reflexivity).
  split; [reflexivity |]. split; [exact Hk |]. split; [reflexivity |].
  destruct (update_without_title_hides_note getUser
              (as_alice "0b9d6c3e-1111" (Some only_text)) w1 alice only_text
              alice_note eq_refl eq_refl)
    as (note & w2 & Hrun & _ & _ & _ & Hhide); [done | exact Hk |].
  destruct (Hhide eq_refl [as_bob "" None; as_alice "" None] (as_alice "" None)
              alice eq_refl) as (notes & w3 & Hlist & Hout & Hstill).
  by exists note, w2, notes, w3.
Defined.

Lemma notes_namespace_isolation_witness :
  authenticate getUser (as_alice "" (Some rent)) = Some alice
  ∧ authenticate getUser (as_bob "" (Some milk)) = Some bob
  ∧ colon_free (id alice) = true ∧ colon_free (id bob) = true
  ∧ ∃ note note' wa wb w3 w4,
      post_notes getUser rt_alice (as_alice "" (Some rent)) w0
      = (Done (json_ok "note" note), wa)
      ∧ post_notes getUser rt_bob (as_bob "" (Some milk)) wa
        = (Done (json_ok "note" note'), wb)
      ∧ get_notes getUser (as_alice "" (Some rent)) wb
        = (Done (json_ok "notes" (JArr [note])), w3)
      ∧ get_notes getUser (as_bob "" (Some milk)) wb
        = (Done (json_ok "notes" (JArr [note'])), w4).
Proof.
  split; [reflexivity |]. split; [reflexivity |].
  split; [reflexivity |]. split; [reflexivity |].
  destruct (notes_namespace_isolation getUser rt_alice (as_alice "" (Some rent)) w0
              alice eq_refl) as [_ Hiso].
  destruct (Hiso bob eq_refl eq_refl) as [_ Htwo]; [done |].
  destruct (Htwo rt_bob (as_bob "" (Some milk)) rent milk eq_refl eq_refl)
    as (note & note' & wa & wb & w3 & w4 & Ha & Hb & Hla & Hlb);
    [done | reflexivity | reflexivity | reflexivity | done | reflexivity
    | reflexivity | done | done | vm_compute; reflexivity
    | vm_compute; reflexivity |].
  exists note, note', wa, wb, w3, w4. repeat split; assumption.
Defined.

Lemma short_password_rejected_witness :
  authenticate getUser (as_alice "" (Some short_password)) = Some alice
  ∧ post_profile_password getUser updateUserById to_number
      (as_alice "" (Some short_password)) w1
    = (Done (json_error "Password must be at least 6 characters" 400), w1)
  ∧ Client.isLogin short_form = false
  ∧ Forall (λ e, Client.is_request e = false)
      (Client.handleSubmit signInWithPassword signUp short_form).
Proof.
  destruct short_password_rejected as [Hserver Hform].
  split; [reflexivity |]. split.
  - apply (Hserver getUser updateUserById to_number _ w1 alice short_password "abc12");
      [reflexivity | reflexivity | reflexivity | simpl; lia].
  - split; [reflexivity |].
    apply (Hform signInWithPassword signUp short_form); [reflexivity | simpl; lia].
Defined.

End Run.

(** ** The server as a whole *)

Module Service.

Import Server Contract Keys Props Public Router.

Section Handlers.

#[local] Set Default Proof Using "Type".

Variable getUser : string → AuthResult.
Variable updateUserById : string → json → option string.
Variable to_number : json → option Z.
Variable createUser : json → json → json → AuthResult.

Ltac run :=
  unfold get_profile, post_profile_password, get_notes, post_notes, put_notes,
    delete_notes, post_signup, post_login, get_health, internal_error,
    destructure, try_catch, throw,
    KV.get, KV.set, KV.del, KV.getByPrefix, logged,
    mbind, M_bind, bind, mret, M_ret, ret; simpl.

Ltac authed Hau :=
  unfold authenticate in Hau; run;
  destruct (accessToken _) as [[|? ?]|]; try discriminate Hau;
  destruct (error (getUser _)); try discriminate Hau;
  destruct (user (getUser _)); try discriminate Hau;
  injection Hau as ->; simpl.

(** *** Sign-up, case by case *)

(** Sign-up either answers with an error and leaves the world as it was,
    or the body has the three fields, all truthy, the provider created the
    user, and the profile is written at the key of that user. *)
Lemma post_signup_cases (rt : Runtime) (c : Request) (w : World) :
  (∃ msg code, code ≠ 200%Z ∧ post_signup createUser rt c w = (Done (json_error msg code), w))
  ∨ (∃ b email password username u,
       req_json c = Some b
       ∧ prop b "email" = Some email ∧ prop b "password" = Some password
       ∧ prop b "username" = Some username
       ∧ truthy email = true ∧ truthy password = true ∧ truthy username = true
       ∧ createUser email password username = mkAuth (Some u) None
       ∧ post_signup createUser rt c w
         = (Done (signup_ok u username),
            mkWorld (<[profile_key (id u) := to_json (new_profile rt u username email)]>
                       (store w))
              (trace w ++ [Set_ (profile_key (id u))
                             (to_json (new_profile rt u username email))]))).
Proof.
  run. destruct (req_json c) as [b|] eqn:Hb; [| left; by eexists _, 500%Z].
  destruct b as [| ? | ? | ? | ? | fields]; simpl;
    [left; by eexists _, 500%Z | left; by eexists _, 400%Z ..|].
  destruct (fields !! "email") as [e|] eqn:He; [| left; by eexists _, 400%Z].
  destruct (fields !! "password") as [p|] eqn:Hp; [| left; by eexists _, 400%Z].
  destruct (fields !! "username") as [n|] eqn:Hn; [| left; by eexists _, 400%Z].
  destruct (truthy e) eqn:Te; [| left; by eexists _, 400%Z].
  destruct (truthy p) eqn:Tp; [| left; by eexists _, 400%Z].
  destruct (truthy n) eqn:Tn; [| left; by eexists _, 400%Z].
  simpl. destruct (createUser e p n) as [ou oe] eqn:Hc. simpl.
  destruct oe; [left; by eexists _, 400%Z |].
  destruct ou as [u|]; [| left; by eexists _, 500%Z].
  right. exists (JObj fields), e, p, n, u. simpl. by rewrite Hc.
Qed.

(** *** What each route does to the contents of the store *)

Lemma quiet_routes_store (e : endpoint) (rt : Runtime) (c : Request) (w : World) :
  e ∈ [Health; Login; Profile; Password; ListNotes] →
  store (dispatch getUser updateUserById to_number createUser e rt c w).2 = store w.
Proof.
  intros He.
  repeat (apply elem_of_cons in He as [-> | He]); [.. | by apply elem_of_nil in He];
    simpl; run; repeat case_match; simplify_eq; simpl; done.
Qed.

Lemma post_notes_store (rt : Runtime) (c : Request) (w : World) :
  store (post_notes getUser rt c w).2 = store w
  ∨ ∃ u title text tags deadline,
      authenticate getUser c = Some u
      ∧ store (post_notes getUser rt c w).2
        = <[note_key (id u) (randomUUID rt) :=
              to_json (new_note rt u title text tags deadline)]> (store w).
Proof.
  unfold authenticate. run.
  repeat case_match; simplify_eq; simpl; try (by left); right; by eexists _, _, _, _, _.
Qed.

Lemma put_notes_store (c : Request) (w : World) :
  store (put_notes getUser c w).2 = store w
  ∨ ∃ u e title text tags deadline,
      authenticate getUser c = Some u
      ∧ store w !! note_key (id u) (param_id c) = Some e
      ∧ store (put_notes getUser c w).2
        = <[note_key (id u) (param_id c) :=
              to_json (updatedNote e title text tags deadline)]> (store w).
Proof.
  unfold authenticate. run.
  repeat case_match; simplify_eq; simpl; try (by left); right;
    by eexists _, _, _, _, _, _.
Qed.

Lemma delete_notes_store (c : Request) (w : World) :
  store (delete_notes getUser c w).2 = store w
  ∨ ∃ u, authenticate getUser c = Some u
         ∧ store (delete_notes getUser c w).2
           = delete (note_key (id u) (param_id c)) (store w).
Proof.
  unfold authenticate. run.
  repeat case_match; simplify_eq; simpl; try (by left); right; by eexists.
Qed.

(** *** Keys *)

Lemma prefix_refl (s : string) : String.prefix s s = true.
Proof.
  induction s as [|a s IH]; [done |]. rewrite prefix_cons.
  destruct (ascii_dec a a); [done | congruence].
Qed.

(** The key of a note determines the user and the note, among colon-free
    user ids. *)
Lemma note_key_unique (u u' n n' : string) :
  colon_free u = true → colon_free u' = true →
  note_key u n = note_key u' n' → u = u' ∧ n = n'.
Proof.
  intros Hu Hu' Hk.
  assert (u = u') as <-.
  { destruct (decide (u = u')) as [|Hne]; [done |]. exfalso.
    pose proof (namespaces_disjoint u' u (note_key u' n') Hu' Hu Hne
                  (note_key_prefix u' n')) as Hout.
    rewrite <- Hk, note_key_prefix in Hout. done. }
  split; [done |]. by apply (note_key_inj u).
Qed.

(** The key of a profile is the key of no note. *)
Lemma profile_key_not_note (u0 u n : string) :
  colon_free u0 = true → colon_free u = true → profile_key u0 ≠ note_key u n.
Proof.
  intros Hu0 Hu Hk. unfold profile_key, note_key, note_prefix in Hk.
  rewrite !append_assoc in Hk. apply (inj (String.app "user:")) in Hk.
  change (u0 +:+ ":" +:+ "profile" = u +:+ ":" +:+ "note:" +:+ n) in Hk.
  assert (u0 = u) as ->.
  { apply (colon_free_prefix u u0 "profile" ("note:" +:+ n)); [done | done |].
    rewrite Hk. apply prefix_refl. }
  apply (inj (String.app u)) in Hk. done.
Qed.

Lemma authenticate_user (c : Request) (u : User) :
  authenticate getUser c = Some u → ∃ token, user (getUser token) = Some u.
Proof. intros (token & _ & _ & _ & Hu)%authenticate_Some. eauto. Qed.

(** *** Stored notes name their key *)

Lemma insert_other_keeps_names (m : gmap string json) (key : string) (v : json) :
  (∀ uid noteId, colon_free uid = true → key ≠ note_key uid noteId) →
  notes_name_their_key m → notes_name_their_key (<[key := v]> m).
Proof.
  intros Hkey Hm uid noteId x Hc Hx.
  rewrite lookup_insert_ne in Hx by (by apply Hkey). by apply Hm.
Qed.

Lemma insert_note_keeps_names (m : gmap string json) (u n : string)
    (o : gmap string json) :
  colon_free u = true →
  o !! "userId" = Some (JStr u) → o !! "id" = Some (JStr n) →
  notes_name_their_key m → notes_name_their_key (<[note_key u n := JObj o]> m).
Proof.
  intros Hu Ho1 Ho2 Hm uid noteId x Hc Hx.
  destruct (decide (note_key u n = note_key uid noteId)) as [Heq | Hne].
  - rewrite Heq, lookup_insert_eq in Hx. injection Hx as <-.
    apply note_key_unique in Heq as [<- <-]; [| done | done]. by exists o.
  - rewrite lookup_insert_ne in Hx by done. by apply Hm.
Qed.

Lemma delete_keeps_names (m : gmap string json) (key : string) :
  notes_name_their_key m → notes_name_their_key (delete key m).
Proof.
  intros Hm uid noteId x Hc Hx. apply lookup_delete_Some in Hx as [_ Hx].
  by apply Hm.
Qed.

(** One request keeps the invariant. *)
Lemma stored_notes_name_their_key (e : endpoint) (rt : Runtime) (c : Request)
    (w : World) :
  issues_colon_free_ids getUser createUser →
  notes_name_their_key (store w) →
  notes_name_their_key
    (store (dispatch getUser updateUserById to_number createUser e rt c w).2).
Proof.
  intros [Hget Hcreate] Hw.
  destruct e;
    try (rewrite quiet_routes_store; [done | by repeat constructor]).
  - (* signup *)
    unfold dispatch. destruct (post_signup_cases rt c w)
      as [(msg & code & _ & ->) | (b & em & pw & un & u & _ & _ & _ & _ & _ & _ & _ & Hc & ->)];
      [done |].
    simpl. apply insert_other_keeps_names; [| done].
    intros uid noteId Huid. apply profile_key_not_note; [| done].
    apply (Hcreate em pw un). by rewrite Hc.
  - (* create *)
    unfold dispatch. destruct (post_notes_store rt c w)
      as [-> | (u & t & x & g & d & Hau & ->)]; [done |].
    apply authenticate_user in Hau as [token Hu]. unfold to_json.
    apply insert_note_keeps_names; [by eapply Hget | | | done].
    + unfold new_note. rewrite lookup_omap.
      rewrite !lookup_insert_ne by done. by rewrite lookup_insert_eq.
    + unfold new_note. rewrite lookup_omap.
      rewrite !lookup_insert_ne by done. by rewrite lookup_insert_eq.
  - (* update *)
    unfold dispatch. destruct (put_notes_store c w)
      as [-> | (u & ex & t & x & g & d & Hau & Hk & ->)]; [done |].
    apply authenticate_user in Hau as [token Hu].
    assert (colon_free (id u) = true) as Hcf by (by eapply Hget).
    destruct (Hw _ _ _ Hcf Hk) as (o & -> & Ho1 & Ho2).
    pose proof (updatedNote_kept o t x g d) as Hkept.
    unfold to_json, prop in Hkept |- *.
    apply insert_note_keeps_names; [done | | | done].
    + rewrite Hkept; [done |].
      rewrite !not_elem_of_cons; repeat split; (done || apply not_elem_of_nil).
    + rewrite Hkept; [done |].
      rewrite !not_elem_of_cons; repeat split; (done || apply not_elem_of_nil).
  - (* delete *)
    unfold dispatch. destruct (delete_notes_store c w) as [-> | (u & _ & ->)]; [done |].
    by apply delete_keeps_names.
Qed.

(** Two equal answers carry the same value under their key. *)
Lemma done_ok_inj (key : string) (v v' : json) (w w' : World) :
  (Done (json_ok key v), w) = (Done (json_ok key v'), w') → v = v' ∧ w = w'.
Proof.
  intros H. split; [| exact (f_equal snd H)].
  pose proof (f_equal (λ p : outcome Response * World,
                match p.1 with
                | Done r => prop (body r) key
                | Thrown => None
                end) H) as Hv.
  unfold json_ok in Hv. cbn [fst body prop] in Hv.
  rewrite !lookup_singleton_eq in Hv. by injection Hv.
Qed.

(** X1. Whatever requests the server serves, on any of its nine routes and
    in any order, every note in the store keeps naming the key it is stored
    under: its [userId] and [id] are the user and the note id of the key
    (the provider issuing colon-free ids). *)
Theorem served_notes_name_their_key
    (calls : list (endpoint * Runtime * Request)) (w : World) :
  issues_colon_free_ids getUser createUser →
  notes_name_their_key (store w) →
  notes_name_their_key
    (store (serve getUser updateUserById to_number createUser calls w)).
Proof.
  intros Hids. revert w. induction calls as [|[[e rt] c] calls IH]; intros w Hw; [done |].
  unfold serve in *. simpl. apply IH. by apply stored_notes_name_their_key.
Qed.

(** X2. Every note that the list answers with can be addressed by the [id]
    it shows: it is the value stored at the key of that id under the user's
    prefix, so a delete request of the same user for that id answers 200
    and removes it. *)
Theorem listed_note_is_addressable (c c' : Request) (w w' : World) (u : User)
    (notes : list json) (n : json) :
  issues_colon_free_ids getUser createUser →
  notes_name_their_key (store w) →
  authenticate getUser c = Some u →
  get_notes getUser c w = (Done (json_ok "notes" (JArr notes)), w') →
  n ∈ notes →
  ∃ o noteId,
    n = JObj o ∧ o !! "id" = Some (JStr noteId)
    ∧ store w' !! note_key (id u) noteId = Some n
    ∧ (authenticate getUser c' = Some u → param_id c' = noteId →
       ∃ w'', delete_notes getUser c' w'
              = (Done (json_ok "message" (JStr "Note deleted successfully")), w'')
              ∧ store w'' !! note_key (id u) noteId = None).
Proof.
  intros [Hget _] Hw Hau Hlist Hn.
  rewrite (get_notes_ok getUser c w u Hau) in Hlist.
  apply done_ok_inj in Hlist as [[= <-] <-].
  apply list_elem_of_filter in Hn as [_ (k & Hk & Hp)%elem_of_scan].
  apply prefix_app_inv in Hp as [noteId ->].
  destruct (authenticate_user c u Hau) as [token Hu].
  destruct (Hw (id u) noteId n (Hget _ _ Hu) Hk) as (o & -> & _ & Ho).
  exists o, noteId. split; [done |]. split; [done |]. split; [done |].
  intros Hau' Hp. eexists.
  rewrite (delete_notes_ok getUser c' _ u (JObj o)); [| done | by rewrite Hp | done].
  split; [reflexivity |]. simpl. rewrite Hp. apply lookup_delete_eq.
Qed.

(** *** Sign-up and the profile *)

(** X3. Sign-up always answers, and it writes to the store only when it
    answers 200: on a missing or falsy field (400), a provider error (400),
    a missing user (500) or a body that cannot be read (500) the world is
    left as it was; on 200 the one thing written is the profile of the
    created user, at that user's profile key. *)
Theorem signup_writes_only_on_success (rt : Runtime) (c : Request) (w : World) :
  ∃ r w',
    post_signup createUser rt c w = (Done r, w')
    ∧ (status r ≠ 200%Z → w' = w)
    ∧ (status r = 200%Z →
       ∃ b u email password username,
         req_json c = Some b
         ∧ prop b "email" = Some email
         ∧ prop b "password" = Some password
         ∧ prop b "username" = Some username
         ∧ createUser email password username = mkAuth (Some u) None
         ∧ store w' = <[profile_key (id u) :=
                          to_json (new_profile rt u username email)]> (store w)
         ∧ prop (body r) "userId" = Some (JStr (id u))).
Proof.
  destruct (post_signup_cases rt c w)
    as [(msg & code & Hcode & ->)
       | (b & em & pw & un & u & Hb & He & Hp & Hn & _ & _ & _ & Hc & ->)].
  - eexists _, _. split; [reflexivity |]. split; [done |]. intros Hs. by destruct Hcode.
  - eexists _, _. split; [reflexivity |]. split; [done |]. intros _.
    exists b, u, em, pw, un. by repeat split.
Qed.

(** The profile handler, for a request that resolves to [u]. *)
Lemma get_profile_found c w u p :
  authenticate getUser c = Some u →
  store w !! profile_key (id u) = Some p → truthy p = true →
  get_profile getUser c w
  = (Done (json_ok "profile" p),
     mkWorld (store w) (trace w ++ [Get (profile_key (id u))])).
Proof. intros Hau Hk Hp. authed Hau. rewrite Hk. simpl. by rewrite Hp. Qed.

Lemma get_profile_missing c w u :
  authenticate getUser c = Some u →
  store w !! profile_key (id u) = None →
  get_profile getUser c w
  = (Done (json_error "Profile not found" 404),
     mkWorld (store w) (trace w ++ [Get (profile_key (id u))])).
Proof. intros Hau Hk. authed Hau. by rewrite Hk. Qed.

(** X4. After a successful sign-up, the profile request of the created
    user answers 200 with a profile that carries the user's id, the
    username and the email of the sign-up body, and the time of the
    sign-up. *)
Theorem signup_then_profile (rt : Runtime) (c c' : Request) (w : World) (u : User)
    (b email password username : json) :
  req_json c = Some b →
  prop b "email" = Some email → truthy email = true →
  prop b "password" = Some password → truthy password = true →
  prop b "username" = Some username → truthy username = true →
  createUser email password username = mkAuth (Some u) None →
  authenticate getUser c' = Some u →
  ∃ r w1 profile w2,
    post_signup createUser rt c w = (Done r, w1)
    ∧ status r = 200%Z
    ∧ get_profile getUser c' w1 = (Done (json_ok "profile" profile), w2)
    ∧ prop profile "userId" = Some (JStr (id u))
    ∧ prop profile "username" = Some username
    ∧ prop profile "email" = Some email
    ∧ prop profile "createdAt" = Some (JStr (now_ISO rt)).
Proof.
  intros Hb He Te Hp Tp Hn Tn Hc Hau.
  assert (post_signup createUser rt c w
          = (Done (signup_ok u username),
             mkWorld (<[profile_key (id u) :=
                          to_json (new_profile rt u username email)]> (store w))
               (trace w ++ [Set_ (profile_key (id u))
                              (to_json (new_profile rt u username email))]))) as ->.
  { run. rewrite Hb. destruct b; try done. simpl in *.
    rewrite He, Hp, Hn, Te, Tp, Tn. simpl. by rewrite Hc. }
  eexists _, _, _, _. split; [reflexivity |]. split; [done |].
  rewrite (get_profile_found c' _ u (to_json (new_profile rt u username email)));
    [| done | simpl; apply lookup_insert_eq | done].
  split; [reflexivity |]. rewrite !prop_to_json. unfold new_profile.
  repeat split; rewrite ?lookup_insert_ne by done; by rewrite lookup_insert_eq.
Qed.

(** *** Profiles and notes do not meet *)

Lemma profile_key_outside (u0 u : string) :
  colon_free u0 = true → colon_free u = true →
  String.prefix (note_prefix u) (profile_key u0) = false.
Proof.
  intros Hu0 Hu. destruct (String.prefix _ _) eqn:E; [| done].
  apply prefix_app_inv in E as [n E]. by apply profile_key_not_note in E.
Qed.

(** Accesses within a prefix leave every key outside it as it was. *)
Lemma within_frame (pre key : string) (ops : list kv_op) (m : gmap string json) :
  Forall (within pre) ops → String.prefix pre key = false →
  foldl apply_op m ops !! key = m !! key.
Proof.
  intros Hops Hk. revert m. induction Hops as [|op ops Hop _ IH]; intros m; [done |].
  simpl. rewrite IH. destruct op as [k | k v | k | p]; simpl; try done.
  - apply lookup_insert_ne. intros ->. by rewrite (Hop _ eq_refl) in Hk.
  - apply lookup_delete_ne. intros ->. by rewrite (Hop _ eq_refl) in Hk.
Qed.

(** X5. Profiles and notes do not meet (the ids being colon-free): no
    notes handler changes what is stored at any profile key, and sign-up
    changes nothing under any user's notes prefix. *)
Theorem profiles_and_notes_are_separate (rt : Runtime) (c c' : Request) (w : World)
    (uid : string) :
  issues_colon_free_ids getUser createUser → colon_free uid = true →
  (∀ h u, h ∈ notes_handlers getUser rt → authenticate getUser c = Some u →
     store (h c w).2 !! profile_key uid = store w !! profile_key uid)
  ∧ under (note_prefix uid) (store (post_signup createUser rt c w).2)
    = under (note_prefix uid) (store w).
Proof.
  intros [Hget Hcreate] Huid. split.
  - intros h u Hh Hau.
    destruct (handler_accesses getUser rt c w u h Hau Hh) as (ops & [_ ->] & Hin).
    apply (within_frame (note_prefix (id u))); [done |].
    destruct (authenticate_user c u Hau) as [token Hu].
    apply profile_key_outside; [done | by eapply Hget].
  - destruct (post_signup_cases rt c w)
      as [(msg & code & _ & ->)
         | (b & em & pw & un & u & _ & _ & _ & _ & _ & _ & _ & Hc & ->)]; [done |].
    simpl. apply under_insert_outside, profile_key_outside; [| done].
    apply (Hcreate em pw un). by rewrite Hc.
Qed.

(** *** How the notes operations compose *)

(** Updating an updated note is updating the note: the four fields are
    replaced, the others are kept. *)
Lemma updatedNote_twice (o : gmap string json) (t1 x1 g1 d1 t x g d : value) :
  to_json (updatedNote (to_json (updatedNote (JObj o) t1 x1 g1 d1)) t x g d)
  = to_json (updatedNote (JObj o) t x g d).
Proof.
  unfold to_json. f_equal. apply map_eq. intros k.
  rewrite !lookup_omap. unfold updatedNote, spread.
  rewrite !lookup_insert. repeat case_decide; try done.
  rewrite !lookup_fmap, lookup_omap, !lookup_insert_ne by done.
  rewrite lookup_fmap. by destruct (o !! k).
Qed.

(** What an update of an existing note stores and answers. *)
Lemma put_notes_object (c : Request) (w : World) (u : User) (b : json)
    (o : gmap string json) :
  authenticate getUser c = Some u → req_json c = Some b → b ≠ JNull →
  store w !! note_key (id u) (param_id c) = Some (JObj o) →
  let note := to_json (updatedNote (JObj o) (prop b "title") (prop b "text")
                         (prop b "tags") (prop b "deadline")) in
  store (put_notes getUser c w).2 = <[note_key (id u) (param_id c) := note]> (store w)
  ∧ (put_notes getUser c w).1 = Done (json_ok "note" note).
Proof.
  intros Hau Hb Hnull Hk. simpl.
  by rewrite (put_notes_ok getUser c w u b (JObj o)).
Qed.

(** X6. Of two updates of the same note by its owner the later one wins
    entirely: the store and the answer after both are those of the second
    update alone; in particular the same update made twice stores what it
    stores when made once. *)
Theorem update_last_wins (c1 c2 : Request) (w : World) (u : User) (b1 b2 : json)
    (o : gmap string json) :
  authenticate getUser c1 = Some u → authenticate getUser c2 = Some u →
  param_id c1 = param_id c2 →
  req_json c1 = Some b1 → b1 ≠ JNull → req_json c2 = Some b2 → b2 ≠ JNull →
  store w !! note_key (id u) (param_id c2) = Some (JObj o) →
  store (put_notes getUser c2 (put_notes getUser c1 w).2).2
  = store (put_notes getUser c2 w).2
  ∧ (put_notes getUser c2 (put_notes getUser c1 w).2).1 = (put_notes getUser c2 w).1
  ∧ store (put_notes getUser c2 (put_notes getUser c2 w).2).2
    = store (put_notes getUser c2 w).2.
Proof.
  intros Hau1 Hau2 Hid Hb1 Hn1 Hb2 Hn2 Hk.
  assert (∀ c b, authenticate getUser c = Some u → param_id c = param_id c2 →
            req_json c = Some b → b ≠ JNull →
            store (put_notes getUser c2 (put_notes getUser c w).2).2
            = store (put_notes getUser c2 w).2
            ∧ (put_notes getUser c2 (put_notes getUser c w).2).1
              = (put_notes getUser c2 w).1) as Hlast.
  { intros c b Hau Hp Hb Hn.
    destruct (put_notes_object c w u b o) as [S1 _]; [done | done | done | by rewrite Hp |].
    destruct (put_notes_object c2 w u b2 o) as [S2 R2]; [done ..|].
    destruct (put_notes_object c2 (put_notes getUser c w).2 u b2
                (omap (λ v : value, v)
                   (updatedNote (JObj o) (prop b "title") (prop b "text")
                      (prop b "tags") (prop b "deadline")))) as [S3 R3];
      [done | done | done | rewrite S1, Hp; apply lookup_insert_eq |].
    rewrite S3, R3, S2, R2, S1, Hp.
    change (JObj (omap (λ v : value, v) ?x)) with (to_json x).
    by rewrite updatedNote_twice, insert_insert_eq. }
  destruct (Hlast c1 b1) as [? ?]; [done ..|].
  destruct (Hlast c2 b2) as [? _]; done.
Qed.

(** X7. Creating a note under an unused id and then deleting it by that id
    gives back the contents of the store from before the creation. *)
Theorem create_then_delete_restores (rt : Runtime) (c c' : Request) (w : World)
    (u : User) (b : json) :
  authenticate getUser c = Some u → authenticate getUser c' = Some u →
  req_json c = Some b → b ≠ JNull →
  truthy_v (prop b "title") = true → truthy_v (prop b "deadline") = true →
  param_id c' = randomUUID rt →
  store w !! note_key (id u) (randomUUID rt) = None →
  ∃ note w1 w2,
    post_notes getUser rt c w = (Done (json_ok "note" note), w1)
    ∧ delete_notes getUser c' w1
      = (Done (json_ok "message" (JStr "Note deleted successfully")), w2)
    ∧ store w2 = store w.
Proof.
  intros Hau Hau' Hb Hnull Ht Hd Hp Hk.
  destruct (prop b "deadline") as [d|] eqn:Ed; [| done].
  eexists _, _, _. rewrite (post_notes_ok getUser rt c w u b d) by done.
  split; [reflexivity |].
  rewrite (delete_notes_ok getUser c' _ u
             (to_json (new_note rt u (prop b "title") (prop b "text")
                         (prop b "tags") d)));
    [| done | rewrite Hp; simpl; apply lookup_insert_eq | done].
  split; [reflexivity |]. simpl. rewrite Hp, delete_insert_eq. by apply delete_id.
Qed.

(** A scan sees a deleted entry no more, and the others as before. *)
Lemma scan_delete (pre key : string) (v : json) (m : gmap string json) :
  String.prefix pre key = true → m !! key = Some v →
  (map_to_list (under pre m)).*2
  ≡ₚ v :: (map_to_list (under pre (delete key m))).*2.
Proof.
  intros Hp Hk. unfold under. rewrite map_filter_delete.
  rewrite <- (map_to_list_delete (filter _ m) key v); [done |].
  by apply map_lookup_filter_Some.
Qed.

(** X8. Deleting a note that the list shows takes exactly that note out
    of the list: the list before the delete is the list after it plus the
    deleted note (up to order). *)
Theorem delete_then_list (c c' : Request) (w : World) (u : User) (n : json) :
  authenticate getUser c = Some u → authenticate getUser c' = Some u →
  store w !! note_key (id u) (param_id c) = Some n →
  valid_note n = true →
  ∃ before w0 w1 after w2,
    get_notes getUser c' w = (Done (json_ok "notes" (JArr before)), w0)
    ∧ delete_notes getUser c w
      = (Done (json_ok "message" (JStr "Note deleted successfully")), w1)
    ∧ get_notes getUser c' w1 = (Done (json_ok "notes" (JArr after)), w2)
    ∧ before ≡ₚ n :: after.
Proof.
  intros Hau Hau' Hk Hv.
  assert (truthy n = true) as Ht.
  { unfold valid_note in Hv. by destruct (truthy n). }
  eexists _, _, _, _, _. rewrite (get_notes_ok getUser c' w u Hau').
  rewrite (delete_notes_ok getUser c w u n) by done.
  rewrite (get_notes_ok getUser c' _ u Hau').
  split; [reflexivity |]. split; [reflexivity |]. split; [reflexivity |].
  simpl. rewrite (scan_delete _ _ n (store w) (note_key_prefix _ _) Hk).
  by rewrite filter_cons_True.
Qed.

(** The password handler for a string of six or more characters. *)
Lemma post_profile_password_long (c : Request) (w : World) (u : User) (b : json)
    (newPassword : string) :
  authenticate getUser c = Some u → req_json c = Some b →
  prop b "newPassword" = Some (JStr newPassword) →
  (6 <= String.length newPassword)%nat →
  post_profile_password getUser updateUserById to_number c w
  = (Done (match updateUserById (id u) (JObj {["password" := JStr newPassword]}) with
           | Some message => json_error message 400
           | None => json_ok "message" (JStr "Password updated successfully")
           end), w).
Proof.
  intros Hau Hb Hp Hlen. authed Hau. rewrite Hb.
  destruct b; try done. simpl in *. rewrite Hp. simpl.
  assert (String.eqb newPassword "" = false) as ->.
  { apply String.eqb_neq. intros ->. simpl in Hlen. lia. }
  assert ((Z.of_nat (String.length newPassword) <? 6)%Z = false) as ->
    by (apply Z.ltb_ge; lia).
  simpl. by destruct (updateUserById _ _).
Qed.

(** X9. A new password of six or more characters passes the check of the
    password handler: the answer is the provider's, 200 when it reports no
    error and 400 with its message otherwise, and the world is left as it
    was in both cases. *)
Theorem password_change_outcome (c : Request) (w : World) (u : User) (b : json)
    (newPassword : string) :
  authenticate getUser c = Some u → req_json c = Some b →
  prop b "newPassword" = Some (JStr newPassword) →
  (6 <= String.length newPassword)%nat →
  post_profile_password getUser updateUserById to_number c w
  = (Done (match updateUserById (id u) (JObj {["password" := JStr newPassword]}) with
           | Some message => json_error message 400
           | None => json_ok "message" (JStr "Password updated successfully")
           end), w).
Proof. apply post_profile_password_long. Qed.

End Handlers.

End Service.

(** ** The longer session, checked *)

Module ServiceRun.

Import Server Contract Props Public Router Scenario Session Service.

Lemma provider_issues_colon_free_ids : issues_colon_free_ids getUser createUser.
Proof.
  split.
  - intros token u. unfold getUser.
    destruct (String.eqb token "token-alice"); [by intros [= <-] |].
    destruct (String.eqb token "token-bob"); [by intros [= <-] | done].
  - intros email password username u. unfold createUser. by intros [= <-].
Qed.

Lemma empty_store_names_keys : notes_name_their_key (store w0).
Proof. intros uid noteId v _ Hv. simpl in Hv. by rewrite lookup_empty in Hv. Qed.

Lemma w1_names_keys : notes_name_their_key (store w1).
Proof.
  apply (stored_notes_name_their_key getUser updateUserById to_number createUser
           CreateNote rt_alice (as_alice "" (Some rent)) w0).
  - apply provider_issues_colon_free_ids.
  - apply empty_store_names_keys.
Qed.

Lemma served_notes_name_their_key_witness :
  issues_colon_free_ids getUser createUser
  ∧ notes_name_their_key (store w0)
  ∧ notes_name_their_key
      (store (serve getUser updateUserById to_number createUser calls w0)).
Proof.
  split; [apply provider_issues_colon_free_ids |].
  split; [apply empty_store_names_keys |].
  apply served_notes_name_their_key.
  - apply provider_issues_colon_free_ids.
  - apply empty_store_names_keys.
Defined.

Lemma listed_note_is_addressable_witness :
  authenticate getUser (as_alice "" None) = Some alice
  ∧ ∃ noteId,
      alice_note !! "id" = Some (JStr noteId)
      ∧ store w1 !! note_key (id alice) noteId = Some (JObj alice_note).
Proof.
  split; [reflexivity |].
  pose proof (get_notes_ok getUser (as_alice "" None) w1 alice eq_refl) as Hlist.
  destruct (listed_note_is_addressable getUser createUser (as_alice "" None)
              (as_alice "0b9d6c3e-1111" None) w1 _ alice _ (JObj alice_note)
              provider_issues_colon_free_ids w1_names_keys eq_refl Hlist)
    as (o & noteId & Ho & Hid & Hk & _).
  - apply list_elem_of_filter. split; [vm_compute; reflexivity |].
    apply elem_of_scan. exists (note_key (id alice) "0b9d6c3e-1111").
    split; vm_compute; reflexivity.
  - injection Ho as <-. exists noteId. split; [exact Hid | exact Hk].
Defined.

Lemma signup_then_profile_witness :
  authenticate getUser (as_alice "" None) = Some alice
  ∧ createUser (JStr "alice@example.org") (JStr "correct horse") (JStr "alice")
    = mkAuth (Some alice) None
  ∧ ∃ r w1 profile w2,
      post_signup createUser rt_alice (mkRequest None "" (Some signup_body)) w0
      = (Done r, w1)
      ∧ get_profile getUser (as_alice "" None) w1
        = (Done (json_ok "profile" profile), w2)
      ∧ prop profile "username" = Some (JStr "alice")
      ∧ prop profile "email" = Some (JStr "alice@example.org").
Proof.
  split; [reflexivity |]. split; [reflexivity |].
  destruct (signup_then_profile getUser createUser rt_alice
              (mkRequest None "" (Some signup_body)) (as_alice "" None) w0 alice
              signup_body (JStr "alice@example.org") (JStr "correct horse")
              (JStr "alice") eq_refl eq_refl eq_refl eq_refl eq_refl eq_refl eq_refl
              eq_refl eq_refl)
    as (r & w1 & profile & w2 & Hs & _ & Hp & _ & Hn & He & _).
  exists r, w1, profile, w2. repeat split; assumption.
Defined.

Lemma profiles_and_notes_are_separate_witness :
  issues_colon_free_ids getUser createUser
  ∧ colon_free (id bob) = true
  ∧ store (put_notes getUser (as_alice "0b9d6c3e-1111" (Some only_text)) w1).2
      !! profile_key (id bob)
    = store w1 !! profile_key (id bob)
  ∧ under (note_prefix (id bob))
      (store (post_signup createUser rt_alice
                (mkRequest None "" (Some signup_body)) w1).2)
    = under (note_prefix (id bob)) (store w1).
Proof.
  split; [apply provider_issues_colon_free_ids |]. split; [reflexivity |].
  destruct (profiles_and_notes_are_separate getUser createUser rt_alice
              (as_alice "0b9d6c3e-1111" (Some only_text))
              (mkRequest None "" (Some signup_body)) w1 (id bob)
              provider_issues_colon_free_ids eq_refl) as [Hnotes _].
  destruct (profiles_and_notes_are_separate getUser createUser rt_alice
              (mkRequest None "" (Some signup_body))
              (mkRequest None "" (Some signup_body)) w1 (id bob)
              provider_issues_colon_free_ids eq_refl) as [_ Hsignup].
  split; [| exact Hsignup].
  apply (Hnotes (put_notes getUser) alice); [| reflexivity].
  unfold notes_handlers. do 2 apply list_elem_of_further. apply list_elem_of_here.
Defined.

Lemma update_last_wins_witness :
  authenticate getUser (as_alice "0b9d6c3e-1111" (Some only_text)) = Some alice
  ∧ store w1 !! note_key (id alice) "0b9d6c3e-1111" = Some (JObj alice_note)
  ∧ store (put_notes getUser (as_alice "0b9d6c3e-1111" (Some retitled))
             (put_notes getUser (as_alice "0b9d6c3e-1111" (Some only_text)) w1).2).2
    = store (put_notes getUser (as_alice "0b9d6c3e-1111" (Some retitled)) w1).2.
Proof.
  assert (store w1 !! note_key (id alice) "0b9d6c3e-1111" = Some (JObj alice_note))
    as Hk by (vm_compute; reflexivity).
  split; [reflexivity |]. split; [exact Hk |].
  destruct (update_last_wins getUser (as_alice "0b9d6c3e-1111" (Some only_text))
              (as_alice "0b9d6c3e-1111" (Some retitled)) w1 alice only_text retitled
              alice_note eq_refl eq_refl eq_refl eq_refl) as [Hstore _];
    [discriminate | reflexivity | discriminate | exact Hk | exact Hstore].
Defined.

Lemma create_then_delete_restores_witness :
  authenticate getUser (as_bob "" (Some milk)) = Some bob
  ∧ store w1 !! note_key (id bob) (randomUUID rt_bob) = None
  ∧ ∃ note w2 w3,
      post_notes getUser rt_bob (as_bob "" (Some milk)) w1
      = (Done (json_ok "note" note), w2)
      ∧ delete_notes getUser (as_bob "5a2e8f70-2222" None) w2
        = (Done (json_ok "message" (JStr "Note deleted successfully")), w3)
      ∧ store w3 = store w1.
Proof.
  assert (store w1 !! note_key (id bob) (randomUUID rt_bob) = None) as Hk
    by (vm_compute; reflexivity).
  split; [reflexivity |]. split; [exact Hk |].
  apply (create_then_delete_restores getUser rt_bob (as_bob "" (Some milk))
           (as_bob "5a2e8f70-2222" None) w1 bob milk);
    [reflexivity | reflexivity | reflexivity | discriminate | reflexivity
    | reflexivity | reflexivity | exact Hk].
Defined.

Lemma delete_then_list_witness :
  authenticate getUser (as_alice "0b9d6c3e-1111" None) = Some alice
  ∧ store w1 !! note_key (id alice) "0b9d6c3e-1111" = Some (JObj alice_note)
  ∧ valid_note (JObj alice_note) = true
  ∧ ∃ before w' w2 after w3,
      get_notes getUser (as_alice "" None) w1
      = (Done (json_ok "notes" (JArr before)), w')
      ∧ get_notes getUser (as_alice "" None) w2
        = (Done (json_ok "notes" (JArr after)), w3)
      ∧ before ≡ₚ JObj alice_note :: after.
Proof.
  assert (store w1 !! note_key (id alice) "0b9d6c3e-1111" = Some (JObj alice_note))
    as Hk by (vm_compute; reflexivity).
  assert (valid_note (JObj alice_note) = true) as Hv by (vm_compute; reflexivity).
  split; [reflexivity |]. split; [exact Hk |]. split; [exact Hv |].
  destruct (delete_then_list getUser (as_alice "0b9d6c3e-1111" None)
              (as_alice "" None) w1 alice (JObj alice_note) eq_refl eq_refl Hk Hv)
    as (before & w' & w2 & after & w3 & Hb & _ & Ha & Hperm).
  exists before, w', w2, after, w3. split; [exact Hb |]. split; [exact Ha | exact Hperm].
Defined.

Lemma password_change_outcome_witness :
  authenticate getUser (as_alice "" (Some long_password)) = Some alice
  ∧ post_profile_password getUser updateUserById to_number
      (as_alice "" (Some long_password)) w1
    = (Done (json_ok "message" (JStr "Password updated successfully")), w1).
Proof.
  split; [reflexivity |].
  apply (password_change_outcome getUser updateUserById to_number
           (as_alice "" (Some long_password)) w1 alice long_password "abc123");
    [reflexivity | reflexivity | reflexivity | simpl; lia].
Defined.

End ServiceRun.

(** ** The client *)

(** Lemmas that the components share. *)

Module Basics.

Import Client.

Lemma is_empty_false (s : string) : is_empty s = false ↔ s ≠ "".
Proof. unfold is_empty. apply String.eqb_neq. Qed.

Lemma filter_all {A} (P : A → Prop) `{∀ x, Decision (P x)} (l : list A) :
  (∀ x, x ∈ l → P x) → filter P l = l.
Proof.
  induction l as [|a l IH]; intros Hl; [done |].
  rewrite filter_cons_True by (apply Hl, list_elem_of_here).
  f_equal. apply IH. intros x Hx. by apply Hl, list_elem_of_further.
Qed.

(** [H] says that an event is in a list that does not hold it. *)
Ltac not_there H :=
  repeat (apply elem_of_cons in H as [? | H]; [simplify_eq; try done |]);
  try (by apply elem_of_nil in H).

End Basics.

(** *** The calls to the server *)

Module ApiProps.

Import Server Client Contract Keys Props Public Router Service Api Calls.

Section Api.

#[local] Set Default Proof Using "Type".

Variable publicAnonKey : string.
Variable to_string : json → string.
Variable null_message : string.
Variable getUser : string → AuthResult.
Variable updateUserById : string → json → option string.
Variable to_number : json → option Z.
Variable createUser : json → json → json → AuthResult.

Ltac run :=
  unfold get_profile, post_profile_password, get_notes, post_notes, put_notes,
    delete_notes, post_signup, post_login, get_health, internal_error,
    destructure, try_catch, throw,
    KV.get, KV.set, KV.del, KV.getByPrefix, logged,
    mbind, M_bind, bind, mret, M_ret, ret; simpl.

Lemma split_on_space_free (t : string) :
  space_free t = true → split_on " " t = [t].
Proof.
  induction t as [|a t IH]; [done |]. simpl.
  intros [Ha Ht]%andb_prop. apply negb_true_iff in Ha. rewrite Ha, IH; done.
Qed.

Lemma split_on_bearer (t : string) :
  split_on " " ("Bearer " +:+ t) = "Bearer" :: split_on " " t.
Proof.
  change ("Bearer " +:+ t)
    with (String "B" (String "e" (String "a" (String "r" (String "e"
           (String "r" (String " " t))))))).
  simpl. by destruct (split_on " " t).
Qed.

Lemma header_safe_space_free (t : string) :
  header_safe t = true → space_free t = true.
Proof.
  induction t as [|a t IH]; [done |]. simpl.
  intros [[Hlo _]%andb_prop Ht]%andb_prop. rewrite IH by done.
  rewrite andb_true_r. apply negb_true_iff, Ascii.eqb_neq. intros ->. done.
Qed.

(** X10. The token that the client passes to [fetchAPI] is the token that
    the server reads back from the [Authorization] header, when it is a
    header-safe token (visible ASCII characters only, as a JWT is); so the
    request of a client call resolves to the user that the provider knows
    under that token, and an empty token reaches the server as no token at
    all. *)
Theorem bearer_round_trip (t noteId : string) (body : option json) :
  header_safe t = true →
  accessToken (request publicAnonKey true (Some t) noteId body)
  = (if String.eqb t "" then None else Some t)
  ∧ authenticate getUser (request publicAnonKey true (Some t) noteId body)
    = (if String.eqb t "" then None
       else match error (getUser t), user (getUser t) with
            | None, Some u => Some u
            | _, _ => None
            end).
Proof.
  intros Ht%header_safe_space_free.
  assert (accessToken (request publicAnonKey true (Some t) noteId body)
          = (if String.eqb t "" then None else Some t)) as Hacc.
  { unfold accessToken, request, authorization. simpl.
    destruct (String.eqb t "") eqn:E; [done |].
    cbn [andb negb default header_Authorization mbind option_bind].
    by rewrite split_on_bearer, split_on_space_free. }
  split; [exact Hacc |]. unfold authenticate. rewrite Hacc.
  destruct (String.eqb_spec t "") as [-> | Hne]; [done |].
  by destruct t.
Qed.

(** Every route answers, with 200 or with an error object and one of four
    other codes. *)
Lemma dispatch_answers (e : endpoint) (rt : Runtime) (c : Request) (w : World) :
  ∃ r w',
    dispatch getUser updateUserById to_number createUser e rt c w = (Done r, w')
    ∧ (status r = 200%Z
       ∨ ∃ msg code, r = json_error msg code ∧ code ∈ [400; 401; 404; 500]%Z).
Proof.
  destruct e; simpl; run; repeat case_match; simplify_eq;
    eexists _, _; (split; [reflexivity |]);
    first [ by left
          | right; eexists _, _; split; [reflexivity |];
            rewrite !elem_of_cons; auto 6 ].
Qed.

(** X11. Each of the seven calls of the client, when its request reaches
    the server as it is sent (a header-safe key or token, a path-safe note
    id for update and delete), is answered by the handler of its route,
    and the call hands the body of a 200 answer to its caller and throws an
    [Error] otherwise; the answers that are not 200 are 400, 401, 404 or
    500 with an error message, and the message thrown is that message, or
    [API request failed] when it is empty. *)
Theorem server_answers_reach_the_caller (rt : Runtime) (k : call) (w : World) :
  safe publicAnonKey k = true →
  ∃ r w',
    dispatch getUser updateUserById to_number createUser (route k) rt
      (sent publicAnonKey k) w = (Done r, w')
    ∧ perform publicAnonKey to_string null_message getUser updateUserById to_number
        createUser rt k w
      = (Done (receive to_string null_message r), w')
    ∧ (status r = 200%Z → receive to_string null_message r = inr (Server.body r))
    ∧ (status r ≠ 200%Z →
       ∃ msg, r = json_error msg (status r)
              ∧ status r ∈ [400; 401; 404; 500]%Z
              ∧ receive to_string null_message r
                = inl (IsError (if String.eqb msg "" then "API request failed"
                                else msg))).
Proof.
  intros _.
  destruct (dispatch_answers (route k) rt (sent publicAnonKey k) w)
    as (r & w' & Hr & Hcases).
  exists r, w'. split; [exact Hr |]. split.
  { destruct k; simpl in Hr |- *;
      unfold signUp, getProfile, updatePassword, getNotes, createNote, updateNote,
        deleteNote, fetchAPI, mbind, M_bind, bind, mret, M_ret, ret;
      by rewrite Hr. }
  split.
  - intros Hs. unfold receive, ok. by rewrite Hs.
  - intros Hs. destruct Hcases as [? | (msg & code & -> & Hcode)]; [done |].
    exists msg. split; [done |]. split; [done |].
    unfold receive, ok, json_error. simpl.
    assert ((200 <=? code)%Z && (code <=? 299)%Z = false) as ->.
    { rewrite !elem_of_cons in Hcode.
      destruct Hcode as [-> | [-> | [-> | [-> | []%elem_of_nil]]]]; reflexivity. }
    by rewrite lookup_singleton_eq.
Qed.

End Api.

End ApiProps.

(** *** The note editor *)

Module EditorProps.

Import Server Client Contract Props Public Api Editor Basics.

Lemma lower_char_idem (a : ascii) : lower_char (lower_char a) = lower_char a.
Proof. by destruct a as [[] [] [] [] [] [] [] []]. Qed.

Lemma toLowerCase_idem (s : string) : toLowerCase (toLowerCase s) = toLowerCase s.
Proof. induction s as [|a s IH]; [done |]. simpl. by rewrite lower_char_idem, IH. Qed.

Lemma toLowerCase_empty (s : string) : toLowerCase s = "" → s = "".
Proof. by destruct s. Qed.

(** X12. The tags of the editor stay tidy: when no tag is there twice, none
    is empty and all are in lower case, the same holds after any key
    pressed in the tag field and after the removal of any tag. *)
Theorem tags_stay_tidy (key tag : string) (st : EditorState) :
  tidy (tags st) →
  tidy (tags (handleAddTag key st).1) ∧ tidy (tags (removeTag tag st)).
Proof.
  intros [Hnd Hall]. split.
  - unfold handleAddTag. destruct (_ && _) eqn:E; [| done]. simpl.
    case_bool_decide as Hin; [done |].
    apply andb_prop in E as [_ Hne%negb_true_iff]. split.
    + apply NoDup_app. split; [done |]. split; [| apply NoDup_singleton].
      intros x Hx ->%list_elem_of_singleton. done.
    + apply Forall_app. split; [done |]. apply Forall_singleton. split.
      * intros H%toLowerCase_empty. unfold is_empty in Hne.
        by rewrite H in Hne.
      * apply toLowerCase_idem.
  - simpl. split; [by apply NoDup_filter |].
    apply Forall_forall. intros x [_ Hx]%list_elem_of_filter.
    by apply (proj1 (Forall_forall _ _) Hall).
Qed.

(** X13. Adding a tag is idempotent: typing the same text into the tag
    field and pressing Enter a second time leaves the tags and the emptied
    field as they were after the first time, whatever the text and its
    case. *)
Theorem add_tag_is_idempotent (value : string) (st : EditorState) :
  let st1 := (handleAddTag "Enter" (setTagInput value st)).1 in
  let st2 := (handleAddTag "Enter" (setTagInput value st1)).1 in
  tags st2 = tags st1 ∧ tagInput st2 = tagInput st1.
Proof.
  unfold handleAddTag, setTagInput. simpl.
  destruct (negb (is_empty (trim value))) eqn:E; simpl; rewrite ?E; simpl; [| done].
  split; [| done].
  case_bool_decide as Hin; [done |]. exfalso. apply Hin.
  case_bool_decide; [done |]. apply elem_of_app. right. apply list_elem_of_here.
Qed.

(** X14. Enter on a tag field that holds more than white space appends the
    trimmed, lower-cased text as the last tag when it is not among the
    tags yet, and removing that tag gives back the tags as they were;
    after [removeTag] the removed tag is never among the tags. *)
Theorem add_then_remove_tag (st : EditorState) :
  let newTag := toLowerCase (trim (tagInput st)) in
  is_empty (trim (tagInput st)) = false → newTag ∉ tags st →
  tags (handleAddTag "Enter" st).1 = tags st ++ [newTag]
  ∧ tags (removeTag newTag (handleAddTag "Enter" st).1) = tags st
  ∧ ∀ tag st', tag ∉ tags (removeTag tag st').
Proof.
  intros newTag Hne Hin. unfold handleAddTag. rewrite Hne. simpl.
  rewrite bool_decide_false by done. split; [done |]. split.
  - rewrite filter_app, filter_cons_False, filter_nil, app_nil_r by (by intros H).
    apply filter_all. intros x Hx ->. done.
  - intros tag st' [H _]%list_elem_of_filter. done.
Qed.

Section Saving.

#[local] Set Default Proof Using "Type".

Variable note : option NoteType.
Variable accessToken : string.
Variable endOfDay : string → option string.
Variable updateNote : string → string → NoteData → option thrown.
Variable createNote : string → NoteData → option thrown.

(** The calls that [handleSubmit] can make, with what they carry. *)
Lemma handleSubmit_call (st : EditorState) (e : event) :
  e ∈ handleSubmit note accessToken endOfDay updateNote createNote st →
  is_call e = true →
  ∃ iso,
    endOfDay (deadline st) = Some iso ∧ trim (title st) ≠ "" ∧ deadline st ≠ ""
    ∧ let data := mkNoteData (trim (title st)) (trim (text st)) (tags st) iso in
      match note with
      | Some n => e = UpdateNote accessToken (note_id n) data
      | None => e = CreateNote accessToken data
      end.
Proof.
  unfold handleSubmit, failed. intros He Hc.
  destruct (is_empty (trim (title st))) eqn:Et.
  { repeat (apply elem_of_cons in He as [-> | He]; [done |]). by apply elem_of_nil in He. }
  destruct (is_empty (deadline st)) eqn:Ed.
  { repeat (apply elem_of_cons in He as [-> | He]; [done |]). by apply elem_of_nil in He. }
  apply is_empty_false in Et, Ed.
  destruct (endOfDay (deadline st)) as [iso|].
  2: { repeat (apply elem_of_cons in He as [-> | He]; [done |]). by apply elem_of_nil in He. }
  exists iso. split; [done |]. split; [done |]. split; [done |]. simpl.
  destruct note as [n|].
  - destruct (updateNote _ _ _) as [[]|];
      repeat (apply elem_of_cons in He as [-> | He]; [done |]);
      by apply elem_of_nil in He.
  - destruct (createNote _ _) as [[]|];
      repeat (apply elem_of_cons in He as [-> | He]; [done |]);
      by apply elem_of_nil in He.
Qed.


End Saving.

Section Agreement.

#[local] Set Default Proof Using "Type".

Variable publicAnonKey : string.
Variable to_string : json → string.
Variable null_message : string.
Variable getUser : string → AuthResult.
Variable endOfDay : string → option string.
Variable updateNote : string → string → NoteData → option thrown.
Variable createNote : string → NoteData → option thrown.

Lemma note_json_props (d : NoteData) :
  prop (note_json d) "title" = Some (JStr (nd_title d))
  ∧ prop (note_json d) "text" = Some (JStr (nd_text d))
  ∧ prop (note_json d) "tags" = Some (JArr (JStr <$> nd_tags d))
  ∧ prop (note_json d) "deadline" = Some (JStr (nd_deadline d)).
Proof.
  unfold note_json, prop.
  repeat split; rewrite ?lookup_insert_ne by done; by rewrite lookup_insert_eq.
Qed.

Lemma or_else_string (s : string) : or_else (Some (JStr s)) (JStr "") = JStr s.
Proof. simpl. by destruct (String.eqb_spec s "") as [-> |]. Qed.

(** X16. What the editor sends for a new note, the server accepts: when
    the end of a day is never the empty string and the token resolves to
    a user, the create call that [handleSubmit] makes is answered with the
    stored note, which the store then holds under the user's key for the
    fresh id, with the trimmed title and text and the tags of the editor;
    the editor's own checks rule out the 400 answer of the handler. *)
Theorem editor_create_is_accepted (rt : Runtime) (accessToken : string)
    (st : EditorState) (data : NoteData) (u : User) (w : World) :
  (∀ d iso, endOfDay d = Some iso → iso ≠ "") →
  CreateNote accessToken data
    ∈ handleSubmit None accessToken endOfDay updateNote createNote st →
  authenticate getUser
    (request publicAnonKey true (Some accessToken) "" (Some (note_json data)))
  = Some u →
  ∃ stored w',
    Api.createNote publicAnonKey to_string null_message getUser rt accessToken data w
    = (Done (inr (JObj {["note" := stored]})), w')
    ∧ store w' !! note_key (id u) (randomUUID rt) = Some stored
    ∧ prop stored "title" = Some (JStr (trim (title st)))
    ∧ prop stored "text" = Some (JStr (trim (text st)))
    ∧ prop stored "tags" = Some (JArr (JStr <$> tags st)).
Proof.
  intros Hiso Hin Hau.
  destruct (handleSubmit_call None accessToken endOfDay updateNote createNote st _ Hin
              eq_refl) as (iso & Hd & Ht & _ & Hdata).
  simpl in Hdata. injection Hdata as Hdata.
  pose proof (Hiso _ _ Hd) as Hne.
  destruct (note_json_props data) as (Pt & Px & Pg & Pd).
  assert (nd_title data = trim (title st)) as Et by (by rewrite Hdata).
  assert (nd_text data = trim (text st)) as Ex by (by rewrite Hdata).
  assert (nd_tags data = tags st) as Eg by (by rewrite Hdata).
  assert (nd_deadline data = iso) as Ed by (by rewrite Hdata).
  clear Hdata.
  unfold Api.createNote, fetchAPI, mbind, M_bind, bind, mret, M_ret, ret.
  rewrite (post_notes_ok getUser rt _ w u (note_json data) (JStr iso) Hau);
    [| done | done | | by rewrite Pd, Ed |].
  - eexists _, _. split; [reflexivity |]. split; [simpl; apply lookup_insert_eq |].
    rewrite !prop_to_json. unfold new_note. rewrite Pt, Px, Pg, Et, Ex, Eg.
    repeat split; rewrite ?lookup_insert_ne by done; rewrite lookup_insert_eq;
      cbn [mjoin option_join]; by rewrite ?or_else_string.
  - rewrite Pt, Et. simpl. by apply negb_true_iff, String.eqb_neq.
  - simpl. by apply negb_true_iff, String.eqb_neq.
Qed.

End Agreement.

End EditorProps.

(** *** The account settings *)

Module SettingsProps.

Import Server Client Contract Props Public Api Settings Service Basics.

Section Form.

#[local] Set Default Proof Using "Type".

Variable accessToken : string.
Variable updatePassword : string → string → option thrown.
Variable refreshSession : thrown + RefreshResult.

(** The one request of [handleChangePassword] and what it carries. *)
Lemma handleChangePassword_call (newPassword confirmPassword tok pw : string) :
  UpdatePassword tok pw
    ∈ handleChangePassword accessToken updatePassword refreshSession
        newPassword confirmPassword →
  tok = accessToken ∧ pw = newPassword ∧ newPassword = confirmPassword
  ∧ (6 ≤ String.length pw)%nat ∧ trim pw ≠ "".
Proof.
  unfold handleChangePassword, failed. intros H.
  destruct (is_empty (trim newPassword)) eqn:En; simpl in H; [by not_there H |].
  destruct (is_empty (trim confirmPassword)) eqn:Ec; simpl in H; [by not_there H |].
  destruct (String.eqb_spec newPassword confirmPassword) as [Heq | Hne];
    simpl in H; [| by not_there H].
  destruct (Nat.ltb_spec (String.length newPassword) 6) as [Hlt | Hge];
    [by not_there H |].
  apply String.eqb_neq in En.
  do 4 (apply elem_of_cons in H as [? | H]; [done |]).
  apply elem_of_cons in H as [H | H]; [by simplify_eq |].
  exfalso. destruct (updatePassword _ _) as [[]|]; [not_there H | not_there H |].
  destruct refreshSession as [[] | r]; [not_there H | not_there H |].
  destruct (refreshError r); [not_there H |].
  destruct (truthy_s _); not_there H.
Qed.

(** X17. Changing the password in the settings: a request is sent only
    for a password that is not blank, equals its confirmation and has six
    or more characters, and it carries the token of the component and that
    password; a success message is shown only after the request was sent
    and did not throw; and on every path the last thing the handler does
    is to switch the loading state off. *)
Theorem settings_checks_before_sending (newPassword confirmPassword : string) :
  let events := handleChangePassword accessToken updatePassword refreshSession
                  newPassword confirmPassword in
  (∀ tok pw, UpdatePassword tok pw ∈ events →
     tok = accessToken ∧ pw = newPassword ∧ newPassword = confirmPassword
     ∧ (6 ≤ String.length pw)%nat ∧ trim pw ≠ "")
  ∧ (∀ e, e ∈ events → is_success e = true →
     UpdatePassword accessToken newPassword ∈ events
     ∧ updatePassword accessToken newPassword = None)
  ∧ last events = Some (SetLoading false).
Proof.
  split; [intros tok pw; apply handleChangePassword_call |].
  unfold handleChangePassword, failed.
  destruct (is_empty (trim newPassword) || is_empty (trim confirmPassword)).
  { split; [| done]. intros e H. by not_there H. }
  destruct (negb (String.eqb newPassword confirmPassword)).
  { split; [| done]. intros e H. by not_there H. }
  destruct (String.length newPassword <? 6)%nat.
  { split; [| done]. intros e H. by not_there H. }
  split.
  - intros e H Hs. split; [do 4 apply list_elem_of_further; apply list_elem_of_here |].
    destruct (updatePassword _ _) as [[]|]; [by not_there H | by not_there H | done].
  - rewrite !last_cons. by rewrite last_snoc.
Qed.

End Form.

Section Agreement.

#[local] Set Default Proof Using "Type".

Variable publicAnonKey : string.
Variable to_string : json → string.
Variable null_message : string.
Variable getUser : string → AuthResult.
Variable updateUserById : string → json → option string.
Variable to_number : json → option Z.
Variable updatePassword : string → string → option thrown.
Variable refreshSession : thrown + RefreshResult.

(** X18. A password that the settings send passes the length check of the
    server: when the token resolves to a user, the call is answered by the
    provider alone, with the success message when the provider reports no
    error and with an [Error] of the provider's message otherwise, and the
    store is left as it was. *)
Theorem settings_password_passes_the_server_check
    (accessToken newPassword confirmPassword tok pw : string) (u : User) (w : World) :
  UpdatePassword tok pw
    ∈ handleChangePassword accessToken updatePassword refreshSession
        newPassword confirmPassword →
  authenticate getUser
    (request publicAnonKey true (Some tok) "" (Some (JObj {["newPassword" := JStr pw]})))
  = Some u →
  Api.updatePassword publicAnonKey to_string null_message getUser updateUserById
    to_number tok pw w
  = (Done (match updateUserById (id u) (JObj {["password" := JStr pw]}) with
           | None => inr (JObj {["message" := JStr "Password updated successfully"]})
           | Some message =>
               inl (IsError (if String.eqb message "" then "API request failed"
                             else message))
           end), w).
Proof.
  intros Hin Hau.
  destruct (handleChangePassword_call _ _ _ _ _ _ _ Hin) as (_ & _ & _ & Hlen & _).
  unfold Api.updatePassword, fetchAPI, mbind, M_bind, bind, mret, M_ret, ret.
  rewrite (post_profile_password_long getUser updateUserById to_number _ w u
             (JObj {["newPassword" := JStr pw]}) pw Hau eq_refl
             (lookup_singleton_eq _ _) Hlen).
  destruct (updateUserById _ _) as [message|]; [| done].
  unfold receive, ok, json_error. simpl. by rewrite lookup_singleton_eq.
Qed.

End Agreement.

End SettingsProps.

(** *** The lists of the main page *)

Module MainPageProps.

Import Server Client Contract Props Public Api Editor MainPage Service Basics.

Section Sort.

Context {A : Type}.
Variable cmp : A → A → option Z.

Lemma insert_perm (x : A) (l : list A) : insert cmp x l ≡ₚ x :: l.
Proof.
  induction l as [|y r IH]; [done |]. simpl.
  destruct (before cmp x y); [done |]. rewrite IH. apply Permutation_swap.
Qed.

Lemma sort_perm (l : list A) : sort cmp l ≡ₚ l.
Proof.
  induction l as [|x r IH]; [done |]. simpl.
  rewrite insert_perm. by rewrite IH.
Qed.

Lemma sort_elem_of (x : A) (l : list A) : x ∈ sort cmp l ↔ x ∈ l.
Proof. by rewrite sort_perm. Qed.

Variable key : A → Z.

Lemma keyed_cons (x : A) (l : list A) : keyed cmp key (x :: l) → keyed cmp key l.
Proof. intros H a b Ha Hb. apply H; by apply list_elem_of_further. Qed.

Lemma insert_sorted (x : A) (l : list A) :
  keyed cmp key (x :: l) →
  StronglySorted (λ a b, (key a ≤ key b)%Z) l →
  StronglySorted (λ a b, (key a ≤ key b)%Z) (insert cmp x l).
Proof.
  intros Hk Hs. induction Hs as [|y r Hs IH Hy]; simpl.
  { by repeat constructor. }
  unfold before. rewrite (Hk x y) by (rewrite !elem_of_cons; auto).
  destruct (Z.leb_spec (key x - key y) 0) as [Hle | Hgt].
  - constructor; [by constructor |].
    constructor; [lia |]. eapply Forall_impl; [exact Hy |]. simpl. lia.
  - constructor.
    + apply IH. intros a b Ha Hb. apply Hk.
      * apply elem_of_cons in Ha as [-> | Ha]; rewrite !elem_of_cons; auto.
      * apply elem_of_cons in Hb as [-> | Hb]; rewrite !elem_of_cons; auto.
    + apply Forall_forall. intros z Hz. rewrite insert_perm in Hz.
      apply elem_of_cons in Hz as [-> | Hz]; [lia |].
      by apply (proj1 (Forall_forall _ _) Hy).
Qed.

Lemma sort_sorted (l : list A) :
  keyed cmp key l → StronglySorted (λ a b, (key a ≤ key b)%Z) (sort cmp l).
Proof.
  induction l as [|x r IH]; intros Hk; simpl; [constructor |].
  apply insert_sorted.
  - intros a b Ha Hb. apply Hk.
    + apply elem_of_cons in Ha as [-> | Ha]; [apply list_elem_of_here |].
      apply list_elem_of_further. by apply sort_elem_of.
    + apply elem_of_cons in Hb as [-> | Hb]; [apply list_elem_of_here |].
      apply list_elem_of_further. by apply sort_elem_of.
  - apply IH. by eapply keyed_cons.
Qed.

Lemma sorted_lookup (R : relation A) (l : list A) (i j : nat) (a b : A) :
  StronglySorted R l → (i < j)%nat → l !! i = Some a → l !! j = Some b → R a b.
Proof.
  intros Hs. revert i j. induction Hs as [|x l Hs IH Hx]; intros i j Hij Ha Hb.
  { by rewrite lookup_nil in Ha. }
  destruct j as [|j]; [lia |]. simpl in Hb. destruct i as [|i]; simpl in Ha.
  - simplify_eq. apply (proj1 (Forall_forall _ _) Hx).
    by eapply list_elem_of_lookup_2.
  - apply (IH i j); [lia | done..].
Qed.

Lemma sort_head_least (l : list A) (h : A) :
  keyed cmp key l → head (sort cmp l) = Some h → ∀ m, m ∈ l → (key h ≤ key m)%Z.
Proof.
  intros Hk Hh m Hm. pose proof (sort_sorted l Hk) as Hs.
  apply sort_elem_of in Hm.
  destruct (sort cmp l) as [|y s]; [done |]. simpl in Hh. simplify_eq.
  apply StronglySorted_inv in Hs as [_ Hall].
  apply elem_of_cons in Hm as [-> | Hm]; [lia |].
  by apply (proj1 (Forall_forall _ _) Hall).
Qed.

End Sort.

Section Lists.

#[local] Set Default Proof Using "Type".

Variable getTime : string → option Z.
Variable now : nat → Z.
Variable localeCompare : string → string → Z.

Lemma is_future_time (clock : Z) (note : NoteType) :
  is_future getTime clock note = true →
  getTime (note_deadline note) = Some (deadline_time getTime note)
  ∧ (clock ≤ deadline_time getTime note)%Z.
Proof.
  unfold is_future, deadline_time. intros [_ H]%andb_prop.
  destruct (getTime _); [| done]. split; [done |]. by apply Z.leb_le.
Qed.

Lemma future_from_spec (i : nat) (notes : list NoteType) (note : NoteType) :
  note ∈ future_from getTime now i notes
  ↔ ∃ j, notes !! j = Some note ∧ is_future getTime (now (i + j)) note = true.
Proof.
  revert i. induction notes as [|n rest IH]; intros i; simpl.
  { split; [by intros ?%elem_of_nil | by intros (j & ? & _)]. }
  split.
  - destruct (is_future getTime (now i) n) eqn:E.
    + intros [-> | H]%elem_of_cons.
      * exists 0%nat. by rewrite Nat.add_0_r.
      * apply IH in H as (j & Hj & Hf). exists (S j).
        by rewrite Nat.add_succ_r.
    + intros H. apply IH in H as (j & Hj & Hf). exists (S j).
      by rewrite Nat.add_succ_r.
  - intros ([|j] & Hj & Hf); simpl in Hj.
    + simplify_eq. rewrite Nat.add_0_r in Hf. rewrite Hf. apply list_elem_of_here.
    + rewrite Nat.add_succ_r in Hf.
      assert (note ∈ future_from getTime now (S i) rest) as H by (apply IH; eauto).
      destruct (is_future getTime (now i) n); [by apply list_elem_of_further | done].
Qed.

Lemma future_keyed (notes : list NoteType) :
  keyed (by_time getTime) (deadline_time getTime) (future_from getTime now 0 notes).
Proof.
  intros a b [i [_ Ha]]%future_from_spec [j [_ Hb]]%future_from_spec.
  apply is_future_time in Ha as [Ha _], Hb as [Hb _].
  unfold by_time. by rewrite Ha, Hb.
Qed.

Lemma upcomingNote_eq (notes : list NoteType) :
  upcomingNote getTime now notes
  = head (sort (by_time getTime) (future_from getTime now 0 notes)).
Proof.
  unfold upcomingNote. destruct notes as [|n rest]; [done |].
  by destruct (future_from getTime now 0 (n :: rest)).
Qed.

(** X19. The upcoming note of the main page, when there is one, is a note
    of the list whose deadline is a date not before the time at which the
    clock was read for it, and no note of the list that passes the same
    test has an earlier deadline; there is none exactly when no note of
    the list passes the test. *)
Theorem upcoming_is_the_earliest_future_note (notes : list NoteType) :
  match upcomingNote getTime now notes with
  | Some upcoming =>
      ∃ i t,
        notes !! i = Some upcoming
        ∧ getTime (note_deadline upcoming) = Some t ∧ (now i ≤ t)%Z
        ∧ ∀ j note,
            notes !! j = Some note → is_future getTime (now j) note = true →
            ∃ t', getTime (note_deadline note) = Some t' ∧ (t ≤ t')%Z
  | None =>
      ∀ j note, notes !! j = Some note → is_future getTime (now j) note = false
  end.
Proof.
  rewrite upcomingNote_eq.
  destruct (head _) as [up|] eqn:Hh.
  - assert (up ∈ future_from getTime now 0 notes) as Hin.
    { apply (sort_elem_of (by_time getTime)). by apply head_Some_elem_of. }
    apply future_from_spec in Hin as (i & Hi & Hf). simpl in Hf.
    apply is_future_time in Hf as [Ht Hle].
    exists i, (deadline_time getTime up). do 3 (split; [done |]).
    intros j note Hj Hfj.
    assert (note ∈ future_from getTime now 0 notes) as Hn
      by (apply future_from_spec; eauto).
    apply is_future_time in Hfj as [Htj _].
    exists (deadline_time getTime note). split; [done |].
    by apply (sort_head_least (by_time getTime) (deadline_time getTime) _ up
                (future_keyed notes) Hh).
  - intros j note Hj. destruct (is_future getTime (now j) note) eqn:E; [| done].
    assert (note ∈ future_from getTime now 0 notes) as Hn
      by (apply future_from_spec; eauto).
    apply (sort_elem_of (by_time getTime)) in Hn.
    destruct (sort _ _); [by apply elem_of_nil in Hn | done].
Qed.

Lemma upcomingNote_elem_of (notes : list NoteType) (upcoming : NoteType) :
  upcomingNote getTime now notes = Some upcoming → upcoming ∈ notes.
Proof.
  rewrite upcomingNote_eq. intros Hh%head_Some_elem_of.
  apply sort_elem_of, future_from_spec in Hh as (i & Hi & _).
  by eapply list_elem_of_lookup_2.
Qed.

Lemma includes_empty (s : string) : includes s "" = true.
Proof. by destruct s. Qed.

Lemma matches_empty (note : NoteType) :
  matches "" note = negb (is_empty (note_title note)).
Proof.
  unfold matches. destruct (is_empty _); [done |]. simpl.
  by rewrite includes_empty.
Qed.

Lemma filter_others {A B} (f : A → B) `{EqDecision B} (l : list A) (x : A) :
  NoDup (f <$> l) → x ∈ l → x :: filter (λ y, f y ≠ f x) l ≡ₚ l.
Proof.
  induction l as [|a l IH]; intros Hnd Hx; [by apply elem_of_nil in Hx |].
  rewrite fmap_cons in Hnd. apply NoDup_cons in Hnd as [Ha Hnd].
  apply elem_of_cons in Hx as [-> | Hx].
  - rewrite filter_cons_False by (by intros H; apply H).
    f_equal. rewrite filter_all; [done |].
    intros y Hy Heq. apply Ha. rewrite <- Heq. by apply list_elem_of_fmap_2.
  - rewrite filter_cons_True.
    + rewrite Permutation_swap. by rewrite IH.
    + intros Heq. apply Ha. rewrite Heq. by apply list_elem_of_fmap_2.
Qed.

(** The main list is the sorted rest of the notes that match. *)
Lemma filteredAndSortedNotes_eq (notes : list NoteType) (searchQuery : string)
    (sortBy : order) :
  filteredAndSortedNotes getTime now localeCompare notes searchQuery sortBy
  = sort (compare getTime localeCompare sortBy)
      (match upcomingNote getTime now notes with
       | Some upcoming =>
           filter (λ note, note_id note ≠ note_id upcoming)
             (filter (λ note, matches searchQuery note = true) notes)
       | None => filter (λ note, matches searchQuery note = true) notes
       end).
Proof. unfold filteredAndSortedNotes. by destruct notes. Qed.

Lemma shown_elem_of (notes : list NoteType) (searchQuery : string) (sortBy : order)
    (note : NoteType) :
  note ∈ filteredAndSortedNotes getTime now localeCompare notes searchQuery sortBy →
  note ∈ notes ∧ matches searchQuery note = true
  ∧ ∀ upcoming, upcomingNote getTime now notes = Some upcoming →
                note_id note ≠ note_id upcoming.
Proof.
  rewrite filteredAndSortedNotes_eq. intros Hin%sort_elem_of.
  destruct (upcomingNote getTime now notes) as [up|].
  - apply list_elem_of_filter in Hin as [Hid [Hm Hn]%list_elem_of_filter].
    do 2 (split; [done |]). by intros ? [= <-].
  - apply list_elem_of_filter in Hin as [Hm Hn]. by do 2 (split; [done |]).
Qed.

(** X20. The main list holds only notes of the list that match the search
    and do not have the id of the upcoming note, whatever the sort order.
    And with an empty search box, notes with distinct ids and titles that
    are not empty, the page shows every note exactly once: the upcoming
    note and the main list together are a rearrangement of the notes. *)
Theorem page_shows_every_note_once (notes : list NoteType) (searchQuery : string)
    (sortBy : order) :
  let shown := filteredAndSortedNotes getTime now localeCompare notes searchQuery sortBy in
  (∀ note, note ∈ shown →
     note ∈ notes ∧ matches searchQuery note = true
     ∧ ∀ upcoming, upcomingNote getTime now notes = Some upcoming →
                   note_id note ≠ note_id upcoming)
  ∧ (searchQuery = "" → NoDup (note_id <$> notes) →
     Forall (λ note, note_title note ≠ "") notes →
     option_list (upcomingNote getTime now notes) ++ shown ≡ₚ notes).
Proof.
  split; [intros note; apply shown_elem_of |].
  intros -> Hnd Hall. rewrite filteredAndSortedNotes_eq, sort_perm.
  assert (filter (λ note, matches "" note = true) notes = notes) as ->.
  { apply filter_all. intros x Hx. rewrite matches_empty.
    apply negb_true_iff, String.eqb_neq.
    by apply (proj1 (Forall_forall _ _) Hall). }
  destruct (upcomingNote getTime now notes) as [up|] eqn:Hup; [| done].
  simpl. apply filter_others; [done |]. by eapply upcomingNote_elem_of.
Qed.

(** X21. Sorted by time, the main list is in the order of the deadlines,
    earliest first, when the deadline of every note is a date. *)
Theorem time_order_is_ascending (notes : list NoteType) (searchQuery : string) :
  Forall (λ note, is_Some (getTime (note_deadline note))) notes →
  ∀ i j a b,
    (i ≤ j)%nat →
    filteredAndSortedNotes getTime now localeCompare notes searchQuery ByTime !! i = Some a →
    filteredAndSortedNotes getTime now localeCompare notes searchQuery ByTime !! j = Some b →
    ∃ ta tb, getTime (note_deadline a) = Some ta ∧ getTime (note_deadline b) = Some tb
             ∧ (ta ≤ tb)%Z.
Proof.
  intros Hall i j a b Hij Ha Hb.
  assert (∀ n, n ∈ notes → getTime (note_deadline n) = Some (deadline_time getTime n))
    as Hv.
  { intros n Hn. apply (proj1 (Forall_forall _ _) Hall) in Hn as [t Ht].
    unfold deadline_time. by rewrite Ht. }
  assert (∀ n, n ∈ filteredAndSortedNotes getTime now localeCompare notes searchQuery
                     ByTime → n ∈ notes) as Hsub.
  { intros n Hn. by apply shown_elem_of in Hn as [? _]. }
  exists (deadline_time getTime a), (deadline_time getTime b).
  split; [by eapply Hv, Hsub, list_elem_of_lookup_2 |].
  split; [by eapply Hv, Hsub, list_elem_of_lookup_2 |].
  assert (StronglySorted (λ a b, (deadline_time getTime a ≤ deadline_time getTime b)%Z)
            (filteredAndSortedNotes getTime now localeCompare notes searchQuery ByTime))
    as Hs.
  { rewrite filteredAndSortedNotes_eq. apply sort_sorted. intros x y Hx Hy.
    rewrite <- (sort_elem_of (compare getTime localeCompare ByTime)) in Hx, Hy.
    rewrite <- filteredAndSortedNotes_eq in Hx, Hy.
    simpl. unfold by_time. by rewrite (Hv x (Hsub x Hx)), (Hv y (Hsub y Hy)). }
  destruct (decide (i = j)) as [-> | Hne]; [simplify_eq; lia |].
  apply (sorted_lookup _ _ i j a b Hs); [lia | done..].
Qed.

End Lists.

End MainPageProps.

(** *** Fetching the notes *)

Module FetchProps.

Import Server Client Contract Keys Props Public Api Editor MainPage Service.

Section Fetch.

#[local] Set Default Proof Using "Type".

Variable publicAnonKey : string.
Variable to_string : json → string.
Variable null_message : string.
Variable getUser : string → AuthResult.

Lemma validNotes_listed (listed : list json) :
  Forall (λ note, Server.valid_note note = true) listed →
  validNotes (JObj {["notes" := JArr listed]})
  = Some (filter (λ note, truthy_v (prop note "deadline") = true) listed).
Proof.
  intros Hall. unfold validNotes, prop. rewrite lookup_singleton_eq. f_equal.
  induction Hall as [|n l Hn Hl IH]; [done |].
  rewrite !filter_cons, IH. unfold valid_note. unfold Server.valid_note in Hn.
  rewrite Hn. simpl. by repeat case_decide.
Qed.

Lemma listed_valid (l : list json) :
  Forall (λ note, Server.valid_note note = true)
    (filter (λ note, Server.valid_note note = true) l).
Proof. apply Forall_forall. by intros x [? _]%list_elem_of_filter. Qed.

(** X22. When the token resolves to a user and [getNotes] resolves to what
    the server answers, [fetchNotes] sets as the notes of the page, and
    reports to its parent, exactly the listed notes whose deadline is
    truthy, in the order of the answer; it clears the error and ends with
    the loading state off. *)
Theorem app_shows_listed_notes_with_deadline (getNotes : string → thrown + json)
    (accessToken : string) (u : User) (w : World) :
  authenticate getUser (request publicAnonKey true (Some accessToken) "" None) = Some u →
  (Api.getNotes publicAnonKey to_string null_message getUser accessToken w).1
  = Done (getNotes accessToken) →
  ∃ listed,
    get_notes getUser (request publicAnonKey true (Some accessToken) "" None) w
    = (Done (json_ok "notes" (JArr listed)),
       mkWorld (store w) (trace w ++ [GetByPrefix (note_prefix (id u))]))
    ∧ getNotes accessToken = inr (JObj {["notes" := JArr listed]})
    ∧ let shown := filter (λ note, truthy_v (prop note "deadline") = true) listed in
      fetchNotes getNotes accessToken
      = [SetLoading true; GetNotes accessToken; SetNotes shown; OnNotesUpdate shown;
         SetError ""; SetLoading false].
Proof.
  intros Hau. unfold Api.getNotes, fetchAPI, mbind, M_bind, bind, mret, M_ret, ret.
  rewrite (get_notes_ok getUser _ w u Hau). simpl. intros [= Hg].
  eexists. split; [reflexivity |]. split; [by rewrite <- Hg |].
  unfold fetchNotes. rewrite <- Hg.
  change (receive to_string null_message (json_ok "notes" ?l))
    with (@inr thrown json (JObj {["notes" := l]})).
  cbv beta iota. by rewrite validNotes_listed by apply listed_valid.
Qed.

(** X23. An update that carries a title but no deadline, or a falsy one,
    makes the note disappear from the page while the server still lists
    it: the list answered to the same user afterwards holds the updated
    note, and the filter of [fetchNotes] on that answer drops it. *)
Theorem update_without_deadline_hides_note_in_app (c c' : Request) (w : World)
    (u : User) (b : json) (o : gmap string json) :
  authenticate getUser c = Some u → req_json c = Some b → b ≠ JNull →
  let key := note_key (id u) (param_id c) in
  store w !! key = Some (JObj o) →
  truthy_v (o !! "id") = true → truthy_v (prop b "title") = true →
  truthy_v (prop b "deadline") = false →
  authenticate getUser c' = Some u →
  ∃ note w1 listed w2 shown,
    put_notes getUser c w = (Done (json_ok "note" note), w1)
    ∧ get_notes getUser c' w1 = (Done (json_ok "notes" (JArr listed)), w2)
    ∧ note ∈ listed
    ∧ validNotes (body (json_ok "notes" (JArr listed))) = Some shown
    ∧ note ∉ shown.
Proof.
  intros Hau Hb Hnull key Hk Hid Ht Hd Hau'.
  eexists _, _, _, _, _.
  rewrite (put_notes_ok getUser c w u b (JObj o)) by done.
  split; [reflexivity |].
  rewrite (get_notes_ok getUser c' _ u Hau').
  split; [reflexivity |]. split.
  - apply list_elem_of_filter. split.
    + apply valid_note_spec. eexists. split; [reflexivity |].
      change (omap (λ v : value, v) ?x !! ?k) with (prop (to_json x) k).
      rewrite updatedNote_title.
      rewrite (updatedNote_kept o _ _ _ _ "id").
      * split; [done |]. by destruct (prop b "title").
      * rewrite !elem_of_cons. intros [? | [? | [? | [? | ?%elem_of_nil]]]]; done.
    + apply elem_of_scan. exists key. split; [apply lookup_insert_eq |].
      apply note_key_prefix.
  - simpl. split; [apply validNotes_listed, listed_valid |].
    intros [H _]%list_elem_of_filter.
    rewrite updatedNote_deadline, or_else_falsy in H by done. done.
Qed.

End Fetch.

End FetchProps.

(** *** The label of a deadline *)

Module NoteViewProps.

Import Editor NoteView.

Section Note.

#[local] Set Default Proof Using "Type".

Variable getTime : string → option Z.

Lemma ceil_div_day (diff : Z) :
  ((ceil_div diff day - 1) * day < diff ≤ ceil_div diff day * day)%Z.
Proof.
  unfold ceil_div, day. pose proof (Z.div_mod (- diff) 86400000 ltac:(lia)).
  pose proof (Z.mod_pos_bound (- diff) 86400000 ltac:(lia)).
  change (1000 * 60 * 60 * 24)%Z with 86400000%Z. lia.
Qed.

(** X24. The label of a deadline that is a date, and that is at most
    [2 ^ 53] milliseconds away from now (within which the source's
    arithmetic on doubles is exact), depends on its distance from now as
    follows: [Today] when it passed less than a day ago or is
    now; [Tomorrow] when it lies ahead by up to a day, so also when it is
    later on the same day; [In n days] with [n] the number of days rounded
    up when it lies ahead by more than a day; and [n days ago] with [n]
    the number of full days when it passed a day ago or more. *)
Theorem date_label_by_distance (now date : Z) (dateString : string) :
  getTime dateString = Some date →
  (Z.abs (date - now) ≤ 2 ^ 53)%Z →
  let diff := (date - now)%Z in
  ((- day < diff ≤ 0)%Z → formatDate getTime now dateString = "Today")
  ∧ ((0 < diff ≤ day)%Z → formatDate getTime now dateString = "Tomorrow")
  ∧ ((day < diff)%Z →
     ∃ n, (2 ≤ n)%Z ∧ ((n - 1) * day < diff ≤ n * day)%Z
          ∧ formatDate getTime now dateString = "In " +:+ pretty n +:+ " days")
  ∧ ((diff ≤ - day)%Z →
     ∃ n, (1 ≤ n)%Z ∧ (n * day ≤ - diff < (n + 1) * day)%Z
          ∧ formatDate getTime now dateString = pretty n +:+ " days ago").
Proof.
  intros Hd _ diff. unfold formatDate. rewrite Hd. fold diff.
  pose proof (ceil_div_day diff) as Hc.
  assert (0 < day)%Z as Hday by done.
  repeat split.
  - intros H. assert (ceil_div diff day = 0)%Z as -> by nia. done.
  - intros H. assert (ceil_div diff day = 1)%Z as -> by nia. done.
  - intros H. exists (ceil_div diff day).
    assert (2 ≤ ceil_div diff day)%Z as Hn by nia.
    split; [done |]. split; [done |].
    destruct (Z.eqb_spec (ceil_div diff day) 0); [lia |].
    destruct (Z.eqb_spec (ceil_div diff day) 1); [lia |].
    destruct (Z.ltb_spec 0 (ceil_div diff day)); [done | lia].
  - intros H. exists (- ceil_div diff day)%Z.
    assert (ceil_div diff day ≤ -1)%Z as Hn by nia.
    split; [lia |]. split; [nia |].
    destruct (Z.eqb_spec (ceil_div diff day) 0); [lia |].
    destruct (Z.eqb_spec (ceil_div diff day) 1); [lia |].
    destruct (Z.ltb_spec 0 (ceil_div diff day)); [lia |].
    by rewrite Z.abs_neq by lia.
Qed.

(** The labels of a deadline that has passed. *)
Lemma formatDate_passed (now date : Z) (dateString : string) :
  getTime dateString = Some date → (date - now ≤ 0)%Z →
  formatDate getTime now dateString = "Today"
  ∨ ∃ n, (1 ≤ n)%Z ∧ formatDate getTime now dateString = pretty n +:+ " days ago".
Proof.
  intros Hd Hle. unfold formatDate. rewrite Hd.
  pose proof (ceil_div_day (date - now)) as Hc.
  assert (0 < day)%Z as Hday by done.
  assert (ceil_div (date - now) day ≤ 0)%Z as Hn by nia.
  destruct (Z.eqb_spec (ceil_div (date - now) day) 0); [by left |].
  destruct (Z.eqb_spec (ceil_div (date - now) day) 1); [lia |].
  destruct (Z.ltb_spec 0 (ceil_div (date - now) day)); [lia |].
  right. exists (- ceil_div (date - now) day)%Z. split; [lia |].
  by rewrite Z.abs_neq by lia.
Qed.

(** X25. A note that is marked as overdue is never labelled as lying
    ahead: when the clock does not run backwards between the test and the
    label, the label is [Today] or [n days ago] with [n] at least one. *)
Theorem overdue_note_is_not_labelled_ahead (now now' : Z) (note : NoteType) :
  (now ≤ now')%Z → isOverdue getTime now note = true →
  formatDate getTime now' (note_deadline note) = "Today"
  ∨ ∃ n, (1 ≤ n)%Z
         ∧ formatDate getTime now' (note_deadline note) = pretty n +:+ " days ago".
Proof.
  intros Hle. unfold isOverdue.
  destruct (getTime (note_deadline note)) as [date|] eqn:Hd; [| done].
  intros Hlt%Z.ltb_lt. apply (formatDate_passed now' date); [done | lia].
Qed.

End Note.

End NoteViewProps.

(** *** The login and register form *)

Module FormProps.

Import Server Client Contract Props Public Api Service Basics.

Section Form.

#[local] Set Default Proof Using "Type".

Variable signInWithPassword : string → string → SignInResult.
Variable signUp : string → string → string → option thrown.

(** The sign-up request of the form and what it carries. *)
Lemma handleSubmit_signup (f : FormState) (e p un : string) :
  SignUp e p un ∈ handleSubmit signInWithPassword signUp f →
  isLogin f = false ∧ e = email f ∧ p = password f ∧ un = username f
  ∧ trim e ≠ "" ∧ trim p ≠ "" ∧ trim un ≠ ""
  ∧ p = confirmPassword f ∧ (6 ≤ String.length p)%nat.
Proof.
  unfold handleSubmit, login_flow, register_flow. intros H.
  do 3 (apply elem_of_cons in H as [? | H]; [done |]).
  destruct (isLogin f).
  { exfalso. destruct (_ || _); [by not_there H |].
    apply elem_of_cons in H as [? | H]; [done |].
    repeat case_match; by not_there H. }
  destruct (is_empty (trim (email f))) eqn:Ee; simpl in H; [by not_there H |].
  destruct (is_empty (trim (password f))) eqn:Ep; simpl in H; [by not_there H |].
  destruct (is_empty (trim (username f))) eqn:Eu; simpl in H; [by not_there H |].
  destruct (String.eqb_spec (password f) (confirmPassword f)) as [Hc | Hc];
    simpl in H; [| by not_there H].
  destruct (Nat.ltb_spec (String.length (password f)) 6) as [Hl | Hl];
    [by not_there H |].
  apply is_empty_false in Ee, Ep, Eu.
  apply elem_of_cons in H as [H | H].
  { by simplify_eq. }
  exfalso. destruct (signUp _ _ _); [by not_there H |].
  apply elem_of_cons in H as [? | H]; [done |].
  repeat case_match; by not_there H.
Qed.

(** X26. The form calls [onLogin] only with the token of the session and
    the id of the user that the sign-in with the typed email and password
    yielded without an error, after that sign-in was made with fields that
    are not blank; in register mode also only after the sign-up did not
    throw, and with the typed username. And the handler ends either with
    [onLogin] or with the loading state switched off. *)
Theorem form_enters_only_with_a_session (f : FormState) :
  let events := handleSubmit signInWithPassword signUp f in
  let r := signInWithPassword (email f) (password f) in
  (∀ name token uid, OnLogin name token uid ∈ events →
     trim (email f) ≠ "" ∧ trim (password f) ≠ ""
     ∧ SignInWithPassword (email f) (password f) ∈ events
     ∧ loginError r = None
     ∧ data_session r = Some (mkSession token)
     ∧ (user_id <$> data_user r) = Some uid
     ∧ (isLogin f = false →
        name = username f ∧ signUp (email f) (password f) (username f) = None))
  ∧ (last events = Some (SetLoading false)
     ∨ ∃ name token uid, last events = Some (OnLogin name token uid)).
Proof.
  unfold handleSubmit, login_flow, register_flow. simpl. split.
  - intros name token uid H.
    do 3 (apply elem_of_cons in H as [? | H]; [done |]).
    destruct (isLogin f).
    + destruct (is_empty (trim (email f))) eqn:Ee; simpl in H; [by not_there H |].
      destruct (is_empty (trim (password f))) eqn:Ep; simpl in H; [by not_there H |].
      apply is_empty_false in Ee, Ep. do 2 (split; [done |]).
      split; [do 3 apply list_elem_of_further; apply list_elem_of_here |].
      apply elem_of_cons in H as [? | H]; [done |].
      destruct (loginError _); [by not_there H |].
      destruct (data_session _) as [[tok]|]; [| by not_there H].
      destruct (data_user _) as [usr|]; [| by not_there H].
      apply list_elem_of_singleton in H. by simplify_eq.
    + destruct (is_empty (trim (email f))) eqn:Ee; simpl in H; [by not_there H |].
      destruct (is_empty (trim (password f))) eqn:Ep; simpl in H; [by not_there H |].
      destruct (is_empty (trim (username f))) eqn:Eu; simpl in H; [by not_there H |].
      destruct (negb _); [by not_there H |].
      destruct (_ <? _)%nat; [by not_there H |].
      apply is_empty_false in Ee, Ep. do 2 (split; [done |]).
      apply elem_of_cons in H as [? | H]; [done |].
      destruct (signUp _ _ _); [by not_there H |].
      split; [do 4 apply list_elem_of_further; apply list_elem_of_here |].
      apply elem_of_cons in H as [? | H]; [done |].
      destruct (loginError _); [by not_there H |].
      destruct (data_session _) as [[tok]|]; [| by not_there H].
      destruct (data_user _) as [usr|]; [| by not_there H].
      apply list_elem_of_singleton in H. by simplify_eq.
  - destruct (isLogin f).
    + destruct (_ || _); [by left |].
      destruct (loginError _); [by left |].
      repeat case_match; try (by left); right; by eexists _, _, _.
    + destruct (_ || _); [by left |].
      destruct (negb _); [by left |].
      destruct (_ <? _)%nat; [by left |].
      destruct (signUp _ _ _); [by left |].
      destruct (loginError _); [by left |].
      repeat case_match; try (by left); right; by eexists _, _, _.
Qed.

End Form.

Section Agreement.

#[local] Set Default Proof Using "Type".

Variable publicAnonKey : string.
Variable to_string : json → string.
Variable null_message : string.
Variable createUser : json → json → json → AuthResult.
Variable signInWithPassword : string → string → SignInResult.
Variable signUp : string → string → string → option thrown.

(** X27. A sign-up that the form sends always reaches the identity
    provider: the handler never answers that a field is missing. The call
    throws the provider's message when the provider reports an error, and
    [Failed to create user] when it yields no user, both without a write;
    otherwise it returns the success answer, and the store holds the new
    profile, with the typed username and email, under the key of the new
    user. *)
Theorem form_signup_reaches_the_provider (rt : Runtime) (f : FormState)
    (e p un : string) (w : World) :
  SignUp e p un ∈ handleSubmit signInWithPassword signUp f →
  let r := createUser (JStr e) (JStr p) (JStr un) in
  ∃ answer w',
    Api.signUp publicAnonKey to_string null_message createUser rt e p un w
    = (Done answer, w')
    ∧ match error r, user r with
      | Some message, _ =>
          answer = inl (IsError (if String.eqb message "" then "API request failed"
                                 else message))
          ∧ w' = w
      | None, None => answer = inl (IsError "Failed to create user") ∧ w' = w
      | None, Some u =>
          answer = inr (body (signup_ok u (JStr un)))
          ∧ store w' = <[profile_key (id u) :=
                           to_json (new_profile rt u (JStr un) (JStr e))]> (store w)
      end.
Proof.
  intros H r. subst r.
  apply handleSubmit_signup in H as (_ & _ & _ & _ & He & Hp & Hu & _).
  assert (e ≠ "") as He' by (by intros ->).
  assert (p ≠ "") as Hp' by (by intros ->).
  assert (un ≠ "") as Hu' by (by intros ->).
  apply String.eqb_neq in He', Hp', Hu'.
  unfold Api.signUp, fetchAPI, post_signup, destructure, try_catch,
    mbind, M_bind, bind, mret, M_ret, ret, request. simpl.
  unfold prop. rewrite lookup_insert_ne by done. rewrite lookup_insert_ne by done.
  rewrite lookup_insert_eq. rewrite lookup_insert_ne by done.
  rewrite !lookup_insert_eq. simpl. rewrite He', Hp', Hu'. simpl.
  destruct (error (createUser _ _ _)) as [message|].
  { eexists _, _. split; [reflexivity |]. split; [| done].
    unfold receive, ok, json_error. simpl. by rewrite lookup_singleton_eq. }
  destruct (user (createUser _ _ _)) as [u|].
  - eexists _, _. split; [reflexivity |]. done.
  - eexists _, _. split; [reflexivity |]. split; [| done].
    unfold receive, ok, json_error. simpl. by rewrite lookup_singleton_eq.
Qed.

End Agreement.

End FormProps.

(** ** The client properties on the concrete run *)

Module ClientRun.

Import Server Client Contract Props Public Router Api Calls Editor Settings
  MainPage NoteView Scenario Session Desk.
Import ApiProps EditorProps SettingsProps MainPageProps FetchProps NoteViewProps
  FormProps.

Lemma bearer_round_trip_witness :
  header_safe "token-alice" = true
  ∧ Server.accessToken (request publicAnonKey true (Some "token-alice") "" None)
    = Some "token-alice"
  ∧ authenticate getUser (request publicAnonKey true (Some "token-alice") "" None)
    = Some alice.
Proof.
  split; [reflexivity |].
  exact (bearer_round_trip publicAnonKey getUser "token-alice" "" None eq_refl).
Defined.

Lemma server_answers_reach_the_caller_witness :
  safe publicAnonKey (CallDeleteNote "token-alice" "0b9d6c3e-1111") = true
  ∧ ∃ w',
      perform publicAnonKey to_string null_message getUser updateUserById to_number
        createUser rt_alice (CallDeleteNote "token-alice" "0b9d6c3e-1111") w1
      = (Done (inr (JObj {["message" := JStr "Note deleted successfully"]})), w').
Proof.
  split; [reflexivity |].
  destruct (server_answers_reach_the_caller publicAnonKey to_string null_message
              getUser updateUserById to_number createUser rt_alice
              (CallDeleteNote "token-alice" "0b9d6c3e-1111") w1 eq_refl)
    as (r & w' & Hr & Hp & _).
  simpl in Hr.
  rewrite (delete_notes_ok getUser
             (request publicAnonKey true (Some "token-alice") "0b9d6c3e-1111" None)
             w1 alice (JObj alice_note) eq_refl) in Hr;
    [| vm_compute; reflexivity | reflexivity].
  injection Hr as <- _. exists w'. exact Hp.
Defined.

Lemma draft_tags_tidy : tidy (tags draft).
Proof.
  split.
  - apply NoDup_singleton.
  - apply Forall_singleton. split; [discriminate | reflexivity].
Qed.

Lemma tags_stay_tidy_witness :
  tidy (tags draft)
  ∧ tidy (tags (handleAddTag "Enter" draft).1)
  ∧ tidy (tags (removeTag "bills" draft)).
Proof.
  split; [apply draft_tags_tidy |].
  apply (tags_stay_tidy "Enter" "bills" draft), draft_tags_tidy.
Defined.

Lemma home_is_new : "home" ∉ tags draft.
Proof. intros H. apply list_elem_of_singleton in H. discriminate. Qed.

Lemma add_then_remove_tag_witness :
  is_empty (trim (tagInput draft)) = false
  ∧ (toLowerCase (trim (tagInput draft)) ∉ tags draft)
  ∧ tags (handleAddTag "Enter" draft).1 = ["bills"; "home"]
  ∧ tags (removeTag "home" (handleAddTag "Enter" draft).1) = ["bills"].
Proof.
  split; [reflexivity |]. split; [apply home_is_new |].
  destruct (add_then_remove_tag draft eq_refl home_is_new) as (Hadd & Hrem & _).
  split; [exact Hadd | exact Hrem].
Defined.

Lemma endOfDay_not_empty (d iso : string) : endOfDay d = Some iso → iso ≠ "".
Proof.
  unfold endOfDay. destruct (is_empty d); [done |]. intros [= <-].
  by destruct d.
Qed.

Lemma draft_is_sent :
  Editor.CreateNote "token-alice" draft_data
    ∈ Editor.handleSubmit None "token-alice" endOfDay updateNote createNote draft.
Proof. do 3 apply list_elem_of_further. apply list_elem_of_here. Qed.

Lemma editor_create_is_accepted_witness :
  (∀ d iso, endOfDay d = Some iso → iso ≠ "")
  ∧ Editor.CreateNote "token-alice" draft_data
      ∈ Editor.handleSubmit None "token-alice" endOfDay updateNote createNote draft
  ∧ authenticate getUser
      (request publicAnonKey true (Some "token-alice") "" (Some (note_json draft_data)))
    = Some alice
  ∧ ∃ stored w',
      Api.createNote publicAnonKey to_string null_message getUser rt_alice
        "token-alice" draft_data w0
      = (Done (inr (JObj {["note" := stored]})), w')
      ∧ store w' !! note_key (id alice) (randomUUID rt_alice) = Some stored
      ∧ prop stored "title" = Some (JStr "Pay rent").
Proof.
  split; [apply endOfDay_not_empty |]. split; [apply draft_is_sent |].
  split; [reflexivity |].
  destruct (editor_create_is_accepted publicAnonKey to_string null_message getUser
              endOfDay updateNote createNote rt_alice "token-alice" draft draft_data
              alice w0 endOfDay_not_empty draft_is_sent eq_refl)
    as (stored & w' & Hc & Hs & Ht & _).
  exists stored, w'. split; [exact Hc |]. split; [exact Hs | exact Ht].
Defined.

Lemma password_is_sent :
  UpdatePassword "token-alice" "abc123"
    ∈ handleChangePassword "token-alice" updatePassword refreshSession
        "abc123" "abc123".
Proof. do 4 apply list_elem_of_further. apply list_elem_of_here. Qed.

Lemma settings_password_passes_the_server_check_witness :
  UpdatePassword "token-alice" "abc123"
    ∈ handleChangePassword "token-alice" updatePassword refreshSession
        "abc123" "abc123"
  ∧ authenticate getUser
      (request publicAnonKey true (Some "token-alice") ""
         (Some (JObj {["newPassword" := JStr "abc123"]})))
    = Some alice
  ∧ Api.updatePassword publicAnonKey to_string null_message getUser updateUserById
      to_number "token-alice" "abc123" w1
    = (Done (inr (JObj {["message" := JStr "Password updated successfully"]})), w1).
Proof.
  split; [apply password_is_sent |]. split; [reflexivity |].
  exact (settings_password_passes_the_server_check publicAnonKey to_string
           null_message getUser updateUserById to_number updatePassword
           refreshSession "token-alice" "abc123" "abc123" "token-alice" "abc123"
           alice w1 password_is_sent eq_refl).
Defined.

Lemma ids_differ : NoDup (note_id <$> [milk_note; rent_note]).
Proof.
  apply NoDup_cons. split; [| apply NoDup_singleton].
  intros H. apply list_elem_of_singleton in H. discriminate.
Qed.

Lemma titles_there : Forall (λ note, note_title note ≠ "") [milk_note; rent_note].
Proof. repeat constructor; discriminate. Qed.

Lemma page_shows_every_note_once_witness :
  NoDup (note_id <$> [milk_note; rent_note])
  ∧ Forall (λ note, note_title note ≠ "") [milk_note; rent_note]
  ∧ option_list (upcomingNote getTime now [milk_note; rent_note])
    ++ filteredAndSortedNotes getTime now localeCompare [milk_note; rent_note] "" ByName
    ≡ₚ [milk_note; rent_note].
Proof.
  split; [apply ids_differ |]. split; [apply titles_there |].
  destruct (page_shows_every_note_once getTime now localeCompare
              [milk_note; rent_note] "" ByName) as [_ Hperm].
  exact (Hperm eq_refl ids_differ titles_there).
Defined.

Lemma deadlines_are_dates :
  Forall (λ note, is_Some (getTime (note_deadline note))) [milk_note; rent_note].
Proof. repeat constructor; by eexists. Qed.

Lemma time_order_is_ascending_witness :
  Forall (λ note, is_Some (getTime (note_deadline note))) [milk_note; rent_note]
  ∧ ∀ i j a b,
      (i ≤ j)%nat →
      filteredAndSortedNotes getTime now localeCompare [milk_note; rent_note] "" ByTime
        !! i = Some a →
      filteredAndSortedNotes getTime now localeCompare [milk_note; rent_note] "" ByTime
        !! j = Some b →
      ∃ ta tb, getTime (note_deadline a) = Some ta ∧ getTime (note_deadline b) = Some tb
               ∧ (ta ≤ tb)%Z.
Proof.
  split; [apply deadlines_are_dates |].
  exact (time_order_is_ascending getTime now localeCompare [milk_note; rent_note] ""
           deadlines_are_dates).
Defined.

Lemma listing_is_the_answer :
  (Api.getNotes publicAnonKey to_string null_message getUser "token-alice" w1).1
  = Done (listing "token-alice").
Proof. vm_compute; reflexivity. Qed.

Lemma app_shows_listed_notes_with_deadline_witness :
  authenticate getUser (request publicAnonKey true (Some "token-alice") "" None)
  = Some alice
  ∧ (Api.getNotes publicAnonKey to_string null_message getUser "token-alice" w1).1
    = Done (listing "token-alice")
  ∧ ∃ listed,
      listing "token-alice" = inr (JObj {["notes" := JArr listed]})
      ∧ fetchNotes listing "token-alice"
        = [SetLoading true; GetNotes "token-alice";
           SetNotes (filter (λ note, truthy_v (prop note "deadline") = true) listed);
           OnNotesUpdate (filter (λ note, truthy_v (prop note "deadline") = true) listed);
           SetError ""; SetLoading false].
Proof.
  split; [reflexivity |]. split; [apply listing_is_the_answer |].
  destruct (app_shows_listed_notes_with_deadline publicAnonKey to_string null_message
              getUser listing "token-alice" alice w1 eq_refl listing_is_the_answer)
    as (listed & _ & Hl & Hf).
  exists listed. split; [exact Hl | exact Hf].
Defined.

Lemma alice_note_stored :
  store w1 !! note_key (id alice) "0b9d6c3e-1111" = Some (JObj alice_note).
Proof. vm_compute; reflexivity. Qed.

Lemma update_without_deadline_hides_note_in_app_witness :
  authenticate getUser (as_alice "0b9d6c3e-1111" (Some no_deadline)) = Some alice
  ∧ store w1 !! note_key (id alice) "0b9d6c3e-1111" = Some (JObj alice_note)
  ∧ truthy_v (alice_note !! "id") = true
  ∧ truthy_v (prop no_deadline "title") = true
  ∧ truthy_v (prop no_deadline "deadline") = false
  ∧ ∃ note w2 listed w3 shown,
      put_notes getUser (as_alice "0b9d6c3e-1111" (Some no_deadline)) w1
      = (Done (json_ok "note" note), w2)
      ∧ get_notes getUser (as_alice "" None) w2
        = (Done (json_ok "notes" (JArr listed)), w3)
      ∧ note ∈ listed
      ∧ validNotes (body (json_ok "notes" (JArr listed))) = Some shown
      ∧ note ∉ shown.
Proof.
  split; [reflexivity |]. split; [apply alice_note_stored |].
  split; [vm_compute; reflexivity |]. split; [vm_compute; reflexivity |].
  split; [vm_compute; reflexivity |].
  apply (update_without_deadline_hides_note_in_app getUser
           (as_alice "0b9d6c3e-1111" (Some no_deadline)) (as_alice "" None) w1 alice
           no_deadline alice_note eq_refl eq_refl).
  - discriminate.
  - apply alice_note_stored.
  - vm_compute; reflexivity.
  - vm_compute; reflexivity.
  - vm_compute; reflexivity.
  - reflexivity.
Defined.

Lemma date_label_by_distance_witness :
  getTime "2025-01-01T23:59:59.999Z" = Some 1735775999999%Z
  ∧ (Z.abs (1735775999999 - morning) ≤ 2 ^ 53)%Z
  ∧ (0 < 1735775999999 - morning ≤ day)%Z
  ∧ formatDate getTime morning "2025-01-01T23:59:59.999Z" = "Tomorrow".
Proof.
  split; [reflexivity |].
  assert (Z.abs (1735775999999 - morning) ≤ 2 ^ 53)%Z as Hb by discriminate.
  assert (0 < 1735775999999 - morning ≤ day)%Z as Hd
    by (vm_compute; split; [reflexivity | discriminate]).
  split; [exact Hb |]. split; [exact Hd |].
  destruct (date_label_by_distance getTime morning 1735775999999
              "2025-01-01T23:59:59.999Z" eq_refl Hb) as (_ & Htomorrow & _).
  exact (Htomorrow Hd).
Defined.

Lemma overdue_note_is_not_labelled_ahead_witness :
  (1735780000000 ≤ 1735780000005)%Z
  ∧ isOverdue getTime 1735780000000 rent_note = true
  ∧ (formatDate getTime 1735780000005 (note_deadline rent_note) = "Today"
     ∨ ∃ n, (1 ≤ n)%Z
            ∧ formatDate getTime 1735780000005 (note_deadline rent_note)
              = pretty n +:+ " days ago").
Proof.
  assert (1735780000000 ≤ 1735780000005)%Z as Hle by discriminate.
  split; [exact Hle |]. split; [reflexivity |].
  exact (overdue_note_is_not_labelled_ahead getTime 1735780000000 1735780000005
           rent_note Hle eq_refl).
Defined.

Lemma form_is_sent :
  SignUp "alice@example.org" "correct horse" "alice"
    ∈ Client.handleSubmit signInWithPassword signUp new_form.
Proof. do 3 apply list_elem_of_further. apply list_elem_of_here. Qed.

Lemma form_signup_reaches_the_provider_witness :
  SignUp "alice@example.org" "correct horse" "alice"
    ∈ Client.handleSubmit signInWithPassword signUp new_form
  ∧ ∃ answer w',
      Api.signUp publicAnonKey to_string null_message createUser rt_alice
        "alice@example.org" "correct horse" "alice" w0
      = (Done answer, w')
      ∧ answer = inr (body (signup_ok alice (JStr "alice")))
      ∧ store w'
        = <[profile_key (id alice) :=
              to_json (new_profile rt_alice alice (JStr "alice")
                         (JStr "alice@example.org"))]> (store w0).
Proof.
  split; [apply form_is_sent |].
  destruct (form_signup_reaches_the_provider publicAnonKey to_string null_message
              createUser signInWithPassword signUp rt_alice new_form
              "alice@example.org" "correct horse" "alice" w0 form_is_sent)
    as (answer & w' & Hc & Ha & Hs).
  exists answer, w'. split; [exact Hc |]. split; [exact Ha | exact Hs].
Defined.

End ClientRun.
